(** * StockPriceGenerator: the path generators and the interval chainer

    A shallow embedding of [models/gbm.py], [models/svm.py], [ui/util.py]
    and of [StockSimulatorGUI.run_simulation] in [ui/simulator_ui.py],
    followed by the script [models/ex.py], the form of [ui/interval_ui.py]
    and [StockSimulatorGUI.export_simulation].

    Conventions of the embedding.
    - A Python [float] (and a numpy [float64]) is a real number: [R] with
      the Standard Library's [exp] and [sqrt].  Rounding, infinities and
      NaN are outside the model.  Where numpy yields NaN for the square
      root of a negative number (a negative [dt], a correlation outside
      [[-1, 1]]) the [sqrt] of the model yields 0, so model and code agree
      where the arguments of the square roots are not negative.  The main
      properties of the generators are stated so that they read the same
      on NaN (an identity between a cell and the operations that store it,
      the failure of a comparison), or carry that hypothesis.  The one
      place where the range of floats is modelled is [float(q)] of a
      [Fraction], which raises [OverflowError] beyond the largest float.
    - A Python [int] is a [Z]; [//] and [%] are [Z.div] and [Z.modulo],
      which round like Python's (towards minus infinity).
    - numpy arrays and Python lists are [list]s; indexing follows numpy
      (a negative index counts from the end, an index out of range raises
      [IndexError]).
    - The global numpy random source is an explicit state [rng]; code that
      draws from it, or that can raise, lives in the monad [M].
    - The arguments [T], [steps_per_day], [bubble_start] and [bubble_end]
      of the generators are ints, as the chainer passes them; [crash_day]
      is a [number], an int or a float, so that a crash day that is no
      whole day can be written.
    - The texts of error boxes and exceptions are kept as values of
      [message] rather than as strings.

    The file has the embedding first (the generators, the parser, the
    chainer, then the recurrences and predicates the statements use) and
    the properties after it. *)

From Stdlib Require Import ZArith Reals Lra Lia List String Ascii.
From Stdlib Require Import Sorted DecimalString DecimalPos.
From stdpp Require Import gmap strings list.

Open Scope Z_scope.
Open Scope R_scope.

(** ** Exceptions and messages *)

(** The texts the code builds with f-strings, kept structured.  The
    comment of each constructor gives the Python text. *)
Inductive message : Type :=
  | MsgIntLiteral (text : string)
    (* str(e) of the ValueError of int(text) *)
  | MsgFloatLiteral (text : string)
    (* str(e) of the ValueError of float(text) *)
  | MsgFractionLiteral (text : string)
    (* str(e) of the ValueError of Fraction(text) *)
  | MsgNumpy (what : string)
    (* str(e) of a ValueError raised inside numpy *)
  | MsgInvalidFormat (text : string)
    (* f"Invalid parameter format: '{value_str}'. Expected a number or a
       fraction like '1/365'." *)
  | MsgStartBeforeEnd (idx : nat)
    (* f"Interval {idx}: Start day must be < End day." *)
  | MsgInvalidLength (i : nat)
    (* f"Interval {i} has invalid length." *)
  | MsgUnknownModel (i : nat) (model : string)
    (* f"Interval {i}: Unknown model '{model}'" *)
  | MsgInterval (i : nat) (e : message)
    (* f"Interval {i}: {e}" *).

Inductive exn : Type :=
  | ValueError (msg : message)
  | ZeroDivisionError
  | IndexError
  | OverflowError.

(** ** The random source *)

(** [stream] is the sequence of standard normal draws the source will
    deliver, [pos] the number of draws already consumed, and [seeded s]
    the sequence the source delivers after [np.random.seed(s)]. *)
Record rng : Type := MkRng {
  stream : nat -> R;
  pos : nat;
  seeded : Z -> nat -> R
}.

Definition advance (n : nat) (g : rng) : rng :=
  {| stream := stream g; pos := (pos g + n)%nat; seeded := seeded g |}.

Definition reseed (s : Z) (g : rng) : rng :=
  {| stream := seeded g s; pos := 0%nat; seeded := seeded g |}.

(** ** The monad of the generators: random state and exceptions *)

Inductive result (A : Type) : Type :=
  | Ok (a : A) (g : rng)
  | Raise (e : exn) (g : rng).
Arguments Ok {A} a g.
Arguments Raise {A} e g.

Definition M (A : Type) : Type := rng -> result A.

Definition ret {A} (a : A) : M A := fun g => Ok a g.
Definition raise {A} (e : exn) : M A := fun g => Raise e g.
Definition bind {A B} (c : M A) (k : A -> M B) : M B :=
  fun g => match c g with
           | Ok a g' => k a g'
           | Raise e g' => Raise e g'
           end.

Notation "x <- c ;; k" := (bind c (fun x => k))
  (at level 100, c at next level, right associativity).
Notation "c ;;; k" := (bind c (fun _ => k))
  (at level 100, right associativity).

(** [for x in xs: st = body x st] *)
Fixpoint for_each {X St : Type} (body : X -> St -> M St) (xs : list X)
    (st : St) : M St :=
  match xs with
  | [] => ret st
  | x :: xs' => st' <- body x st ;; for_each body xs' st'
  end.

(** [range(a, b)] *)
Definition py_range (a b : Z) : list Z :=
  map (fun k => (a + Z.of_nat k)%Z) (seq 0 (Z.to_nat (b - a))).

(** [x / n] for a float [x] and an int [n] *)
Definition py_truediv (x : R) (n : Z) : M R :=
  if (n =? 0)%Z then raise ZeroDivisionError else ret (x / IZR n).

(** [a % n] on ints *)
Definition py_mod (a n : Z) : M Z :=
  if (n =? 0)%Z then raise ZeroDivisionError else ret (a mod n)%Z.

(** [a // n] on ints *)
Definition py_floordiv (a n : Z) : M Z :=
  if (n =? 0)%Z then raise ZeroDivisionError else ret (a / n)%Z.

(** A Python number that is an [int] or a [float]. *)
Inductive number : Type :=
  | PyInt (z : Z)
  | PyFloat (x : R).

(** [c * n] for a number [c] and an int [n]: an int when [c] is one, a
    float otherwise. *)
Definition number_times_int (c : number) (n : Z) : number :=
  match c with
  | PyInt z => PyInt (z * n)
  | PyFloat x => PyFloat (x * IZR n)
  end.

(** [a == p] for an int [a] and a number [p] *)
Definition int_equals (a : Z) (p : number) : bool :=
  match p with
  | PyInt z => (a =? z)%Z
  | PyFloat x => if Req_dec_T (IZR a) x then true else false
  end.

(** ** numpy *)

(** [np.random.seed(seed)] under [if seed is not None] *)
Definition np_random_seed (seed : option Z) : M unit :=
  fun g => match seed with
           | Some s => Ok tt (reseed s g)
           | None => Ok tt g
           end.

(** [np.random.normal()] *)
Definition np_random_normal : M R :=
  fun g => Ok (stream g (pos g)) (advance 1 g).

(** [np.random.normal(0, 1, n)] *)
Definition np_random_normal_n (n : Z) : M (list R) :=
  fun g =>
    if (n <? 0)%Z then Raise (ValueError (MsgNumpy "negative dimensions are not allowed")) g
    else Ok (map (fun k => stream g (pos g + k)%nat) (seq 0 (Z.to_nat n)))
            (advance (Z.to_nat n) g).

(** [np.zeros(n)] *)
Definition np_zeros (n : Z) : M (list R) :=
  if (n <? 0)%Z then raise (ValueError (MsgNumpy "negative dimensions are not allowed"))
  else ret (replicate (Z.to_nat n) 0).

(** The position an index denotes in an array of length [len]. *)
Definition np_index (len : nat) (i : Z) : option nat :=
  let j := if (i <? 0)%Z then (i + Z.of_nat len)%Z else i in
  if ((0 <=? j) && (j <? Z.of_nat len))%Z then Some (Z.to_nat j) else None.

(** [a[i]] *)
Definition np_get {A} (a : list A) (i : Z) : M A :=
  match np_index (length a) i with
  | Some j => match a !! j with
              | Some x => ret x
              | None => raise IndexError
              end
  | None => raise IndexError
  end.

(** [a[i] = x] *)
Definition np_set {A} (a : list A) (i : Z) (x : A) : M (list A) :=
  match np_index (length a) i with
  | Some j => ret (<[j := x]> a)
  | None => raise IndexError
  end.

(** [np.max(l)] and [np.min(l)] of a list *)
Definition np_max (l : list R) : M R :=
  match l with
  | [] => raise (ValueError (MsgNumpy "zero-size array to reduction operation maximum which has no identity"))
  | x :: xs => ret (fold_left Rmax xs x)
  end.

Definition np_min (l : list R) : M R :=
  match l with
  | [] => raise (ValueError (MsgNumpy "zero-size array to reduction operation minimum which has no identity"))
  | x :: xs => ret (fold_left Rmin xs x)
  end.

(** [np.arange(a, b)] on ints *)
Definition np_arange (a b : Z) : list Z := py_range a b.

(** ** The output of a generator *)

(** The tuple [days, open_prices, close_prices, high_prices, low_prices]
    both generators return. *)
Record PricePath : Type := MkPath {
  days : list Z;
  open_prices : list R;
  close_prices : list R;
  high_prices : list R;
  low_prices : list R
}.

(** ** models/gbm.py *)

Module Gbm.

(** The local variables of [generate_gbm_prices] that the loop changes. *)
Record state : Type := MkState {
  arr_S : list R;
  day_prices : list R;
  opens : list R;
  closes : list R;
  highs : list R;
  lows : list R
}.

(** The body of [for t in range(1, total_steps + 1)]. *)
Definition step (mu sigma dt_intra : R) (steps_per_day : Z) (t : Z)
    (st : state) : M state :=
  Z <- np_random_normal ;;
  prev <- np_get (arr_S st) (t - 1) ;;
  S1 <- np_set (arr_S st) t
          (prev * exp ((mu - 0.5 * sigma ^ 2) * dt_intra
                       + sigma * sqrt dt_intra * Z)) ;;
  St <- np_get S1 t ;;
  let day_prices1 := day_prices st ++ [St] in
  r <- py_mod t steps_per_day ;;
  if (r =? 0)%Z then
    open_p <- np_get S1 (t - steps_per_day) ;;
    close_p <- np_get S1 t ;;
    high_p <- np_max day_prices1 ;;
    low_p <- np_min day_prices1 ;;
    ret {| arr_S := S1; day_prices := [];
           opens := opens st ++ [open_p];
           closes := closes st ++ [close_p];
           highs := highs st ++ [high_p];
           lows := lows st ++ [low_p] |}
  else
    ret {| arr_S := S1; day_prices := day_prices1;
           opens := opens st; closes := closes st;
           highs := highs st; lows := lows st |}.

(** [generate_gbm_prices] up to its [return]: the final local state. *)
Definition simulate (T : Z) (dt S0 mu sigma : R) (steps_per_day : Z)
    (seed : option Z) : M state :=
  np_random_seed seed ;;;
  let total_steps := (T * steps_per_day)%Z in
  dt_intra <- py_truediv dt steps_per_day ;;
  S <- np_zeros (total_steps + 1) ;;
  S <- np_set S 0 S0 ;;
  for_each (step mu sigma dt_intra steps_per_day)
    (py_range 1 (total_steps + 1))
    {| arr_S := S; day_prices := [];
       opens := []; closes := []; highs := []; lows := [] |}.

Definition generate_gbm_prices (T : Z) (dt S0 mu sigma : R)
    (steps_per_day : Z) (seed : option Z) : M PricePath :=
  st <- simulate T dt S0 mu sigma steps_per_day seed ;;
  ret {| days := np_arange 1 (T + 1);
         open_prices := opens st;
         close_prices := closes st;
         high_prices := highs st;
         low_prices := lows st |}.

End Gbm.

(** ** models/svm.py *)

Module Svm.

(** The local variables of [generate_svm_prices] that the loop changes. *)
Record state : Type := MkState {
  arr_S : list R;
  arr_v : list R;
  day_prices : list R;
  opens : list R;
  closes : list R;
  highs : list R;
  lows : list R
}.

(** The optional arguments of [generate_svm_prices]; [None] is Python's
    [None]. *)
Record events : Type := MkEvents {
  bubble_start : option Z;
  bubble_end : option Z;
  bubble_mu_extra : option R;
  crash_day : option number;
  crash_factor : option R
}.

(** The [if]/[else] that sets [drift_today] from the 1-based [day]. *)
Definition drift_today (mu : R) (ev : events) (day : Z) : R :=
  match bubble_start ev, bubble_end ev, bubble_mu_extra ev with
  | Some b_start, Some b_end, Some extra =>
      if ((b_start <=? day) && (day <=? b_end))%Z then mu + extra else mu
  | _, _, _ => mu
  end.

(** The block under [# Crash event]: the pair ([S], [day_prices]) after
    it. *)
Definition crash_event (ev : events) (steps_per_day : Z) (t : Z)
    (S1 day_prices1 : list R) : M (list R * list R) :=
  match crash_day ev, crash_factor ev with
  | Some c_day, Some c_factor =>
      if int_equals (t + 1) (number_times_int c_day steps_per_day) then
        cur <- np_get S1 (t + 1) ;;
        S2 <- np_set S1 (t + 1) (cur * c_factor) ;;
        adjusted <- np_get S2 (t + 1) ;;
        day_prices2 <- np_set day_prices1 (-1) adjusted ;;
        ret (S2, day_prices2)
      else ret (S1, day_prices1)
  | _, _ => ret (S1, day_prices1)
  end.

(** The body of [for t in range(total_steps)]. *)
Definition step (kappa theta sigma_v mu : R) (ev : events)
    (dt_intra : R) (steps_per_day : Z) (Z1 Z2 : list R) (t : Z)
    (st : state) : M state :=
  day0 <- py_floordiv t steps_per_day ;;
  let day := (day0 + 1)%Z in
  let drift := drift_today mu ev day in
  vt <- np_get (arr_v st) t ;;
  z2 <- np_get Z2 t ;;
  v1 <- np_set (arr_v st) (t + 1)
          (vt + kappa * (theta - vt) * dt_intra
           + sigma_v * sqrt (Rmax vt 0 * dt_intra) * z2) ;;
  v_new <- np_get v1 (t + 1) ;;
  v2 <- (if Rlt_dec v_new 0 then np_set v1 (t + 1) 0 else ret v1) ;;
  St <- np_get (arr_S st) t ;;
  vt' <- np_get v2 t ;;
  z1 <- np_get Z1 t ;;
  S1 <- np_set (arr_S st) (t + 1)
          (St * exp ((drift - 0.5 * vt') * dt_intra
                     + sqrt (Rmax vt' 0 * dt_intra) * z1)) ;;
  S_new <- np_get S1 (t + 1) ;;
  let day_prices1 := day_prices st ++ [S_new] in
  crashed <- crash_event ev steps_per_day t S1 day_prices1 ;;
  let S2 := fst crashed in
  let day_prices2 := snd crashed in
  r <- py_mod (t + 1) steps_per_day ;;
  if (r =? 0)%Z then
    open_p <- np_get S2 (t + 1 - steps_per_day) ;;
    close_p <- np_get S2 (t + 1) ;;
    high_p <- np_max day_prices2 ;;
    low_p <- np_min day_prices2 ;;
    ret {| arr_S := S2; arr_v := v2; day_prices := [];
           opens := opens st ++ [open_p];
           closes := closes st ++ [close_p];
           highs := highs st ++ [high_p];
           lows := lows st ++ [low_p] |}
  else
    ret {| arr_S := S2; arr_v := v2; day_prices := day_prices2;
           opens := opens st; closes := closes st;
           highs := highs st; lows := lows st |}.

(** [Z2 = rho * eps1 + np.sqrt(1 - rho ** 2) * eps2], element by element. *)
Definition correlate (rho : R) (eps1 eps2 : list R) : list R :=
  zip_with (fun e1 e2 => rho * e1 + sqrt (1 - rho ^ 2) * e2) eps1 eps2.

(** [generate_svm_prices] up to its [return]: the final local state. *)
Definition simulate (T : Z) (dt S0 v0 kappa theta sigma_v rho mu : R)
    (ev : events) (steps_per_day : Z) (seed : option Z) : M state :=
  np_random_seed seed ;;;
  let total_steps := (T * steps_per_day)%Z in
  dt_intra <- py_truediv dt steps_per_day ;;
  S <- np_zeros (total_steps + 1) ;;
  v <- np_zeros (total_steps + 1) ;;
  S <- np_set S 0 S0 ;;
  v <- np_set v 0 v0 ;;
  eps1 <- np_random_normal_n total_steps ;;
  eps2 <- np_random_normal_n total_steps ;;
  let Z1 := eps1 in
  let Z2 := correlate rho eps1 eps2 in
  for_each (step kappa theta sigma_v mu ev dt_intra steps_per_day Z1 Z2)
    (py_range 0 total_steps)
    {| arr_S := S; arr_v := v; day_prices := [];
       opens := []; closes := []; highs := []; lows := [] |}.

Definition generate_svm_prices (T : Z)
    (dt S0 v0 kappa theta sigma_v rho mu : R) (ev : events)
    (steps_per_day : Z) (seed : option Z) : M PricePath :=
  st <- simulate T dt S0 v0 kappa theta sigma_v rho mu ev steps_per_day seed ;;
  ret {| days := np_arange 1 (T + 1);
         open_prices := opens st;
         close_prices := closes st;
         high_prices := highs st;
         low_prices := lows st |}.

End Svm.

(** ** Python's [int], [float] and [Fraction] on strings

    The three constructors are library code.  The chainer and
    [parse_float] below take them as parameters ([Builtins]), and the
    properties that speak of every text are stated for any behaviour of
    the three.  The definitions here are executable models of them on
    plain decimal text (optional blanks around, an optional sign, digits,
    and either a [/] and a denominator or a [.] and a fractional part),
    which is what the simulator's form holds by default; they serve the
    sample inputs.  Text outside that fragment (digit grouping with [_],
    exponents, [inf], [nan], digits beyond ASCII), which Python accepts,
    is rejected by these models. *)

Record Fraction : Type := MkFraction { numerator : Z; denominator : Z }.

(** The least magnitude that rounds beyond the largest float:
    [2 ** 1024 - 2 ** 970]. *)
Definition float_overflow : Z := (2 ^ 1024 - 2 ^ 970)%Z.

(** [float(q)] for a [Fraction]: the true division of its numerator by
    its denominator, which raises [OverflowError] when the quotient is too
    large for a float. *)
Definition float_of_Fraction (q : Fraction) : exn + R :=
  if (denominator q =? 0)%Z then inl ZeroDivisionError
  else if (float_overflow * Z.abs (denominator q) <=? Z.abs (numerator q))%Z
  then inl OverflowError
  else inr (IZR (numerator q) / IZR (denominator q)).

(** A [Fraction] in lowest terms, as the constructor stores it. *)
Definition normalised (n d : Z) : Fraction :=
  let g := Z.gcd n d in
  {| numerator := (n / g)%Z; denominator := (d / g)%Z |}.

Definition is_space (c : ascii) : bool :=
  let n := nat_of_ascii c in
  (n =? 32)%nat || ((9 <=? n)%nat && (n <=? 13)%nat).

Definition digit_of (c : ascii) : option Z :=
  let n := nat_of_ascii c in
  if ((48 <=? n)%nat && (n <=? 57)%nat) then Some (Z.of_nat (n - 48)) else None.

Fixpoint lstrip (cs : list ascii) : list ascii :=
  match cs with
  | c :: cs' => if is_space c then lstrip cs' else cs
  | [] => []
  end.

Definition strip (s : string) : list ascii :=
  rev (lstrip (rev (lstrip (list_ascii_of_string s)))).

(** The leading digits of [cs], most significant first, and the rest. *)
Fixpoint take_digits (cs : list ascii) : list Z * list ascii :=
  match cs with
  | c :: cs' =>
      match digit_of c with
      | Some d => let '(ds, rest) := take_digits cs' in (d :: ds, rest)
      | None => ([], cs)
      end
  | [] => ([], [])
  end.

Definition number_of (ds : list Z) : Z :=
  fold_left (fun acc d => (10 * acc + d)%Z) ds 0%Z.

Definition take_sign (cs : list ascii) : Z * list ascii :=
  match cs with
  | "-"%char :: cs' => ((-1)%Z, cs')
  | "+"%char :: cs' => (1%Z, cs')
  | _ => (1%Z, cs)
  end.

Definition is_nil {A} (l : list A) : bool :=
  match l with [] => true | _ => false end.

(** [int(s)] on decimal text *)
Definition int_decimal (s : string) : exn + Z :=
  let '(sign, cs) := take_sign (strip s) in
  let '(ds, rest) := take_digits cs in
  if negb (is_nil ds) && is_nil rest then inr (sign * number_of ds)%Z
  else inl (ValueError (MsgIntLiteral s)).

(** The mantissa and the number of fractional digits of decimal text
    [digits], [digits.digits], [digits.] or [.digits]. *)
Definition decimal_parts (s : string) : option (Z * nat) :=
  let '(sign, cs) := take_sign (strip s) in
  let '(ds, rest) := take_digits cs in
  match rest with
  | [] => if is_nil ds then None else Some ((sign * number_of ds)%Z, O)
  | "."%char :: rest' =>
      let '(fs, rest'') := take_digits rest' in
      if is_nil rest'' && negb (is_nil ds && is_nil fs)
      then Some ((sign * number_of (ds ++ fs))%Z, length fs)
      else None
  | _ => None
  end.

(** [float(s)] on decimal text *)
Definition float_decimal (s : string) : exn + R :=
  match decimal_parts s with
  | Some (mantissa, places) => inr (IZR mantissa / IZR (10 ^ Z.of_nat places))
  | None => inl (ValueError (MsgFloatLiteral s))
  end.

(** The numerator and denominator of text [digits/digits]. *)
Definition ratio_parts (s : string) : option (Z * Z) :=
  let '(sign, cs) := take_sign (strip s) in
  let '(ds, rest) := take_digits cs in
  match rest with
  | "/"%char :: rest' =>
      let '(es, rest'') := take_digits rest' in
      if negb (is_nil ds) && negb (is_nil es) && is_nil rest''
      then Some ((sign * number_of ds)%Z, number_of es)
      else None
  | _ => None
  end.

(** [Fraction(s)] on decimal text and on [a/b] *)
Definition Fraction_decimal (s : string) : exn + Fraction :=
  match ratio_parts s with
  | Some (n, d) =>
      if (d =? 0)%Z then inl ZeroDivisionError else inr (normalised n d)
  | None =>
      match decimal_parts s with
      | Some (mantissa, places) =>
          inr (normalised mantissa (10 ^ Z.of_nat places))
      | None => inl (ValueError (MsgFractionLiteral s))
      end
  end.

(** ** ui/util.py and ui/simulator_ui.py *)

(** The dictionary [get_configuration] returns for one interval of the
    form. *)
Record config : Type := MkConfig {
  cfg_start : string;
  cfg_end : string;
  cfg_model : string;
  cfg_params : gmap string string
}.

(** [self.simulation_results] after a successful run. *)
Record GlobalSeries : Type := MkSeries {
  Day : list Z;
  Open : list R;
  Close : list R;
  High : list R;
  Low : list R
}.

(** The local variables of [run_simulation] that its main loop changes. *)
Record chain_state : Type := MkChain {
  overall : GlobalSeries;
  last_price : option R;
  current_offset : Z
}.

(** How a part of [run_simulation] ends: with [messagebox.showerror] and
    [return], with an exception nothing catches, or normally. *)
Inductive run (A : Type) : Type :=
  | ShowError (title : string) (msg : message)
  | Uncaught (e : exn)
  | Completed (a : A).
Arguments ShowError {A} title msg.
Arguments Uncaught {A} e.
Arguments Completed {A} a.

(** A conversion of a text in the [try] block of the main loop:
    [int(text)], [float(text)] or [parse_float(text)]. *)
Inductive read : Type :=
  | ReadInt (text : string)
  | ReadFloat (text : string)
  | ReadParse (text : string).

(** What the [try] block of the main loop yields for one interval when no
    exception escapes it. *)
Inductive attempt : Type :=
  | Abort (title : string) (msg : message)
  | Simulated (T : Z) (path : PricePath).

Definition lift {A} (r : exn + A) : M A :=
  match r with
  | inl e => raise e
  | inr a => ret a
  end.

(** [params.get(key, default)] *)
Definition py_get (params : gmap string string) (key dflt : string) : string :=
  default dflt (params !! key).

(** Stable insertion by key: the list the stable [list.sort(key=...)]
    produces. *)
Fixpoint insert_by_key (x : Z * config) (l : list (Z * config))
    : list (Z * config) :=
  match l with
  | [] => [x]
  | y :: l' => if (fst x <=? fst y)%Z then x :: l else y :: insert_by_key x l'
  end.

Definition sort_by_key (l : list (Z * config)) : list (Z * config) :=
  foldr insert_by_key [] l.

Definition empty_series : GlobalSeries :=
  {| Day := []; Open := []; Close := []; High := []; Low := [] |}.

Definition initial_chain : chain_state :=
  {| overall := empty_series; last_price := None; current_offset := 0%Z |}.

(** Python's [int], [float] and [Fraction] applied to a string: the value
    they return or the exception they raise. *)
Class Builtins : Type := MkBuiltins {
  py_int : string -> exn + Z;
  py_float : string -> exn + R;
  py_Fraction : string -> exn + Fraction
}.

(** The models of the three on decimal text. *)
Definition decimal_builtins : Builtins :=
  {| py_int := int_decimal;
     py_float := float_decimal;
     py_Fraction := Fraction_decimal |}.

Section Chainer.

Context {B : Builtins}.

(** [float(Fraction(value_str))]: the value of the two calls or the
    exception of the one that raises. *)
Definition float_of_Fraction_text (value_str : string) : exn + R :=
  match py_Fraction value_str with
  | inr q => float_of_Fraction q
  | inl e => inl e
  end.

(** [parse_float] of ui/util.py *)
Definition parse_float (value_str : string) : M R :=
  match float_of_Fraction_text value_str with
  | inr x => ret x
  | inl (ValueError _) | inl ZeroDivisionError =>
      match py_float value_str with
      | inr x => ret x
      | inl (ValueError _) => raise (ValueError (MsgInvalidFormat value_str))
      | inl e => raise e
      end
  | inl e => raise e
  end.

(** Step 1 of [run_simulation]: collect and validate the intervals;
    [idx] is the 1-based position of the head of [cfgs]. *)
Fixpoint collect_intervals (idx : nat) (cfgs : list config)
    : run (list config) :=
  match cfgs with
  | [] => Completed []
  | cfg :: rest =>
      match py_int (cfg_start cfg) with
      | inl (ValueError m) => ShowError "Error" m
      | inl e => Uncaught e
      | inr start_day =>
          match py_int (cfg_end cfg) with
          | inl (ValueError m) => ShowError "Error" m
          | inl e => Uncaught e
          | inr end_day =>
              if (start_day >=? end_day)%Z
              then ShowError "Error" (MsgStartBeforeEnd idx)
              else match collect_intervals (S idx) rest with
                   | Completed interval_configs =>
                       Completed (cfg :: interval_configs)
                   | ShowError title m => ShowError title m
                   | Uncaught e => Uncaught e
                   end
          end
      end
  end.

(** The keys [int(c["start"])] of the sort, computed before the list is
    reordered. *)
Fixpoint decorate (cfgs : list config) : run (list (Z * config)) :=
  match cfgs with
  | [] => Completed []
  | c :: rest =>
      match py_int (cfg_start c) with
      | inl e => Uncaught e
      | inr key =>
          match decorate rest with
          | Completed l => Completed ((key, c) :: l)
          | ShowError title m => ShowError title m
          | Uncaught e => Uncaught e
          end
      end
  end.

(** Step 2: [interval_configs.sort(key=lambda c: int(c["start"]))] *)
Definition sort_by_start (cfgs : list config) : run (list config) :=
  match decorate cfgs with
  | Completed l => Completed (map snd (sort_by_key l))
  | ShowError title m => ShowError title m
  | Uncaught e => Uncaught e
  end.

(** [last_price if last_price is not None else float(params.get(...))] *)
Definition initial_price (params : gmap string string)
    (last : option R) : M R :=
  match last with
  | Some p => ret p
  | None => lift (py_float (py_get params "Initial Stock Price (S0)" "100"))
  end.

(** [parse_float(params.get(key, dflt)) if key in params else None] *)
Definition optional_float (params : gmap string string)
    (key dflt : string) : M (option R) :=
  match params !! key with
  | Some _ => x <- parse_float (py_get params key dflt) ;; ret (Some x)
  | None => ret None
  end.

(** The [try] block of the main loop for the interval [icfg], the
    [i]-th in sorted order. *)
Definition run_interval (i : nat) (icfg : config) (last : option R)
    : M attempt :=
  let model := cfg_model icfg in
  let params := cfg_params icfg in
  start_day <- lift (py_int (cfg_start icfg)) ;;
  end_day <- lift (py_int (cfg_end icfg)) ;;
  let T := (end_day - start_day)%Z in
  if (T <=? 0)%Z then ret (Abort "Interval Error" (MsgInvalidLength i))
  else
    dt <- parse_float (py_get params "Time Step (dt)" "1/365") ;;
    if decide (model = "Geometric Brownian Motion (GBM)") then
      S0 <- initial_price params last ;;
      mu <- parse_float (py_get params "Drift (mu)" "0.15") ;;
      sigma <- parse_float (py_get params "Volatility (sigma)" "0.05") ;;
      path <- Gbm.generate_gbm_prices T dt S0 mu sigma 4 None ;;
      ret (Simulated T path)
    else if decide (model = "Stochastic Volatility Model (Heston)") then
      S0 <- initial_price params last ;;
      v0 <- parse_float (py_get params "Initial Variance (v0)" "0.04") ;;
      kappa <- parse_float (py_get params "Mean Reversion Speed (kappa)" "3.0") ;;
      theta <- parse_float (py_get params "Long-term Mean Var (theta)" "0.04") ;;
      sigma_v <- parse_float (py_get params "Vol of Vol (sigma)" "0.6") ;;
      rho <- parse_float (py_get params "Correlation (rho)" "-0.7") ;;
      mu <- parse_float (py_get params "Base Drift (mu)" "0.05") ;;
      bubble_start <- lift (py_int (py_get params "Bubble Start" "0")) ;;
      bubble_end <- lift (py_int (py_get params "Bubble End" "0")) ;;
      bubble_mu_extra <-
        optional_float params "Bubble Extra Drift (Δmu)" "0.15" ;;
      crash_day <- match params !! "Crash Day" with
                   | Some text => lift (py_int text)
                   | None => ret bubble_end
                   end ;;
      crash_factor <- optional_float params "Crash Factor" "0.70" ;;
      path <- Svm.generate_svm_prices T dt S0 v0 kappa theta sigma_v rho mu
                {| Svm.bubble_start := Some bubble_start;
                   Svm.bubble_end := Some bubble_end;
                   Svm.bubble_mu_extra := bubble_mu_extra;
                   Svm.crash_day := Some (PyInt crash_day);
                   Svm.crash_factor := crash_factor |}
                4 None ;;
      ret (Simulated T path)
    else ret (Abort "Model Error" (MsgUnknownModel i model)).

(** The statements of the main loop after the [try] block. *)
Definition append_path (acc : chain_state) (T : Z) (path : PricePath)
    : M chain_state :=
  let days' := map (fun d => (d + current_offset acc)%Z) (days path) in
  last <- np_get (close_prices path) (-1) ;;
  ret {| overall :=
           {| Day := Day (overall acc) ++ days';
              Open := Open (overall acc) ++ open_prices path;
              Close := Close (overall acc) ++ close_prices path;
              High := High (overall acc) ++ high_prices path;
              Low := Low (overall acc) ++ low_prices path |};
         last_price := Some last;
         current_offset := (current_offset acc + T)%Z |}.

(** Step 3: [for i, icfg in enumerate(interval_configs, start=1)] *)
Fixpoint simulate_intervals (i : nat) (icfgs : list config)
    (acc : chain_state) (g : rng) : rng * run chain_state :=
  match icfgs with
  | [] => (g, Completed acc)
  | icfg :: rest =>
      match run_interval i icfg (last_price acc) g with
      | Raise (ValueError e) g' =>
          (g', ShowError "Parameter Error" (MsgInterval i e))
      | Raise e g' => (g', Uncaught e)
      | Ok (Abort title m) g' => (g', ShowError title m)
      | Ok (Simulated T path) g' =>
          match append_path acc T path g' with
          | Ok acc' g'' => simulate_intervals (S i) rest acc' g''
          | Raise e g'' => (g'', Uncaught e)
          end
      end
  end.

(** [run_simulation]: the random source it leaves and how it ends;
    [Completed series] stands for the assignment of [series] to
    [self.simulation_results] followed by the plot. *)
Definition run_simulation (cfgs : list config) (g : rng)
    : rng * run GlobalSeries :=
  match collect_intervals 1 cfgs with
  | ShowError title m => (g, ShowError title m)
  | Uncaught e => (g, Uncaught e)
  | Completed interval_configs =>
      match sort_by_start interval_configs with
      | ShowError title m => (g, ShowError title m)
      | Uncaught e => (g, Uncaught e)
      | Completed sorted =>
          match simulate_intervals 1 sorted initial_chain g with
          | (g', Completed acc) => (g', Completed (overall acc))
          | (g', ShowError title m) => (g', ShowError title m)
          | (g', Uncaught e) => (g', Uncaught e)
          end
      end
  end.

(** *** What a valid interval is

    The predicates below describe the configurations on which no parse
    fails; they are used to state the properties of the chain. *)

Definition parses_float (text : string) : Prop :=
  exists x, forall g, parse_float text g = Ok x g.

Definition parses_int (text : string) : Prop :=
  exists z, py_int text = inr z.

Definition parses_plain_float (text : string) : Prop :=
  exists x, py_float text = inr x.

(** [parse_float(params.get(key, dflt)) if key in params else None]
    raises nothing. *)
Definition parses_optional (params : gmap string string) (key : string)
    : Prop :=
  match params !! key with
  | Some text => parses_float text
  | None => True
  end.

Definition valid_gbm_params (params : gmap string string) : Prop :=
  parses_plain_float (py_get params "Initial Stock Price (S0)" "100")
  /\ parses_float (py_get params "Drift (mu)" "0.15")
  /\ parses_float (py_get params "Volatility (sigma)" "0.05").

Definition valid_svm_params (params : gmap string string) : Prop :=
  parses_plain_float (py_get params "Initial Stock Price (S0)" "100")
  /\ parses_float (py_get params "Initial Variance (v0)" "0.04")
  /\ parses_float (py_get params "Mean Reversion Speed (kappa)" "3.0")
  /\ parses_float (py_get params "Long-term Mean Var (theta)" "0.04")
  /\ parses_float (py_get params "Vol of Vol (sigma)" "0.6")
  /\ parses_float (py_get params "Correlation (rho)" "-0.7")
  /\ parses_float (py_get params "Base Drift (mu)" "0.05")
  /\ parses_int (py_get params "Bubble Start" "0")
  /\ parses_int (py_get params "Bubble End" "0")
  /\ parses_optional params "Bubble Extra Drift (Δmu)"
  /\ match params !! "Crash Day" with
     | Some text => parses_int text
     | None => True
     end
  /\ parses_optional params "Crash Factor".

(** The interval has integer days with [start < end], a known model and
    parameters that all parse. *)
Definition valid_config (c : config) : Prop :=
  (exists start_day end_day,
      py_int (cfg_start c) = inr start_day
      /\ py_int (cfg_end c) = inr end_day
      /\ (start_day < end_day)%Z)
  /\ parses_float (py_get (cfg_params c) "Time Step (dt)" "1/365")
  /\ ((cfg_model c = "Geometric Brownian Motion (GBM)"
       /\ valid_gbm_params (cfg_params c))
      \/ (cfg_model c = "Stochastic Volatility Model (Heston)"
          /\ valid_svm_params (cfg_params c))).

(** [T = end_day - start_day] of an interval with integer days. *)
Definition interval_length (c : config) : Z :=
  match py_int (cfg_start c), py_int (cfg_end c) with
  | inr start_day, inr end_day => (end_day - start_day)%Z
  | _, _ => 0%Z
  end.

(** The sum of the lengths [T] of a list of intervals. *)
Definition total_days (cfgs : list config) : Z :=
  foldr (fun c acc => (interval_length c + acc)%Z) 0%Z cfgs.

(** The interval has integer days. *)
Definition integer_days (c : config) : Prop :=
  exists start_day end_day,
    py_int (cfg_start c) = inr start_day /\ py_int (cfg_end c) = inr end_day.

(** The interval has integer days with [end_day <= start_day]. *)
Definition misordered (c : config) : Prop :=
  exists start_day end_day,
    py_int (cfg_start c) = inr start_day /\ py_int (cfg_end c) = inr end_day
    /\ (end_day <= start_day)%Z.

(** The interval passes step 1 of [run_simulation]. *)
Definition well_ordered (c : config) : Prop :=
  exists start_day end_day,
    py_int (cfg_start c) = inr start_day /\ py_int (cfg_end c) = inr end_day
    /\ (start_day < end_day)%Z.

(** *** The parameters the [try] block reads

    The conversions of the [try] block for the interval [icfg] after
    those of its two days, in the order of the code, up to the call of
    the generator; [last] is [last_price], which replaces the initial
    price of the form when there is one. *)
Definition reads_of (icfg : config) (last : option R) : list read :=
  let params := cfg_params icfg in
  let initial :=
    match last with
    | Some _ => []
    | None => [ReadFloat (py_get params "Initial Stock Price (S0)" "100")]
    end in
  let optional (key dflt : string) :=
    match params !! key with
    | Some _ => [ReadParse (py_get params key dflt)]
    | None => []
    end in
  ReadParse (py_get params "Time Step (dt)" "1/365")
  :: if decide (cfg_model icfg = "Geometric Brownian Motion (GBM)") then
       initial
       ++ [ReadParse (py_get params "Drift (mu)" "0.15");
           ReadParse (py_get params "Volatility (sigma)" "0.05")]
     else if decide (cfg_model icfg = "Stochastic Volatility Model (Heston)")
     then
       initial
       ++ [ReadParse (py_get params "Initial Variance (v0)" "0.04");
           ReadParse (py_get params "Mean Reversion Speed (kappa)" "3.0");
           ReadParse (py_get params "Long-term Mean Var (theta)" "0.04");
           ReadParse (py_get params "Vol of Vol (sigma)" "0.6");
           ReadParse (py_get params "Correlation (rho)" "-0.7");
           ReadParse (py_get params "Base Drift (mu)" "0.05");
           ReadInt (py_get params "Bubble Start" "0");
           ReadInt (py_get params "Bubble End" "0")]
       ++ optional "Bubble Extra Drift (Δmu)" "0.15"
       ++ match params !! "Crash Day" with
          | Some text => [ReadInt text]
          | None => []
          end
       ++ optional "Crash Factor" "0.70"
     else [].

(** The conversion returns a value. *)
Definition read_parses (r : read) : Prop :=
  match r with
  | ReadInt text => parses_int text
  | ReadFloat text => parses_plain_float text
  | ReadParse text => parses_float text
  end.

(** The conversion raises [e]. *)
Definition read_raises (r : read) (e : exn) : Prop :=
  match r with
  | ReadInt text => py_int text = inl e
  | ReadFloat text => py_float text = inl e
  | ReadParse text => forall g, parse_float text g = Raise e g
  end.

End Chainer.

(** [self.simulation_results] after a run that ended as [r], when it held
    [old] before ([None] is the empty dictionary of [__init__]). *)
Definition simulation_results_after (old : option GlobalSeries)
    (r : run GlobalSeries) : option GlobalSeries :=
  match r with
  | Completed series => Some series
  | _ => old
  end.

(** ** The price recurrences the loops compute *)

Definition Rmax_list (l : list R) : R :=
  match l with [] => 0 | x :: xs => fold_left Rmax xs x end.

Definition Rmin_list (l : list R) : R :=
  match l with [] => 0 | x :: xs => fold_left Rmin xs x end.

(** An array of [n + 1] cells of which the cells [0..k] hold [f 0 .. f k]
    and the others still hold the zero of [np.zeros]. *)
Definition written (f : nat -> R) (n k : nat) : list R :=
  map f (seq 0 (k + 1)) ++ replicate (n - k) 0.

(** The sub-step values of day [d] (0-based) after [r] of its [m]
    sub-steps. *)
Definition day_slice (f : nat -> R) (m d r : nat) : list R :=
  map f (seq (d * m + 1) r).

Definition day_opens (f : nat -> R) (m q : nat) : list R :=
  map (fun d => f (d * m)%nat) (seq 0 q).
Definition day_closes (f : nat -> R) (m q : nat) : list R :=
  map (fun d => f (d * m + m)%nat) (seq 0 q).
Definition day_highs (f : nat -> R) (m q : nat) : list R :=
  map (fun d => Rmax_list (day_slice f m d m)) (seq 0 q).
Definition day_lows (f : nat -> R) (m q : nat) : list R :=
  map (fun d => Rmin_list (day_slice f m d m)) (seq 0 q).

(** [S[k]] of the GBM loop, for the draws [z 0, z 1, ...]. *)
Fixpoint gbm_path (S0 mu sigma dt_intra : R) (z : nat -> R) (k : nat) : R :=
  match k with
  | O => S0
  | S k' => gbm_path S0 mu sigma dt_intra z k'
            * exp ((mu - 0.5 * sigma ^ 2) * dt_intra
                   + sigma * sqrt dt_intra * z k')
  end.

(** The state of the GBM loop after [q] whole days and [r] further
    sub-steps. *)
Definition gbm_state_at (f : nat -> R) (m n q r : nat) : Gbm.state :=
  {| Gbm.arr_S := written f n (q * m + r);
     Gbm.day_prices := day_slice f m q r;
     Gbm.opens := day_opens f m q;
     Gbm.closes := day_closes f m q;
     Gbm.highs := day_highs f m q;
     Gbm.lows := day_lows f m q |}.

(** [v[k]] of the SV loop, for the correlated draws [z2 0, z2 1, ...]. *)
Fixpoint svm_var (v0 kappa theta sigma_v dt_intra : R) (z2 : nat -> R)
    (k : nat) : R :=
  match k with
  | O => v0
  | S k' =>
      let vt := svm_var v0 kappa theta sigma_v dt_intra z2 k' in
      let v_new := vt + kappa * (theta - vt) * dt_intra
                   + sigma_v * sqrt (Rmax vt 0 * dt_intra) * z2 k' in
      if Rlt_dec v_new 0 then 0 else v_new
  end.

(** The factor the crash block applies at sub-step [t] (0-based): the
    crash factor when both crash arguments are given and [t + 1] is
    [crash_day * steps_per_day], and 1 otherwise. *)
Definition crash_multiplier (ev : Svm.events) (steps_per_day t : Z) : R :=
  match Svm.crash_day ev, Svm.crash_factor ev with
  | Some c_day, Some c_factor =>
      if int_equals (t + 1) (number_times_int c_day steps_per_day)
      then c_factor else 1
  | _, _ => 1
  end.

(** The value [v[t + 1]] holds after the update and the floor under it. *)
Definition svm_var_next (kappa theta sigma_v dt_intra vt z2 : R) : R :=
  let v_new := vt + kappa * (theta - vt) * dt_intra
               + sigma_v * sqrt (Rmax vt 0 * dt_intra) * z2 in
  if Rlt_dec v_new 0 then 0 else v_new.

(** The value the line [S[t + 1] = S[t] * np.exp(...)] stores. *)
Definition svm_diffuse (mu : R) (ev : Svm.events) (dt_intra : R)
    (steps_per_day : Z) (t : Z) (St vt z1 : R) : R :=
  St * exp ((Svm.drift_today mu ev (t / steps_per_day + 1) - 0.5 * vt) * dt_intra
            + sqrt (Rmax vt 0 * dt_intra) * z1).

(** [S[k]] of the SV loop at the end of its iteration. *)
Fixpoint svm_path (S0 mu : R) (ev : Svm.events) (dt_intra : R)
    (steps_per_day : Z) (var z1 : nat -> R) (k : nat) : R :=
  match k with
  | O => S0
  | S k' =>
      svm_diffuse mu ev dt_intra steps_per_day (Z.of_nat k')
        (svm_path S0 mu ev dt_intra steps_per_day var z1 k') (var k') (z1 k')
      * crash_multiplier ev steps_per_day (Z.of_nat k')
  end.

(** The state of the SV loop after [q] whole days and [r] further
    sub-steps. *)
Definition svm_state_at (f var : nat -> R) (m n q r : nat) : Svm.state :=
  {| Svm.arr_S := written f n (q * m + r);
     Svm.arr_v := written var n (q * m + r);
     Svm.day_prices := day_slice f m q r;
     Svm.opens := day_opens f m q;
     Svm.closes := day_closes f m q;
     Svm.highs := day_highs f m q;
     Svm.lows := day_lows f m q |}.

(** The draws [np.random.normal(0, 1, n)] takes from the source [g]. *)
Definition draws (g : rng) (k : nat) : R := stream g (pos g + k)%nat.

(** The source after the optional [np.random.seed]. *)
Definition after_seed (seed : option Z) (g : rng) : rng :=
  match seed with Some s => reseed s g | None => g end.

(** The correlated draw [Z2[k]] when both vectors of [n] draws are taken
    from the source [g0]. *)
Definition svm_z2 (rho : R) (n : nat) (g0 : rng) (k : nat) : R :=
  rho * draws g0 k + sqrt (1 - rho ^ 2) * draws (advance n g0) k.

(** The cells [S[d*m + 1], ..., S[d*m + m]] of the price array: the
    sub-step values of day [d] (0-based) at [m] sub-steps a day. *)
Definition day_values (S : list R) (m d : nat) : list R :=
  take m (drop (d * m + 1) S).

(** The optional arguments with [crash_day=None]. *)
Definition without_crash (ev : Svm.events) : Svm.events :=
  {| Svm.bubble_start := Svm.bubble_start ev;
     Svm.bubble_end := Svm.bubble_end ev;
     Svm.bubble_mu_extra := Svm.bubble_mu_extra ev;
     Svm.crash_day := None;
     Svm.crash_factor := Svm.crash_factor ev |}.

(** In the path [p] the first open is [S0] and every later open is the
    close of the day before. *)
Definition opens_follow_closes (S0 : R) (p : PricePath) : Prop :=
  (forall o, open_prices p !! O = Some o -> o = S0)
  /\ (forall d o, open_prices p !! S d = Some o -> close_prices p !! d = Some o).

(** The computation [c] neither draws from the random source nor reseeds
    it, whether it returns or raises. *)
Definition keeps_rng {A} (c : M A) : Prop :=
  forall g, (exists a, c g = Ok a g) \/ (exists e, c g = Raise e g).

(** Whenever [c] raises, the random source is as [c] found it. *)
Definition raises_before_draw {A} (c : M A) : Prop :=
  forall g e g', c g = Raise e g' -> g' = g.

(** The chain built so far is continuous: its closes are its opens moved
    by one day, followed by [last_price]. *)
Definition chained (acc : chain_state) : Prop :=
  match last_price acc with
  | None => Open (overall acc) = [] /\ Close (overall acc) = []
  | Some p =>
      exists first rest,
        Open (overall acc) = first :: rest
        /\ Close (overall acc) = rest ++ [p]
  end.

(** ** Sample inputs *)

(** A random source that always draws 0. *)
Definition zero_rng : rng :=
  {| stream := fun _ => 0; pos := O; seeded := fun _ _ => 0 |}.

Definition no_events : Svm.events :=
  {| Svm.bubble_start := None; Svm.bubble_end := None;
     Svm.bubble_mu_extra := None;
     Svm.crash_day := None; Svm.crash_factor := None |}.

(** Bubble on days 10 to 20 with extra drift 0.1, crash to 70% on day 15. *)
Definition sample_events : Svm.events :=
  {| Svm.bubble_start := Some 10%Z; Svm.bubble_end := Some 20%Z;
     Svm.bubble_mu_extra := Some 0.1;
     Svm.crash_day := Some (PyInt 15); Svm.crash_factor := Some 0.7 |}.

(** A crash to 70% on the "day" 15.1, which is no whole day and at four
    sub-steps a day no sub-step either. *)
Definition misaligned_events : Svm.events :=
  {| Svm.bubble_start := None; Svm.bubble_end := None;
     Svm.bubble_mu_extra := None;
     Svm.crash_day := Some (PyFloat 15.1); Svm.crash_factor := Some 0.7 |}.

(** The GBM interval of the form with its default parameters, over the
    days [start_day] to [end_day]. *)
Definition gbm_interval (start_day end_day dt : string) : config :=
  {| cfg_start := start_day; cfg_end := end_day;
     cfg_model := "Geometric Brownian Motion (GBM)";
     cfg_params :=
       list_to_map
         [ ("Initial Price Connected to Previous Ending Price", "true");
           ("Time Step (dt)", dt);
           ("Initial Stock Price (S0)", "100");
           ("Drift (mu)", "0.15");
           ("Volatility (sigma)", "0.05") ] |}.

(** The configuration [c] with the text [text] under the parameter
    [key]. *)
Definition with_param (key text : string) (c : config) : config :=
  {| cfg_start := cfg_start c; cfg_end := cfg_end c; cfg_model := cfg_model c;
     cfg_params := <[key := text]> (cfg_params c) |}.

(** The decimal literal of [10 ** 400]: a 1 and 400 zeros. *)
Definition huge_literal : string :=
  String "1" (string_of_list_ascii (replicate 400 "0"%char)).

(** The SV interval of the form with its default parameters. *)
Definition svm_interval (start_day end_day : string) : config :=
  {| cfg_start := start_day; cfg_end := end_day;
     cfg_model := "Stochastic Volatility Model (Heston)";
     cfg_params :=
       list_to_map
         [ ("Initial Price Connected to Previous Ending Price", "true");
           ("Time Step (dt)", "1/265");
           ("Initial Stock Price (S0)", "100");
           ("Initial Variance (v0)", "0.04");
           ("Mean Reversion Speed (kappa)", "3.0");
           ("Long-term Mean Var (theta)", "0.04");
           ("Vol of Vol (sigma)", "0.6");
           ("Correlation (rho)", "-0.7");
           ("Base Drift (mu)", "0.05");
           ("Bubble Extra Drift (Δmu)", "0.15");
           ("Bubble Start", "100");
           ("Bubble End", "150");
           ("Crash Day", "140");
           ("Crash Factor", "0.70") ] |}.

(** ** models/ex.py

    The script simulates one path of the SV model a day at a time.  Its
    constants are the arguments of [simulate] below; [script] applies them.
    The plot at its end is not modelled. *)

Module Ex.

(** The body of [for t in range(T)], on the arrays [S] and [v]. *)
Definition step (dt mu bubble_mu_extra kappa theta sigma : R)
    (bubble_end crash_day : Z) (crash_factor : R) (Z1 Z2 : list R) (t : Z)
    (st : list R * list R) : M (list R * list R) :=
  let S := fst st in
  let v := snd st in
  let drift_today :=
    if (t <? bubble_end)%Z then mu + bubble_mu_extra else mu in
  vt <- np_get v t ;;
  z2 <- np_get Z2 t ;;
  v1 <- np_set v (t + 1)
          (vt + kappa * (theta - vt) * dt
           + sigma * sqrt (Rmax vt 0 * dt) * z2) ;;
  v_new <- np_get v1 (t + 1) ;;
  v2 <- (if Rlt_dec v_new 0 then np_set v1 (t + 1) 0 else ret v1) ;;
  St <- np_get S t ;;
  vt' <- np_get v2 t ;;
  z1 <- np_get Z1 t ;;
  S1 <- np_set S (t + 1)
          (St * exp ((drift_today - 0.5 * vt') * dt
                     + sqrt (Rmax vt' 0 * dt) * z1)) ;;
  if (t + 1 =? crash_day)%Z then
    cur <- np_get S1 (t + 1) ;;
    S2 <- np_set S1 (t + 1) (cur * crash_factor) ;;
    ret (S2, v2)
  else ret (S1, v2).

(** Sections 2 and 3 of the script: the arrays [S] and [v] it plots. *)
Definition simulate (T : Z) (dt S0 v0 mu bubble_mu_extra kappa theta sigma
    rho : R) (bubble_end crash_day : Z) (crash_factor : R)
    : M (list R * list R) :=
  S <- np_zeros (T + 1) ;;
  v <- np_zeros (T + 1) ;;
  S <- np_set S 0 S0 ;;
  v <- np_set v 0 v0 ;;
  eps1 <- np_random_normal_n T ;;
  eps2 <- np_random_normal_n T ;;
  let Z1 := eps1 in
  let Z2 := Svm.correlate rho eps1 eps2 in
  for_each (step dt mu bubble_mu_extra kappa theta sigma bubble_end crash_day
              crash_factor Z1 Z2)
    (py_range 0 T) (S, v).

(** The script with its constants; [bubble_start = 200] is assigned in the
    script and read nowhere. *)
Definition script : M (list R * list R) :=
  let T := 265%Z in
  let bubble_end := 250%Z in
  let crash_day := bubble_end in
  simulate T (1 / 265) 100 0.04 0.05 0.15 3 0.04 0.6 (-0.7) bubble_end
    crash_day 0.7.

End Ex.

(** The event arguments of [generate_svm_prices] that make it act as the
    script does: the bubble from day 1. *)
Definition ex_events (bubble_mu_extra : R) (bubble_end crash_day : Z)
    (crash_factor : R) : Svm.events :=
  {| Svm.bubble_start := Some 1%Z; Svm.bubble_end := Some bubble_end;
     Svm.bubble_mu_extra := Some bubble_mu_extra;
     Svm.crash_day := Some (PyInt crash_day);
     Svm.crash_factor := Some crash_factor |}.

(** ** ui/interval_ui.py

    A [ModelInterval] is modelled by what the code reads back from it: its
    label number and the texts of its widgets.  The layout of the widgets
    is not modelled. *)

(** [str(n)] of an int *)
Definition py_str (n : Z) : string := NilZero.string_of_int (Z.to_int n).

(** [s.strip()], on the blanks of ASCII *)
Definition py_strip (s : string) : string := string_of_list_ascii (strip s).

Module IntervalUi.

Record ModelInterval : Type := MkInterval {
  interval_number : nat;
  start_day : string;
  end_day : string;
  model_var : string;
  param_entries : gmap string string
}.

(** The class attribute [MODEL_PARAMS]. *)
Definition MODEL_PARAMS : gmap string (gmap string string) :=
  list_to_map
    [ ("Geometric Brownian Motion (GBM)",
       list_to_map
         [ ("Initial Price Connected to Previous Ending Price", "true");
           ("Time Step (dt)", "0.01");
           ("Initial Stock Price (S0)", "100");
           ("Drift (mu)", "0.15");
           ("Volatility (sigma)", "0.05") ]);
      ("Stochastic Volatility Model (Heston)",
       list_to_map
         [ ("Initial Price Connected to Previous Ending Price", "true");
           ("Time Step (dt)", "1/265");
           ("Initial Stock Price (S0)", "100");
           ("Initial Variance (v0)", "0.04");
           ("Mean Reversion Speed (kappa)", "3.0");
           ("Long-term Mean Var (theta)", "0.04");
           ("Vol of Vol (sigma)", "0.6");
           ("Correlation (rho)", "-0.7");
           ("Base Drift (mu)", "0.05");
           ("Bubble Extra Drift (Δmu)", "0.15");
           ("Bubble Start", "100");
           ("Bubble End", "150");
           ("Crash Day", "140");
           ("Crash Factor", "0.70") ]) ].

(** [_create_param_widgets]: the entries of the model, holding its
    defaults. *)
Definition create_param_widgets (model_name : string) : gmap string string :=
  default ∅ (MODEL_PARAMS !! model_name).

(** [_relabel_intervals] *)
Definition relabel_intervals (model_intervals : list ModelInterval)
    : list ModelInterval :=
  imap (fun idx interval_obj =>
          {| interval_number := S idx;
             start_day := start_day interval_obj;
             end_day := end_day interval_obj;
             model_var := model_var interval_obj;
             param_entries := param_entries interval_obj |})
    model_intervals.

(** [_remove_interval] of the interval at position [k] of the list (its
    "Remove" button exists while it is in the list). *)
Definition remove_interval (k : nat) (model_intervals : list ModelInterval)
    : list ModelInterval :=
  relabel_intervals (delete k model_intervals).

(** [_on_model_change], called by the option menu after it has set
    [model_var] to the selected model. *)
Definition on_model_change (selected_model : string)
    (interval_obj : ModelInterval) : ModelInterval :=
  {| interval_number := interval_number interval_obj;
     start_day := start_day interval_obj;
     end_day := end_day interval_obj;
     model_var := selected_model;
     param_entries := create_param_widgets selected_model |}.

(** [get_configuration] *)
Definition get_configuration (interval_obj : ModelInterval) : config :=
  {| cfg_start := py_strip (start_day interval_obj);
     cfg_end := py_strip (end_day interval_obj);
     cfg_model := model_var interval_obj;
     cfg_params := py_strip <$> param_entries interval_obj |}.

(** The model of the interval is one of the menu and its entries are the
    parameters of that model. *)
Definition shows_its_model (interval_obj : ModelInterval) : Prop :=
  is_Some (MODEL_PARAMS !! model_var interval_obj)
  /\ forall key,
       is_Some (param_entries interval_obj !! key)
       <-> is_Some (create_param_widgets (model_var interval_obj) !! key).

Section WithBuiltins.

Context {B : Builtins}.

(** [_get_last_interval_end] *)
Definition get_last_interval_end (model_intervals : list ModelInterval)
    : exn + Z :=
  match last model_intervals with
  | None => inr 0%Z
  | Some last_interval =>
      match py_int (end_day last_interval) with
      | inr last_end => inr last_end
      | inl (ValueError _) => inr 0%Z
      | inl e => inl e
      end
  end.

(** [ModelInterval.__init__], for the list of intervals of the parent. *)
Definition init (model_intervals : list ModelInterval)
    (number : nat) : exn + ModelInterval :=
  let model := "Geometric Brownian Motion (GBM)" in
  if (number =? 1)%nat then
    inr {| interval_number := number;
           start_day := "1"; end_day := "100";
           model_var := model;
           param_entries := create_param_widgets model |}
  else
    match get_last_interval_end model_intervals with
    | inl e => inl e
    | inr last_end =>
        inr {| interval_number := number;
               start_day := py_str (last_end + 1); end_day := "365";
               model_var := model;
               param_entries := create_param_widgets model |}
    end.

(** [add_interval]: the list of intervals after it. *)
Definition add_interval (model_intervals : list ModelInterval)
    : exn + list ModelInterval :=
  let number := (length model_intervals + 1)%nat in
  match init model_intervals number with
  | inl e => inl e
  | inr interval_obj =>
      inr (relabel_intervals (model_intervals ++ [interval_obj]))
  end.

(** What the user does to one interval of the form: type into an entry
    or select a model of the menu, whose choices are the keys of
    [MODEL_PARAMS]. *)
Inductive edit : ModelInterval -> ModelInterval -> Prop :=
  | edit_start w text :
      edit w {| interval_number := interval_number w;
                start_day := text; end_day := end_day w;
                model_var := model_var w;
                param_entries := param_entries w |}
  | edit_end w text :
      edit w {| interval_number := interval_number w;
                start_day := start_day w; end_day := text;
                model_var := model_var w;
                param_entries := param_entries w |}
  | edit_param w key text :
      is_Some (param_entries w !! key) ->
      edit w {| interval_number := interval_number w;
                start_day := start_day w; end_day := end_day w;
                model_var := model_var w;
                param_entries := <[key := text]> (param_entries w) |}
  | edit_model w selected_model :
      is_Some (MODEL_PARAMS !! selected_model) ->
      edit w (on_model_change selected_model w).

(** The lists of intervals the form can hold: it starts empty
    ([StockSimulatorGUI.__init__], before [_create_ui] adds the first
    interval), and changes by "Add Interval", by the "Remove" button of
    an interval, and by the edits of the user. *)
Inductive reachable : list ModelInterval -> Prop :=
  | reach_empty : reachable []
  | reach_add l l' :
      reachable l -> add_interval l = inr l' -> reachable l'
  | reach_remove l k :
      reachable l -> (k < length l)%nat -> reachable (remove_interval k l)
  | reach_edit l k w w' :
      reachable l -> l !! k = Some w -> edit w w' ->
      reachable (<[k := w']> l).

End WithBuiltins.

End IntervalUi.

(** ** ui/simulator_ui.py: the state of the window and the export *)

(** The attributes of [StockSimulatorGUI] the code reads back;
    [simulation_results] is [None] for the empty dictionary. *)
Record StockSimulatorGUI : Type := MkGui {
  model_intervals : list IntervalUi.ModelInterval;
  simulation_results : option GlobalSeries
}.

(** [zip] of the five columns *)
Fixpoint zip5 (ds : list Z) (os cs hs ls : list R)
    : list (Z * R * R * R * R) :=
  match ds, os, cs, hs, ls with
  | d :: ds', o :: os', c :: cs', h :: hs', l :: ls' =>
      (d, o, c, h, l) :: zip5 ds' os' cs' hs' ls'
  | _, _, _, _, _ => []
  end.

(** How [export_simulation] ends.  The rows of the file are kept as
    values; the text [csv.writer] makes of a float is not modelled. *)
Inductive export_outcome : Type :=
  | ExportNoData
    (* showerror("Export Error", "No simulation data to export. Please run
       the simulation first.") *)
  | ExportCancelled
    (* the save dialog was cancelled *)
  | ExportFailed (e : string)
    (* showerror("Export Error", f"An error occurred while exporting: {e}") *)
  | ExportWritten (file_path : string) (header : list string)
      (rows : list (Z * R * R * R * R))
    (* the file is written;
       showinfo("Export Successful", f"Simulation results exported to
       {file_path}") *).

(** [export_simulation]; [file_path] is what the save dialog returns (the
    empty string when it is cancelled) and [os_error file_path] the text of
    the exception, if any, that opening and writing the file raises. *)
Definition export_simulation (results : option GlobalSeries)
    (file_path : string) (os_error : string -> option string)
    : export_outcome :=
  match results with
  | None => ExportNoData
  | Some series =>
      if decide (file_path = "") then ExportCancelled
      else
        match os_error file_path with
        | Some e => ExportFailed e
        | None =>
            ExportWritten file_path ["Day"; "Open"; "Close"; "High"; "Low"]
              (zip5 (Day series) (Open series) (Close series) (High series)
                 (Low series))
        end
  end.

Section Gui.

Context {B : Builtins}.

(** [StockSimulatorGUI.__init__] *)
Definition gui_init : exn + StockSimulatorGUI :=
  match IntervalUi.add_interval [] with
  | inl e => inl e
  | inr intervals =>
      inr {| model_intervals := intervals; simulation_results := None |}
  end.

(** The "Run Simulation" button: the random source and the window after
    it, and how [run_simulation] ended. *)
Definition press_run (gui : StockSimulatorGUI) (g : rng)
    : rng * StockSimulatorGUI * run GlobalSeries :=
  let cfgs := map IntervalUi.get_configuration (model_intervals gui) in
  let '(g', r) := run_simulation cfgs g in
  (g',
   {| model_intervals := model_intervals gui;
      simulation_results :=
        simulation_results_after (simulation_results gui) r |},
   r).

(** The "Export to CSV" button. *)
Definition press_export (gui : StockSimulatorGUI) (file_path : string)
    (os_error : string -> option string) : export_outcome :=
  export_simulation (simulation_results gui) file_path os_error.

End Gui.

(** ** Predicates of the further properties

    Events that fall outside the simulated days. *)

(** The bubble window of [ev] contains none of the days [1..T]. *)
Definition bubble_misses (T : Z) (ev : Svm.events) : Prop :=
  match Svm.bubble_start ev, Svm.bubble_end ev with
  | Some b_start, Some b_end => (b_end < b_start \/ b_end < 1 \/ T < b_start)%Z
  | _, _ => True
  end.

(** The crash day of [ev] is none of the days [1..T]: as an int it is
    below 1 or above [T], as a float at most 0 or above [T]. *)
Definition crash_misses (T : Z) (ev : Svm.events) : Prop :=
  match Svm.crash_day ev with
  | Some (PyInt c_day) => (c_day < 1 \/ T < c_day)%Z
  | Some (PyFloat x) => x <= 0 \/ IZR T < x
  | None => True
  end.

(** Predicates on the chainer. *)

(** Whenever [c] raises, it raises a [ValueError] or an
    [OverflowError]. *)
Definition raises_ValueError_or_OverflowError {A} (c : M A) : Prop :=
  forall g e g',
    c g = Raise e g' -> e = OverflowError \/ exists m, e = ValueError m.

(** The exceptions of the three constructors on a string, as Python
    documents them: [int] and [float] raise [ValueError] only, [Fraction]
    [ValueError] or [ZeroDivisionError]. *)
Definition raise_as_documented (B : Builtins) : Prop :=
  (forall s e, py_int s = inl e -> exists m, e = ValueError m)
  /\ (forall s e, py_float s = inl e -> exists m, e = ValueError m)
  /\ (forall s e, py_Fraction s = inl e ->
        e = ZeroDivisionError \/ exists m, e = ValueError m).

(** The rows of the chain: the five columns are equally long. *)
Definition columns_align (s : GlobalSeries) : Prop :=
  length (Day s) = length (Close s)
  /\ length (Open s) = length (Close s)
  /\ length (High s) = length (Close s)
  /\ length (Low s) = length (Close s).

(** Two ways a part of [run_simulation] ends are alike: the same error
    box, the same escaping exception, or results related by [R]. *)
Definition run_rel {A} (R : A -> A -> Prop) (r r' : run A) : Prop :=
  match r, r' with
  | Completed a, Completed a' => R a a'
  | ShowError title m, ShowError title' m' => title = title' /\ m = m'
  | Uncaught e, Uncaught e' => e = e'
  | _, _ => False
  end.

(** The keys of [params] that [run_simulation] reads, for either model. *)
Definition read_keys : list string :=
  [ "Time Step (dt)"; "Initial Stock Price (S0)"; "Drift (mu)";
    "Volatility (sigma)"; "Initial Variance (v0)";
    "Mean Reversion Speed (kappa)"; "Long-term Mean Var (theta)";
    "Vol of Vol (sigma)"; "Correlation (rho)"; "Base Drift (mu)";
    "Bubble Start"; "Bubble End"; "Bubble Extra Drift (Δmu)"; "Crash Day";
    "Crash Factor" ].

(** Two configurations with the same days, the same model and the same
    texts under the keys that are read; the initial price counts only when
    [with_S0] is set. *)
Definition reads_alike (with_S0 : bool) (c c' : config) : Prop :=
  cfg_start c = cfg_start c'
  /\ cfg_end c = cfg_end c'
  /\ cfg_model c = cfg_model c'
  /\ forall key, key ∈ read_keys ->
       (key = "Initial Stock Price (S0)" -> with_S0 = true) ->
       cfg_params c !! key = cfg_params c' !! key.

(** The configuration [c] with the entry "Initial Price Connected to
    Previous Ending Price" set to [text], or without it for [None]. *)
Definition with_connected_flag (text : option string) (c : config) : config :=
  {| cfg_start := cfg_start c; cfg_end := cfg_end c; cfg_model := cfg_model c;
     cfg_params :=
       partial_alter (fun _ => text)
         "Initial Price Connected to Previous Ending Price" (cfg_params c) |}.

Section ChainerCounts.

Context {B : Builtins}.

(** The draws the generator of the interval [c] takes: one for each of
    the 4 sub-steps of a day for the GBM, two for the SV model. *)
Definition interval_draws (c : config) : nat :=
  if decide (cfg_model c = "Geometric Brownian Motion (GBM)")
  then Z.to_nat (interval_length c * 4)
  else (2 * Z.to_nat (interval_length c * 4))%nat.

Definition total_draws (cfgs : list config) : nat :=
  foldr (fun c acc => (interval_draws c + acc)%nat) O cfgs.

(** The key [int(c["start"])] of the sort, 0 where the text is no
    integer. *)
Definition start_key (c : config) : Z :=
  match py_int (cfg_start c) with
  | inr start_day => start_day
  | inl _ => 0%Z
  end.

(** The first open of the chain is the initial price of the interval
    processed first. *)
Definition opens_at_first_S0 (l : list config) (acc : chain_state) : Prop :=
  match l with
  | [] => last_price acc = None /\ Open (overall acc) = []
  | c0 :: _ =>
      exists x,
        py_float (py_get (cfg_params c0) "Initial Stock Price (S0)" "100")
        = inr x
        /\ Open (overall acc) !! O = Some x
  end.

End ChainerCounts.

(** ** Further sample inputs *)

(** A random source that has delivered five draws of an all-ones stream. *)
Definition used_rng : rng :=
  {| stream := fun _ => 1; pos := 5%nat; seeded := fun _ _ => 0 |}.

(** The configuration [c] with the text [text] as its initial price. *)
Definition with_initial_price (text : string) (c : config) : config :=
  {| cfg_start := cfg_start c; cfg_end := cfg_end c; cfg_model := cfg_model c;
     cfg_params := <["Initial Stock Price (S0)" := text]> (cfg_params c) |}.

(** An interval of a model the simulator does not know. *)
Definition unknown_interval (start_day end_day : string) : config :=
  {| cfg_start := start_day; cfg_end := end_day;
     cfg_model := "Jump Diffusion"; cfg_params := ∅ |}.

(** The interval the window starts with. *)
Definition first_interval : IntervalUi.ModelInterval :=
  {| IntervalUi.interval_number := 1;
     IntervalUi.start_day := "1";
     IntervalUi.end_day := "100";
     IntervalUi.model_var := "Geometric Brownian Motion (GBM)";
     IntervalUi.param_entries :=
       IntervalUi.create_param_widgets "Geometric Brownian Motion (GBM)" |}.

(** The window as it starts. *)
Definition fresh_window : StockSimulatorGUI :=
  {| model_intervals := [first_interval]; simulation_results := None |}.

(** * Properties *)

(** ** The monad *)

Lemma bind_Ok {A B} (c : M A) (k : A -> M B) g a g' :
  c g = Ok a g' -> bind c k g = k a g'.
Proof. intros H. unfold bind. by rewrite H. Qed.

Lemma bind_Raise {A B} (c : M A) (k : A -> M B) g e g' :
  c g = Raise e g' -> bind c k g = Raise e g'.
Proof. intros H. unfold bind. by rewrite H. Qed.

Lemma for_each_snoc {X St} (body : X -> St -> M St) xs x st g :
  for_each body (xs ++ [x]) st g =
  bind (for_each body xs st) (body x) g.
Proof.
  revert st g. induction xs as [|y ys IH]; intros st g; simpl.
  - unfold bind, ret. by destruct (body x st g).
  - unfold bind. destruct (body y st g) as [st' g'|e g']; [|done].
    specialize (IH st' g'). unfold bind in IH. exact IH.
Qed.

Lemma advance_advance a b g : advance a (advance b g) = advance (b + a) g.
Proof. unfold advance. simpl. f_equal. lia. Qed.

Lemma advance_0 g : advance 0 g = g.
Proof. destruct g. unfold advance. simpl. f_equal. lia. Qed.

(** ** Indexing *)

Lemma np_index_nat len k :
  (k < len)%nat -> np_index len (Z.of_nat k) = Some k.
Proof.
  intros H. unfold np_index.
  destruct (Z.ltb_spec (Z.of_nat k) 0); [lia|].
  destruct (Z.leb_spec 0 (Z.of_nat k)); [|lia].
  destruct (Z.ltb_spec (Z.of_nat k) (Z.of_nat len)); [|lia].
  simpl. by rewrite Nat2Z.id.
Qed.

Lemma np_get_nat {A} (a : list A) k x g :
  a !! k = Some x -> np_get a (Z.of_nat k) g = Ok x g.
Proof.
  intros H. unfold np_get.
  rewrite np_index_nat; [|by eapply lookup_lt_Some].
  by rewrite H.
Qed.

Lemma np_set_nat {A} (a : list A) k x g :
  (k < length a)%nat -> np_set a (Z.of_nat k) x g = Ok (<[k:=x]> a) g.
Proof. intros H. unfold np_set. by rewrite np_index_nat. Qed.

Lemma np_get_last {A} (a : list A) x g :
  np_get (a ++ [x]) (-1) g = Ok x g.
Proof.
  unfold np_get, np_index. rewrite length_app. simpl.
  destruct (Z.ltb_spec (-1) 0); [|lia].
  destruct (Z.leb_spec 0 (-1 + Z.of_nat (length a + 1))); [|lia].
  destruct (Z.ltb_spec (-1 + Z.of_nat (length a + 1)) (Z.of_nat (length a + 1))); [|lia].
  simpl.
  replace (Z.to_nat (-1 + Z.of_nat (length a + 1))) with (length a + 0)%nat by lia.
  by rewrite lookup_app_r, Nat.add_comm, Nat.add_sub by lia.
Qed.

Lemma np_set_last {A} (a : list A) x y g :
  np_set (a ++ [x]) (-1) y g = Ok (a ++ [y]) g.
Proof.
  unfold np_set, np_index. rewrite length_app. simpl.
  destruct (Z.ltb_spec (-1) 0); [|lia].
  destruct (Z.leb_spec 0 (-1 + Z.of_nat (length a + 1))); [|lia].
  destruct (Z.ltb_spec (-1 + Z.of_nat (length a + 1)) (Z.of_nat (length a + 1))); [|lia].
  simpl.
  replace (Z.to_nat (-1 + Z.of_nat (length a + 1))) with (length a + 0)%nat by lia.
  by rewrite insert_app_r.
Qed.

Lemma length_written f n k : (k <= n)%nat -> length (written f n k) = (n + 1)%nat.
Proof.
  intros H. unfold written.
  rewrite length_app, length_map, length_seq, length_replicate. lia.
Qed.

Lemma lookup_written f n k j :
  (j <= k)%nat -> written f n k !! j = Some (f j).
Proof.
  intros H. unfold written.
  rewrite lookup_app_l by (rewrite length_map, length_seq; lia).
  rewrite list_lookup_fmap, lookup_seq_lt by lia. done.
Qed.

Lemma insert_written f n k :
  (k < n)%nat -> <[S k := f (S k)]> (written f n k) = written f n (S k).
Proof.
  intros H. unfold written.
  replace (S k) with (length (map f (seq 0 (k + 1))) + 0)%nat at 1
    by (rewrite length_map, length_seq; lia).
  rewrite insert_app_r.
  replace (n - k)%nat with (S (n - S k)) by lia. simpl replicate.
  simpl insert.
  replace (S k + 1)%nat with (S (k + 1)) by lia.
  rewrite seq_S, map_app, <- app_assoc. simpl.
  by replace (k + 1)%nat with (S k) by lia.
Qed.

Lemma np_max_snoc xs x g : np_max (xs ++ [x]) g = Ok (Rmax_list (xs ++ [x])) g.
Proof. by destruct xs. Qed.

Lemma np_min_snoc xs x g : np_min (xs ++ [x]) g = Ok (Rmin_list (xs ++ [x])) g.
Proof. by destruct xs. Qed.

Lemma day_slice_S f m d r :
  day_slice f m d (S r) = day_slice f m d r ++ [f (d * m + 1 + r)%nat].
Proof. unfold day_slice. by rewrite seq_S, map_app. Qed.

Lemma day_opens_S f m q : day_opens f m (S q) = day_opens f m q ++ [f (q * m)%nat].
Proof. unfold day_opens. by rewrite seq_S, map_app. Qed.
Lemma day_closes_S f m q : day_closes f m (S q) = day_closes f m q ++ [f (q * m + m)%nat].
Proof. unfold day_closes. by rewrite seq_S, map_app. Qed.
Lemma day_highs_S f m q :
  day_highs f m (S q) = day_highs f m q ++ [Rmax_list (day_slice f m q m)].
Proof. unfold day_highs. by rewrite seq_S, map_app. Qed.
Lemma day_lows_S f m q :
  day_lows f m (S q) = day_lows f m q ++ [Rmin_list (day_slice f m q m)].
Proof. unfold day_lows. by rewrite seq_S, map_app. Qed.

Lemma py_mod_end_of_day (q r m : nat) g :
  (0 < m)%nat -> (r < m)%nat ->
  py_mod (Z.of_nat (S (q * m + r))) (Z.of_nat m) g =
  Ok (if decide (S r = m) then 0%Z else Z.of_nat (S r)) g.
Proof.
  intros Hm Hr. unfold py_mod.
  destruct (Z.eqb_spec (Z.of_nat m) 0); [lia|]. unfold ret. f_equal.
  replace (Z.of_nat (S (q * m + r))) with (Z.of_nat (S r) + Z.of_nat q * Z.of_nat m)%Z by lia.
  rewrite Z.mod_add by lia.
  destruct (decide (S r = m)) as [->|Hne].
  - apply Z.mod_same. lia.
  - apply Z.mod_small. lia.
Qed.

Lemma py_range_nat a k :
  py_range a (a + Z.of_nat k) = map (fun j => (a + Z.of_nat j)%Z) (seq 0 k).
Proof. unfold py_range. by replace (Z.to_nat (a + Z.of_nat k - a)) with k by lia. Qed.

Lemma py_range_S a k :
  py_range a (a + Z.of_nat (S k))
  = py_range a (a + Z.of_nat k) ++ [(a + Z.of_nat k)%Z].
Proof. rewrite !py_range_nat. by rewrite seq_S, map_app. Qed.

(** A loop whose state after [q * m + r] iterations is [st_at q r]. *)
Lemma for_each_days {St} (body : Z -> St -> M St) (st_at : nat -> nat -> St)
    (a : Z) (m n : nat) (gk : nat -> rng) :
  (0 < m)%nat ->
  (forall q r, (r < m)%nat -> (q * m + r < n)%nat ->
     body (a + Z.of_nat (q * m + r))%Z (st_at q r) (gk (q * m + r)%nat)
     = Ok (if decide (S r = m) then st_at (S q) O else st_at q (S r))
          (gk (S (q * m + r)))) ->
  forall k, (k <= n)%nat ->
    exists q r, k = (q * m + r)%nat /\ (r < m)%nat /\
      for_each body (py_range a (a + Z.of_nat k)) (st_at O O) (gk O)
      = Ok (st_at q r) (gk k).
Proof.
  intros Hm Hstep. induction k as [|k IH]; intros Hk.
  - exists O, O. split; [lia|]. split; [lia|].
    rewrite py_range_nat. done.
  - destruct IH as (q & r & -> & Hr & IH); [lia|].
    rewrite py_range_S, for_each_snoc. erewrite bind_Ok by exact IH.
    rewrite Hstep by lia.
    destruct (decide (S r = m)) as [Hend|Hmid].
    + exists (S q), O. split; [simpl; lia|]. split; [lia|]. done.
    + exists q, (S r). split; [lia|]. split; [lia|].
      by replace (q * m + S r)%nat with (S (q * m + r)) by lia.
Qed.

Lemma for_each_whole_days {St} (body : Z -> St -> M St)
    (st_at : nat -> nat -> St) (a : Z) (m T : nat) (gk : nat -> rng) :
  (0 < m)%nat ->
  (forall q r, (r < m)%nat -> (q * m + r < T * m)%nat ->
     body (a + Z.of_nat (q * m + r))%Z (st_at q r) (gk (q * m + r)%nat)
     = Ok (if decide (S r = m) then st_at (S q) O else st_at q (S r))
          (gk (S (q * m + r)))) ->
  for_each body (py_range a (a + Z.of_nat (T * m))) (st_at O O) (gk O)
  = Ok (st_at T O) (gk (T * m)%nat).
Proof.
  intros Hm Hstep.
  destruct (for_each_days body st_at a m (T * m) gk Hm Hstep (T * m)%nat)
    as (q & r & Hqr & Hr & Hrun); [lia|].
  assert (q = T) as ->.
  { destruct (Nat.lt_trichotomy q T) as [Hlt|[Heq|Hgt]]; [|done|].
    - assert ((S q) * m <= T * m)%nat by (apply Nat.mul_le_mono_r; lia).
      simpl in *. lia.
    - assert ((S T) * m <= q * m)%nat by (apply Nat.mul_le_mono_r; lia).
      simpl in *. lia. }
  assert (r = O) as -> by lia.
  exact Hrun.
Qed.
Lemma np_random_normal_at g0 k :
  np_random_normal (advance k g0)
  = Ok (stream g0 (pos g0 + k)%nat) (advance (k + 1) g0).
Proof. unfold np_random_normal. by rewrite advance_advance. Qed.

Section GbmLoop.
Variables (S0 mu sigma dt_intra : R) (m n : nat) (g0 : rng).
Hypothesis Hm : (0 < m)%nat.

Let z : nat -> R := draws g0.
Let f := gbm_path S0 mu sigma dt_intra z.
Let body := Gbm.step mu sigma dt_intra (Z.of_nat m).

Lemma gbm_step_at q r :
  (r < m)%nat -> (q * m + r < n)%nat ->
  body (1 + Z.of_nat (q * m + r))%Z (gbm_state_at f m n q r)
       (advance (q * m + r) g0)
  = Ok (if decide (S r = m) then gbm_state_at f m n (S q) 0
        else gbm_state_at f m n q (S r))
       (advance (S (q * m + r)) g0).
Proof.
  intros Hr Hk. set (k := (q * m + r)%nat) in *.
  assert (Hk1 : (k + 1)%nat = S k) by lia.
  replace (1 + Z.of_nat k)%Z with (Z.of_nat (k + 1)) by lia.
  rewrite <- Hk1.
  unfold body, Gbm.step.
  erewrite bind_Ok by apply np_random_normal_at.
  replace (Z.of_nat (k + 1) - 1)%Z with (Z.of_nat k) by lia.
  cbn [Gbm.arr_S gbm_state_at Gbm.day_prices Gbm.opens Gbm.closes Gbm.highs Gbm.lows].
  fold k. change (stream g0 (pos g0 + k)%nat) with (z k).
  erewrite bind_Ok by (apply np_get_nat, lookup_written; lia).
  change (f k * exp ((mu - 0.5 * sigma ^ 2) * dt_intra + sigma * sqrt dt_intra * z k))
    with (f (S k)).
  rewrite Hk1.
  erewrite bind_Ok by (apply np_set_nat; rewrite length_written; lia).
  rewrite insert_written by lia.
  erewrite bind_Ok by (apply np_get_nat, lookup_written; lia).
  erewrite bind_Ok by (apply py_mod_end_of_day; lia).
  destruct (decide (S r = m)) as [Hend|Hmid].
  - change (0 =? 0)%Z with true. cbv iota.
    replace (Z.of_nat (S k) - Z.of_nat m)%Z with (Z.of_nat (q * m)) by lia.
    erewrite bind_Ok by (apply np_get_nat, lookup_written; lia).
    erewrite bind_Ok by (apply np_get_nat, lookup_written; lia).
    erewrite bind_Ok by apply np_max_snoc.
    erewrite bind_Ok by apply np_min_snoc.
    unfold ret. f_equal. unfold gbm_state_at.
    rewrite day_opens_S, day_closes_S, day_highs_S, day_lows_S.
    replace (day_slice f m q m) with (day_slice f m q (S r)) by (by rewrite Hend).
    rewrite day_slice_S.
    replace (q * m + 1 + r)%nat with (S k) by lia.
    replace (q * m + m)%nat with (S k) by lia.
    replace (S q * m + 0)%nat with (S k) by (simpl; lia).
    done.
  - destruct (Z.eqb_spec (Z.of_nat (S r)) 0); [lia|].
    unfold ret. f_equal. unfold gbm_state_at.
    rewrite day_slice_S.
    replace (q * m + 1 + r)%nat with (S k) by lia.
    replace (q * m + S r)%nat with (S k) by lia.
    done.
Qed.

End GbmLoop.

Lemma gbm_loop_whole_days S0 mu sigma dt_intra m T g0 :
  (0 < m)%nat ->
  let f := gbm_path S0 mu sigma dt_intra (draws g0) in
  for_each (Gbm.step mu sigma dt_intra (Z.of_nat m))
    (py_range 1 (1 + Z.of_nat (T * m))) (gbm_state_at f m (T * m) 0 0) g0
  = Ok (gbm_state_at f m (T * m) T 0) (advance (T * m) g0).
Proof.
  intros Hm f. rewrite <- (advance_0 g0) at 1.
  apply (for_each_whole_days _ (gbm_state_at f m (T * m)) 1 m T
           (fun k => advance k g0) Hm).
  intros q r Hr Hk. by apply gbm_step_at.
Qed.

Lemma np_random_seed_run seed g :
  np_random_seed seed g = Ok tt (after_seed seed g).
Proof. by destruct seed. Qed.

Lemma written_0 f n : <[O := f O]> (replicate (n + 1) 0) = written f n 0.
Proof.
  unfold written. replace (n + 1)%nat with (S n) by lia.
  simpl. by rewrite Nat.sub_0_r.
Qed.

Lemma np_zeros_nat n g : np_zeros (Z.of_nat n) g = Ok (replicate n 0) g.
Proof.
  unfold np_zeros. destruct (Z.ltb_spec (Z.of_nat n) 0); [lia|].
  by rewrite Nat2Z.id.
Qed.

Lemma py_truediv_pos x spd g :
  (0 < spd)%Z -> py_truediv x spd g = Ok (x / IZR spd) g.
Proof. intros H. unfold py_truediv. by destruct (Z.eqb_spec spd 0); [lia|]. Qed.

(** The GBM generator on a positive resolution and a non-negative number
    of days: it returns, and the state it ends in. *)
Lemma gbm_simulate_ok T dt S0 mu sigma spd seed g :
  (0 < spd)%Z -> (0 <= T)%Z ->
  Gbm.simulate T dt S0 mu sigma spd seed g
  = Ok (gbm_state_at
          (gbm_path S0 mu sigma (dt / IZR spd) (draws (after_seed seed g)))
          (Z.to_nat spd) (Z.to_nat (T * spd)) (Z.to_nat T) 0)
       (advance (Z.to_nat (T * spd)) (after_seed seed g)).
Proof.
  intros Hspd HT. unfold Gbm.simulate.
  erewrite bind_Ok by apply np_random_seed_run.
  erewrite bind_Ok by (by apply py_truediv_pos).
  set (n := Z.to_nat (T * spd)).
  replace (T * spd + 1)%Z with (Z.of_nat (n + 1)) by nia.
  erewrite bind_Ok by apply np_zeros_nat.
  erewrite bind_Ok by (apply (np_set_nat _ O); rewrite length_replicate; lia).
  set (f := gbm_path _ _ _ _ _).
  change S0 with (f O). rewrite written_0.
  replace (Z.of_nat (n + 1)) with (1 + Z.of_nat n)%Z by lia.
  assert (Hn : n = (Z.to_nat T * Z.to_nat spd)%nat)
    by (unfold n; rewrite Z2Nat.inj_mul by lia; done).
  rewrite Hn.
  pose proof (gbm_loop_whole_days S0 mu sigma (dt / IZR spd) (Z.to_nat spd)
                (Z.to_nat T) (after_seed seed g)) as Hloop.
  rewrite Z2Nat.id in Hloop by lia. apply Hloop. lia.
Qed.

Lemma insert_written_val f n k x :
  (k < n)%nat -> x = f (S k) -> <[S k := x]> (written f n k) = written f n (S k).
Proof. intros H ->. by apply insert_written. Qed.

Lemma py_floordiv_pos a spd g :
  (0 < spd)%Z -> py_floordiv a spd g = Ok (a / spd)%Z g.
Proof. intros H. unfold py_floordiv. by destruct (Z.eqb_spec spd 0); [lia|]. Qed.

Lemma crash_event_run ev spd k (A : list R) dp d g :
  A !! S k = Some d ->
  Svm.crash_event ev spd (Z.of_nat k) A (dp ++ [d]) g
  = Ok (<[S k := d * crash_multiplier ev spd (Z.of_nat k)]> A,
        dp ++ [d * crash_multiplier ev spd (Z.of_nat k)]) g.
Proof.
  intros HA. pose proof (lookup_lt_Some _ _ _ HA) as Hlen.
  assert (Hid : Ok (A, dp ++ [d]) g
                = Ok (<[S k := d * 1]> A, dp ++ [d * 1]) g).
  { rewrite Rmult_1_r. by rewrite list_insert_id. }
  unfold Svm.crash_event, crash_multiplier.
  destruct (Svm.crash_day ev) as [c_day|]; [|exact Hid].
  destruct (Svm.crash_factor ev) as [c_factor|]; [|exact Hid].
  destruct (int_equals _ _); [|exact Hid].
  replace (Z.of_nat k + 1)%Z with (Z.of_nat (S k)) by lia.
  erewrite bind_Ok by (by apply np_get_nat).
  erewrite bind_Ok by (by apply np_set_nat).
  erewrite bind_Ok
    by (apply np_get_nat, list_lookup_insert_eq; lia).
  erewrite bind_Ok by apply np_set_last.
  done.
Qed.

Section SvmLoop.
Variables (S0 v0 kappa theta sigma_v mu dt_intra : R) (ev : Svm.events).
Variables (m n : nat) (Z1 Z2 : list R) (z1 z2 : nat -> R).
Hypothesis Hm : (0 < m)%nat.
Hypothesis HZ1 : forall k, (k < n)%nat -> Z1 !! k = Some (z1 k).
Hypothesis HZ2 : forall k, (k < n)%nat -> Z2 !! k = Some (z2 k).

Let var := svm_var v0 kappa theta sigma_v dt_intra z2.
Let f := svm_path S0 mu ev dt_intra (Z.of_nat m) var z1.
Let body :=
  Svm.step kappa theta sigma_v mu ev dt_intra (Z.of_nat m) Z1 Z2.

Lemma svm_step_at q r g :
  (r < m)%nat -> (q * m + r < n)%nat ->
  body (0 + Z.of_nat (q * m + r))%Z (svm_state_at f var m n q r) g
  = Ok (if decide (S r = m) then svm_state_at f var m n (S q) 0
        else svm_state_at f var m n q (S r)) g.
Proof.
  intros Hr Hk. set (k := (q * m + r)%nat) in *.
  rewrite Z.add_0_l. unfold body, Svm.step.
  replace (Z.of_nat k + 1)%Z with (Z.of_nat (S k)) by lia.
  cbn [svm_state_at Svm.arr_S Svm.arr_v Svm.day_prices Svm.opens Svm.closes
       Svm.highs Svm.lows].
  fold k.
  erewrite bind_Ok by (apply py_floordiv_pos; lia).
  erewrite bind_Ok by (apply np_get_nat, lookup_written; lia).
  erewrite bind_Ok by (apply np_get_nat, HZ2; lia).
  erewrite bind_Ok by (apply np_set_nat; rewrite length_written; lia).
  erewrite bind_Ok
    by (apply np_get_nat, list_lookup_insert_eq; rewrite length_written; lia).
  erewrite (bind_Ok _ _ _ (written var n (S k)) g).
  2:{ assert (Hv := eq_refl (var (S k))). unfold var at 2 in Hv.
      simpl svm_var in Hv. fold var in Hv.
      destruct (Rlt_dec _ 0).
      - rewrite np_set_nat by (rewrite length_insert, length_written; lia).
        rewrite list_insert_insert_eq. f_equal.
        by apply insert_written_val.
      - unfold ret. f_equal. by apply insert_written_val. }
  erewrite bind_Ok by (apply np_get_nat, lookup_written; lia).
  erewrite bind_Ok by (apply np_get_nat, lookup_written; lia).
  erewrite bind_Ok by (apply np_get_nat, HZ1; lia).
  erewrite bind_Ok by (apply np_set_nat; rewrite length_written; lia).
  erewrite bind_Ok
    by (apply np_get_nat, list_lookup_insert_eq; rewrite length_written; lia).
  fold (svm_diffuse mu ev dt_intra (Z.of_nat m) (Z.of_nat k) (f k) (var k) (z1 k)).
  erewrite bind_Ok
    by (apply crash_event_run, list_lookup_insert_eq; rewrite length_written; lia).
  cbn [fst snd]. rewrite list_insert_insert_eq.
  change (svm_diffuse mu ev dt_intra (Z.of_nat m) (Z.of_nat k) (f k) (var k) (z1 k)
          * crash_multiplier ev (Z.of_nat m) (Z.of_nat k)) with (f (S k)).
  rewrite insert_written by lia.
  erewrite bind_Ok by (apply py_mod_end_of_day; lia).
  destruct (decide (S r = m)) as [Hend|Hmid].
  - change (0 =? 0)%Z with true. cbv iota.
    replace (Z.of_nat (S k) - Z.of_nat m)%Z with (Z.of_nat (q * m)) by lia.
    erewrite bind_Ok by (apply np_get_nat, lookup_written; lia).
    erewrite bind_Ok by (apply np_get_nat, lookup_written; lia).
    erewrite bind_Ok by apply np_max_snoc.
    erewrite bind_Ok by apply np_min_snoc.
    unfold ret. f_equal. unfold svm_state_at.
    rewrite day_opens_S, day_closes_S, day_highs_S, day_lows_S.
    replace (day_slice f m q m) with (day_slice f m q (S r)) by (by rewrite Hend).
    rewrite day_slice_S.
    replace (q * m + 1 + r)%nat with (S k) by lia.
    replace (q * m + m)%nat with (S k) by lia.
    replace (S q * m + 0)%nat with (S k) by (simpl; lia).
    done.
  - destruct (Z.eqb_spec (Z.of_nat (S r)) 0); [lia|].
    unfold ret. f_equal. unfold svm_state_at.
    rewrite day_slice_S.
    replace (q * m + 1 + r)%nat with (S k) by lia.
    replace (q * m + S r)%nat with (S k) by lia.
    done.
Qed.
End SvmLoop.

Lemma svm_loop_whole_days S0 v0 kappa theta sigma_v mu dt_intra ev m T
    Z1 Z2 z1 z2 g :
  (0 < m)%nat ->
  (forall k, (k < T * m)%nat -> Z1 !! k = Some (z1 k)) ->
  (forall k, (k < T * m)%nat -> Z2 !! k = Some (z2 k)) ->
  let var := svm_var v0 kappa theta sigma_v dt_intra z2 in
  let f := svm_path S0 mu ev dt_intra (Z.of_nat m) var z1 in
  for_each (Svm.step kappa theta sigma_v mu ev dt_intra (Z.of_nat m) Z1 Z2)
    (py_range 0 (0 + Z.of_nat (T * m))) (svm_state_at f var m (T * m) 0 0) g
  = Ok (svm_state_at f var m (T * m) T 0) g.
Proof.
  intros Hm HZ1 HZ2 var f.
  apply (for_each_whole_days _ (svm_state_at f var m (T * m)) 0 m T
           (fun _ => g) Hm).
  intros q r Hr Hk. by apply svm_step_at.
Qed.

Lemma np_random_normal_n_nat n g :
  np_random_normal_n (Z.of_nat n) g = Ok (map (draws g) (seq 0 n)) (advance n g).
Proof.
  unfold np_random_normal_n. destruct (Z.ltb_spec (Z.of_nat n) 0); [lia|].
  by rewrite Nat2Z.id.
Qed.

Lemma lookup_draws g n k :
  (k < n)%nat -> map (draws g) (seq 0 n) !! k = Some (draws g k).
Proof. intros H. by rewrite list_lookup_fmap, lookup_seq_lt by lia. Qed.

Lemma lookup_correlate rho n g0 k :
  (k < n)%nat ->
  Svm.correlate rho (map (draws g0) (seq 0 n))
    (map (draws (advance n g0)) (seq 0 n)) !! k
  = Some (svm_z2 rho n g0 k).
Proof.
  intros H. unfold Svm.correlate.
  rewrite lookup_zip_with, !lookup_draws by lia. done.
Qed.

(** The SV generator on a positive resolution and a non-negative number of
    days: it returns, and the state it ends in. *)
Lemma svm_simulate_ok T dt S0 v0 kappa theta sigma_v rho mu ev spd seed g :
  (0 < spd)%Z -> (0 <= T)%Z ->
  let n := Z.to_nat (T * spd) in
  let g0 := after_seed seed g in
  let var := svm_var v0 kappa theta sigma_v (dt / IZR spd) (svm_z2 rho n g0) in
  let f := svm_path S0 mu ev (dt / IZR spd) spd var (draws g0) in
  Svm.simulate T dt S0 v0 kappa theta sigma_v rho mu ev spd seed g
  = Ok (svm_state_at f var (Z.to_nat spd) n (Z.to_nat T) 0)
       (advance (n + n) g0).
Proof.
  intros Hspd HT n g0 var f. unfold Svm.simulate.
  erewrite bind_Ok by apply np_random_seed_run. fold g0.
  erewrite bind_Ok by (by apply py_truediv_pos).
  replace (T * spd + 1)%Z with (Z.of_nat (n + 1)) by (unfold n; nia).
  erewrite bind_Ok by apply np_zeros_nat.
  erewrite bind_Ok by apply np_zeros_nat.
  erewrite bind_Ok by (apply (np_set_nat _ O); rewrite length_replicate; lia).
  erewrite bind_Ok by (apply (np_set_nat _ O); rewrite length_replicate; lia).
  replace (T * spd)%Z with (Z.of_nat n) by (unfold n; nia).
  erewrite bind_Ok by apply np_random_normal_n_nat.
  erewrite bind_Ok by apply np_random_normal_n_nat.
  rewrite advance_advance.
  change S0 with (f O). change v0 with (var O) at 1. rewrite !written_0.
  assert (Hn : n = (Z.to_nat T * Z.to_nat spd)%nat)
    by (unfold n; rewrite Z2Nat.inj_mul by lia; done).
  pose proof (svm_loop_whole_days S0 v0 kappa theta sigma_v mu (dt / IZR spd)
                ev (Z.to_nat spd) (Z.to_nat T)
                (map (draws g0) (seq 0 n))
                (Svm.correlate rho (map (draws g0) (seq 0 n))
                   (map (draws (advance n g0)) (seq 0 n)))
                (draws g0) (svm_z2 rho n g0) (advance (n + n) g0)) as Hloop.
  rewrite Z2Nat.id, <- Hn in Hloop by lia. apply Hloop; [lia| |].
  - intros k Hk. by apply lookup_draws.
  - intros k Hk. by apply lookup_correlate.
Qed.

(** ** The arguments on which the generators return *)

Lemma bind_Ok_inv {A C} (c : M A) (k : A -> M C) g b g' :
  bind c k g = Ok b g' -> exists a g1, c g = Ok a g1 /\ k a g1 = Ok b g'.
Proof.
  unfold bind. destruct (c g) as [a g1|e g1]; [|done]. eauto.
Qed.

Ltac inv_bind H :=
  let a := fresh "a" in
  let g := fresh "g" in
  let Ha := fresh "Hstep" in
  apply bind_Ok_inv in H as (a & g & Ha & H).

Lemma for_each_snoc_Ok {X St} (body : X -> St -> M St) xs x st g st' g' :
  for_each body (xs ++ [x]) st g = Ok st' g' ->
  exists st1 g1, for_each body xs st g = Ok st1 g1 /\ body x st1 g1 = Ok st' g'.
Proof. rewrite for_each_snoc. apply bind_Ok_inv. Qed.

Lemma for_each_invariant {X St} (I : St -> Prop) (body : X -> St -> M St) xs :
  (forall x st g st' g', I st -> body x st g = Ok st' g' -> I st') ->
  forall st g st' g', I st -> for_each body xs st g = Ok st' g' -> I st'.
Proof.
  intros Hbody. induction xs as [|x xs IH]; intros st g st' g' HI; simpl.
  - by intros [= <- <-].
  - intros H. inv_bind H. eapply IH; [|exact H]. by eapply Hbody.
Qed.

Lemma np_set_length {A} (a : list A) i x g a' g' :
  np_set a i x g = Ok a' g' -> length a' = length a.
Proof.
  unfold np_set. destruct (np_index (length a) i); [|done].
  intros [= <- <-]. apply length_insert.
Qed.

Lemma np_index_in_range len i j :
  np_index len i = Some j -> (- Z.of_nat len <= i < Z.of_nat len)%Z.
Proof.
  unfold np_index.
  destruct (Z.ltb_spec i 0) as [Hi|Hi];
    match goal with
    | |- (if ?b then _ else _) = _ -> _ => destruct b eqn:E; [|done]
    end;
    apply andb_true_iff in E as [E1%Z.leb_le E2%Z.ltb_lt]; lia.
Qed.

Lemma np_get_in_range {A} (a : list A) i g x g' :
  np_get a i g = Ok x g' ->
  (- Z.of_nat (length a) <= i < Z.of_nat (length a))%Z.
Proof.
  unfold np_get.
  destruct (np_index (length a) i) as [j|] eqn:Hidx; [|done].
  intros _. by eapply np_index_in_range.
Qed.

Lemma np_zeros_Ok n g a g' :
  np_zeros n g = Ok a g' -> (0 <= n)%Z /\ a = replicate (Z.to_nat n) 0 /\ g' = g.
Proof.
  unfold np_zeros. destruct (Z.ltb_spec n 0); [done|].
  intros [= <- <-]. done.
Qed.

Lemma np_set_Ok_nonempty {A} (a : list A) x g a' g' :
  np_set a 0 x g = Ok a' g' -> (0 < length a)%nat.
Proof.
  unfold np_set, np_index. simpl.
  destruct (Z.ltb_spec 0 (Z.of_nat (length a))); [lia|done].
Qed.

Lemma py_truediv_Ok x n g y g' : py_truediv x n g = Ok y g' -> n <> 0%Z.
Proof. unfold py_truediv. by destruct (Z.eqb_spec n 0). Qed.

Lemma py_mod_Ok a n g r g' :
  py_mod a n g = Ok r g' -> r = (a mod n)%Z /\ g' = g.
Proof.
  unfold py_mod. destruct (Z.eqb_spec n 0); [done|]. by intros [= <- <-].
Qed.

Lemma gbm_step_length mu sigma dt_intra spd t st g st' g' :
  Gbm.step mu sigma dt_intra spd t st g = Ok st' g' ->
  length (Gbm.arr_S st') = length (Gbm.arr_S st).
Proof.
  unfold Gbm.step. intros H. do 5 inv_bind H.
  apply np_set_length in Hstep1.
  destruct (a3 =? 0)%Z.
  - do 4 inv_bind H. by injection H as <- <-.
  - by injection H as <- <-.
Qed.

(** The last iteration of a loop over a negative number of negative-sized
    days reads its open beyond the end of [S]. *)
Lemma gbm_step_last_raises mu sigma dt_intra T spd st g st' g' :
  (spd < 0)%Z -> (T < 0)%Z ->
  length (Gbm.arr_S st) = Z.to_nat (T * spd + 1) ->
  Gbm.step mu sigma dt_intra spd (T * spd) st g = Ok st' g' -> False.
Proof.
  intros Hspd HT Hlen. unfold Gbm.step. intros H. do 5 inv_bind H.
  apply np_set_length in Hstep1. apply py_mod_Ok in Hstep3 as [-> _].
  rewrite Z_mod_mult in H. change (0 =? 0)%Z with true in H. cbv iota in H.
  inv_bind H. apply np_get_in_range in Hstep3. nia.
Qed.

Lemma py_range_last a b :
  (a < b)%Z -> py_range a b = py_range a (b - 1) ++ [(b - 1)%Z].
Proof.
  intros H. unfold py_range.
  replace (Z.to_nat (b - a)) with (S (Z.to_nat (b - 1 - a))) by lia.
  rewrite seq_S, map_app. simpl. do 2 f_equal. lia.
Qed.

Lemma gbm_simulate_domain T dt S0 mu sigma spd seed g st g' :
  Gbm.simulate T dt S0 mu sigma spd seed g = Ok st g' ->
  (0 < spd /\ 0 <= T)%Z \/ (spd < 0 /\ T = 0)%Z.
Proof.
  unfold Gbm.simulate. intros H. do 4 inv_bind H.
  apply py_truediv_Ok in Hstep0.
  apply np_zeros_Ok in Hstep1 as (Hn & -> & ->).
  pose proof (np_set_length _ _ _ _ _ _ Hstep2) as Hlen.
  rewrite length_replicate in Hlen.
  apply np_set_Ok_nonempty in Hstep2. rewrite length_replicate in Hstep2.
  destruct (Z.lt_trichotomy spd 0) as [Hneg|[->|Hpos]]; [|done|left; nia].
  destruct (Z.lt_trichotomy T 0) as [HT|[->|HT]]; [|by right|nia].
  exfalso.
  rewrite (py_range_last 1 (T * spd + 1)) in H by nia.
  apply for_each_snoc_Ok in H as (st_last & g_last & Hloop & Hlast).
  replace (T * spd + 1 - 1)%Z with (T * spd)%Z in Hlast by lia.
  apply (gbm_step_last_raises _ _ _ _ _ _ _ _ _ Hneg HT) in Hlast; [done|].
  eapply (for_each_invariant
            (fun st => length (Gbm.arr_S st) = Z.to_nat (T * spd + 1)));
    [| |exact Hloop]; [|exact Hlen].
  intros x st2 g2' st3 g3' HI Hx. apply gbm_step_length in Hx. congruence.
Qed.

(** Whenever the GBM generator returns, its final state is the state
    after [T] whole days of the price recurrence. *)
Lemma gbm_simulate_inv T dt S0 mu sigma spd seed g st g' :
  Gbm.simulate T dt S0 mu sigma spd seed g = Ok st g' ->
  st = gbm_state_at
         (gbm_path S0 mu sigma (dt / IZR spd) (draws (after_seed seed g)))
         (Z.to_nat spd) (Z.to_nat (T * spd)) (Z.to_nat T) 0
  /\ g' = advance (Z.to_nat (T * spd)) (after_seed seed g).
Proof.
  intros H.
  destruct (gbm_simulate_domain _ _ _ _ _ _ _ _ _ _ H) as [[Hspd HT]|[Hspd ->]].
  - rewrite gbm_simulate_ok in H by done. by injection H as <- <-.
  - destruct spd as [|p|p]; try lia.
    change (Z.to_nat (0 * Z.neg p)) with O. rewrite advance_0.
    assert (Hrun : Gbm.simulate 0 dt S0 mu sigma (Z.neg p) seed g
                   = Ok (gbm_state_at
                           (gbm_path S0 mu sigma (dt / IZR (Z.neg p))
                              (draws (after_seed seed g))) 0 0 0 0)
                        (after_seed seed g))
      by (by destruct seed).
    rewrite Hrun in H. by injection H as <- <-.
Qed.

Lemma crash_event_length ev spd t S1 dp g crashed g' :
  Svm.crash_event ev spd t S1 dp g = Ok crashed g' ->
  length (fst crashed) = length S1.
Proof.
  unfold Svm.crash_event.
  destruct (Svm.crash_day ev); [|by intros [= <- <-]].
  destruct (Svm.crash_factor ev); [|by intros [= <- <-]].
  destruct (int_equals _ _); [|by intros [= <- <-]].
  intros H. do 4 inv_bind H. injection H as <- <-.
  by apply np_set_length in Hstep0.
Qed.

Lemma svm_step_length kappa theta sigma_v mu ev dt_intra spd Z1 Z2 t st g st' g' :
  Svm.step kappa theta sigma_v mu ev dt_intra spd Z1 Z2 t st g = Ok st' g' ->
  length (Svm.arr_S st') = length (Svm.arr_S st).
Proof.
  unfold Svm.step. intros H. do 13 inv_bind H.
  apply np_set_length in Hstep8. apply crash_event_length in Hstep10.
  destruct (a11 =? 0)%Z.
  - do 4 inv_bind H. injection H as <- <-. simpl. congruence.
  - injection H as <- <-. simpl. congruence.
Qed.

Lemma svm_step_last_raises kappa theta sigma_v mu ev dt_intra T spd Z1 Z2
    st g st' g' :
  (spd < 0)%Z -> (T < 0)%Z ->
  length (Svm.arr_S st) = Z.to_nat (T * spd + 1) ->
  Svm.step kappa theta sigma_v mu ev dt_intra spd Z1 Z2 (T * spd - 1) st g
  = Ok st' g' -> False.
Proof.
  intros Hspd HT Hlen. unfold Svm.step. intros H. do 13 inv_bind H.
  apply np_set_length in Hstep8. apply crash_event_length in Hstep10.
  apply py_mod_Ok in Hstep11 as [-> _].
  replace (T * spd - 1 + 1)%Z with (T * spd)%Z in H by lia.
  rewrite Z_mod_mult in H. change (0 =? 0)%Z with true in H. cbv iota in H.
  inv_bind H. apply np_get_in_range in Hstep11. nia.
Qed.

Lemma svm_simulate_domain T dt S0 v0 kappa theta sigma_v rho mu ev spd seed
    g st g' :
  Svm.simulate T dt S0 v0 kappa theta sigma_v rho mu ev spd seed g = Ok st g' ->
  (0 < spd /\ 0 <= T)%Z \/ (spd < 0 /\ T = 0)%Z.
Proof.
  unfold Svm.simulate. intros H. do 8 inv_bind H.
  apply py_truediv_Ok in Hstep0.
  apply np_zeros_Ok in Hstep1 as (Hn & -> & ->).
  pose proof (np_set_length _ _ _ _ _ _ Hstep3) as Hlen.
  rewrite length_replicate in Hlen.
  apply np_set_Ok_nonempty in Hstep3. rewrite length_replicate in Hstep3.
  destruct (Z.lt_trichotomy spd 0) as [Hneg|[->|Hpos]]; [|done|left; nia].
  destruct (Z.lt_trichotomy T 0) as [HT|[->|HT]]; [|by right|nia].
  exfalso.
  rewrite (py_range_last 0 (T * spd)) in H by nia.
  apply for_each_snoc_Ok in H as (st_last & g_last & Hloop & Hlast).
  apply (svm_step_last_raises _ _ _ _ _ _ _ _ _ _ _ _ _ _ Hneg HT) in Hlast;
    [done|].
  eapply (for_each_invariant
            (fun st => length (Svm.arr_S st) = Z.to_nat (T * spd + 1)));
    [| |exact Hloop]; [|exact Hlen].
  intros x st2 g2' st3 g3' HI Hx. apply svm_step_length in Hx. congruence.
Qed.

(** Whenever the SV generator returns, its final state is the state after
    [T] whole days of the two recurrences. *)
Lemma svm_simulate_inv T dt S0 v0 kappa theta sigma_v rho mu ev spd seed
    g st g' :
  Svm.simulate T dt S0 v0 kappa theta sigma_v rho mu ev spd seed g = Ok st g' ->
  let n := Z.to_nat (T * spd) in
  let g0 := after_seed seed g in
  let var := svm_var v0 kappa theta sigma_v (dt / IZR spd) (svm_z2 rho n g0) in
  let f := svm_path S0 mu ev (dt / IZR spd) spd var (draws g0) in
  st = svm_state_at f var (Z.to_nat spd) n (Z.to_nat T) 0
  /\ g' = advance (n + n) g0.
Proof.
  intros H.
  destruct (svm_simulate_domain _ _ _ _ _ _ _ _ _ _ _ _ _ _ _ H)
    as [[Hspd HT]|[Hspd ->]].
  - rewrite svm_simulate_ok in H by done. by injection H as <- <-.
  - destruct spd as [|p|p]; try lia.
    change (Z.to_nat (0 * Z.neg p)) with O. cbv zeta.
    assert (Hrun :
      Svm.simulate 0 dt S0 v0 kappa theta sigma_v rho mu ev (Z.neg p) seed g
      = Ok (svm_state_at
              (svm_path S0 mu ev (dt / IZR (Z.neg p)) (Z.neg p)
                 (svm_var v0 kappa theta sigma_v (dt / IZR (Z.neg p))
                    (svm_z2 rho 0 (after_seed seed g)))
                 (draws (after_seed seed g)))
              (svm_var v0 kappa theta sigma_v (dt / IZR (Z.neg p))
                 (svm_z2 rho 0 (after_seed seed g))) 0 0 0 0)
           (advance 0 (advance 0 (after_seed seed g))))
      by (by destruct seed).
    rewrite Hrun in H. injection H as <- <-.
    by rewrite advance_advance.
Qed.

(** ** The bars in terms of the price array *)

Lemma written_full f n : written f n n = map f (seq 0 (n + 1)).
Proof. unfold written. by rewrite Nat.sub_diag, app_nil_r. Qed.

Lemma lookup_day_opens f m q d :
  (d < q)%nat -> day_opens f m q !! d = Some (f (d * m)%nat).
Proof. intros H. unfold day_opens. by rewrite list_lookup_fmap, lookup_seq_lt by lia. Qed.

Lemma lookup_day_closes f m q d :
  (d < q)%nat -> day_closes f m q !! d = Some (f (d * m + m)%nat).
Proof. intros H. unfold day_closes. by rewrite list_lookup_fmap, lookup_seq_lt by lia. Qed.

Lemma lookup_day_highs f m q d :
  (d < q)%nat -> day_highs f m q !! d = Some (Rmax_list (day_slice f m d m)).
Proof. intros H. unfold day_highs. by rewrite list_lookup_fmap, lookup_seq_lt by lia. Qed.

Lemma lookup_day_lows f m q d :
  (d < q)%nat -> day_lows f m q !! d = Some (Rmin_list (day_slice f m d m)).
Proof. intros H. unfold day_lows. by rewrite list_lookup_fmap, lookup_seq_lt by lia. Qed.

Lemma length_day_opens f m q : length (day_opens f m q) = q.
Proof. unfold day_opens. by rewrite length_map, length_seq. Qed.
Lemma length_day_closes f m q : length (day_closes f m q) = q.
Proof. unfold day_closes. by rewrite length_map, length_seq. Qed.
Lemma length_day_highs f m q : length (day_highs f m q) = q.
Proof. unfold day_highs. by rewrite length_map, length_seq. Qed.
Lemma length_day_lows f m q : length (day_lows f m q) = q.
Proof. unfold day_lows. by rewrite length_map, length_seq. Qed.

(** The opens are the initial value followed by the closes but the last. *)
Lemma day_opens_closes f m q :
  day_opens f m q ++ [f (q * m)%nat] = f O :: day_closes f m q.
Proof.
  induction q as [|q IH]; [done|].
  rewrite day_opens_S, day_closes_S, IH. simpl.
  by replace (m + q * m)%nat with (q * m + m)%nat by lia.
Qed.

Lemma day_values_written f m T d :
  (d < T)%nat ->
  day_values (written f (T * m) (T * m)) m d = day_slice f m d m.
Proof.
  intros H. unfold day_values, day_slice. rewrite written_full.
  assert (Hle : (d * m + m <= T * m)%nat).
  { assert ((S d) * m <= T * m)%nat by (apply Nat.mul_le_mono_r; lia).
    simpl in *. lia. }
  rewrite <- fmap_drop, <- fmap_take.
  change (fmap f) with (map f). f_equal.
  rewrite drop_seq, take_seq. f_equal. lia.
Qed.

(** ** Order facts on [np.max] and [np.min] *)

Lemma fold_left_Rmax_ge xs a : a <= fold_left Rmax xs a.
Proof.
  revert a. induction xs as [|x xs IH]; intros a; simpl; [lra|].
  etransitivity; [|apply IH]. apply Rmax_l.
Qed.

Lemma fold_left_Rmin_le xs a : fold_left Rmin xs a <= a.
Proof.
  revert a. induction xs as [|x xs IH]; intros a; simpl; [lra|].
  etransitivity; [apply IH|]. apply Rmin_l.
Qed.

Lemma Rmax_list_ge l x : In x l -> x <= Rmax_list l.
Proof.
  destruct l as [|a xs]; [done|]. simpl. revert a.
  induction xs as [|y ys IH]; intros a [->|Hin]; simpl.
  - lra.
  - done.
  - etransitivity; [|apply fold_left_Rmax_ge]. apply Rmax_l.
  - destruct Hin as [->|Hin].
    + etransitivity; [|apply fold_left_Rmax_ge]. apply Rmax_r.
    + apply IH. by right.
Qed.

Lemma Rmin_list_le l x : In x l -> Rmin_list l <= x.
Proof.
  destruct l as [|a xs]; [done|]. simpl. revert a.
  induction xs as [|y ys IH]; intros a [->|Hin]; simpl.
  - lra.
  - done.
  - etransitivity; [apply fold_left_Rmin_le|]. apply Rmin_l.
  - destruct Hin as [->|Hin].
    + etransitivity; [apply fold_left_Rmin_le|]. apply Rmin_r.
    + apply IH. by right.
Qed.

Lemma day_slice_close f m d :
  (0 < m)%nat -> In (f (d * m + m)%nat) (day_slice f m d m).
Proof.
  intros H. unfold day_slice. apply in_map_iff.
  exists (d * m + m)%nat. split; [done|]. apply in_seq. lia.
Qed.

(** ** What the generators return *)

Lemma gbm_generate_ok T dt S0 mu sigma spd seed g :
  (0 < spd)%Z -> (0 <= T)%Z ->
  let m := Z.to_nat spd in
  let g0 := after_seed seed g in
  let f := gbm_path S0 mu sigma (dt / IZR spd) (draws g0) in
  Gbm.generate_gbm_prices T dt S0 mu sigma spd seed g
  = Ok {| days := np_arange 1 (T + 1);
          open_prices := day_opens f m (Z.to_nat T);
          close_prices := day_closes f m (Z.to_nat T);
          high_prices := day_highs f m (Z.to_nat T);
          low_prices := day_lows f m (Z.to_nat T) |}
       (advance (Z.to_nat (T * spd)) g0).
Proof.
  intros Hspd HT m g0 f. unfold Gbm.generate_gbm_prices.
  erewrite bind_Ok by (by apply gbm_simulate_ok). done.
Qed.

Lemma svm_generate_ok T dt S0 v0 kappa theta sigma_v rho mu ev spd seed g :
  (0 < spd)%Z -> (0 <= T)%Z ->
  let m := Z.to_nat spd in
  let n := Z.to_nat (T * spd) in
  let g0 := after_seed seed g in
  let var := svm_var v0 kappa theta sigma_v (dt / IZR spd) (svm_z2 rho n g0) in
  let f := svm_path S0 mu ev (dt / IZR spd) spd var (draws g0) in
  Svm.generate_svm_prices T dt S0 v0 kappa theta sigma_v rho mu ev spd seed g
  = Ok {| days := np_arange 1 (T + 1);
          open_prices := day_opens f m (Z.to_nat T);
          close_prices := day_closes f m (Z.to_nat T);
          high_prices := day_highs f m (Z.to_nat T);
          low_prices := day_lows f m (Z.to_nat T) |}
       (advance (n + n) g0).
Proof.
  intros Hspd HT m n g0 var f. unfold Svm.generate_svm_prices.
  erewrite bind_Ok by (by apply svm_simulate_ok). done.
Qed.

(** Whenever a generator returns, the four columns are the bars of a
    price recurrence [f], at [m] sub-steps a day with [m] positive unless
    there is no day. *)
Lemma gbm_generate_inv T dt S0 mu sigma spd seed g p g' :
  Gbm.generate_gbm_prices T dt S0 mu sigma spd seed g = Ok p g' ->
  exists f m,
    f O = S0
    /\ ((0 < Z.to_nat T)%nat -> (0 < m)%nat)
    /\ open_prices p = day_opens f m (Z.to_nat T)
    /\ close_prices p = day_closes f m (Z.to_nat T)
    /\ high_prices p = day_highs f m (Z.to_nat T)
    /\ low_prices p = day_lows f m (Z.to_nat T).
Proof.
  unfold Gbm.generate_gbm_prices. intros H. inv_bind H.
  injection H as <- <-.
  pose proof (gbm_simulate_domain _ _ _ _ _ _ _ _ _ _ Hstep) as Hdom.
  apply gbm_simulate_inv in Hstep as [-> _].
  exists (gbm_path S0 mu sigma (dt / IZR spd) (draws (after_seed seed g))),
    (Z.to_nat spd).
  split; [reflexivity|]. split; [lia|done].
Qed.

Lemma svm_generate_inv T dt S0 v0 kappa theta sigma_v rho mu ev spd seed g
    p g' :
  Svm.generate_svm_prices T dt S0 v0 kappa theta sigma_v rho mu ev spd seed g
  = Ok p g' ->
  exists f m,
    f O = S0
    /\ ((0 < Z.to_nat T)%nat -> (0 < m)%nat)
    /\ open_prices p = day_opens f m (Z.to_nat T)
    /\ close_prices p = day_closes f m (Z.to_nat T)
    /\ high_prices p = day_highs f m (Z.to_nat T)
    /\ low_prices p = day_lows f m (Z.to_nat T).
Proof.
  unfold Svm.generate_svm_prices. intros H. inv_bind H.
  injection H as <- <-.
  pose proof (svm_simulate_domain _ _ _ _ _ _ _ _ _ _ _ _ _ _ _ Hstep) as Hdom.
  apply svm_simulate_inv in Hstep as [-> _].
  eexists (svm_path S0 mu ev (dt / IZR spd) spd _ (draws (after_seed seed g))),
    (Z.to_nat spd).
  split; [reflexivity|]. split; [lia|done].
Qed.

Lemma opens_follow_closes_intro S0 p x :
  open_prices p ++ [x] = S0 :: close_prices p -> opens_follow_closes S0 p.
Proof.
  intros H. split.
  - intros o Ho.
    assert (H0 : (open_prices p ++ [x]) !! O = Some o)
      by (by apply lookup_app_l_Some).
    rewrite H in H0. simpl in H0. congruence.
  - intros d o Ho.
    assert (H0 : (open_prices p ++ [x]) !! S d = Some o)
      by (by apply lookup_app_l_Some).
    rewrite H in H0. exact H0.
Qed.

Lemma bars_close_within f m q d c :
  ((0 < q)%nat -> (0 < m)%nat) ->
  day_closes f m q !! d = Some c ->
  exists h l, day_highs f m q !! d = Some h /\ day_lows f m q !! d = Some l
              /\ l <= c <= h.
Proof.
  intros Hm Hc.
  assert (Hd : (d < q)%nat)
    by (apply lookup_lt_Some in Hc; by rewrite length_day_closes in Hc).
  rewrite lookup_day_closes in Hc by done. injection Hc as <-.
  eexists _, _. split; [by apply lookup_day_highs|].
  split; [by apply lookup_day_lows|]. split.
  - apply Rmin_list_le, day_slice_close. lia.
  - apply Rmax_list_ge, day_slice_close. lia.
Qed.

(** The close of every bar lies between its low and its high, in every
    path either generator returns. *)
Lemma close_within_low_high T dt S0 mu sigma v0 kappa theta sigma_v rho ev
    spd seed g :
  (forall p g',
      Gbm.generate_gbm_prices T dt S0 mu sigma spd seed g = Ok p g' ->
      forall d c, close_prices p !! d = Some c ->
        exists h l, high_prices p !! d = Some h
                    /\ low_prices p !! d = Some l /\ l <= c <= h)
  /\ (forall p g',
        Svm.generate_svm_prices T dt S0 v0 kappa theta sigma_v rho mu ev spd
          seed g = Ok p g' ->
        forall d c, close_prices p !! d = Some c ->
          exists h l, high_prices p !! d = Some h
                      /\ low_prices p !! d = Some l /\ l <= c <= h).
Proof.
  split; intros p g' Hgen d c.
  - apply gbm_generate_inv in Hgen as (f & m & _ & Hm & _ & -> & -> & ->).
    by apply bars_close_within.
  - apply svm_generate_inv in Hgen as (f & m & _ & Hm & _ & -> & -> & ->).
    by apply bars_close_within.
Qed.

(** C10: either generator returns a path on a positive resolution and a
    non-negative number of days; and in every path either generator
    returns, the open of day 1 is the initial price [S0] and the open of
    every later day is the close of the day before.  The SV path has
    this for any bubble and crash arguments, so also across a
    crash-adjusted close. *)
Theorem open_is_previous_close T dt S0 mu sigma v0 kappa theta sigma_v rho
    ev spd seed g :
  ((0 < spd)%Z -> (0 <= T)%Z ->
   (exists p g',
       Gbm.generate_gbm_prices T dt S0 mu sigma spd seed g = Ok p g')
   /\ (exists p g',
         Svm.generate_svm_prices T dt S0 v0 kappa theta sigma_v rho mu ev
           spd seed g = Ok p g'))
  /\ (forall p g',
        Gbm.generate_gbm_prices T dt S0 mu sigma spd seed g = Ok p g' ->
        length (open_prices p) = Z.to_nat T
        /\ length (close_prices p) = Z.to_nat T
        /\ opens_follow_closes S0 p)
  /\ (forall p g',
        Svm.generate_svm_prices T dt S0 v0 kappa theta sigma_v rho mu ev spd
          seed g = Ok p g' ->
        length (open_prices p) = Z.to_nat T
        /\ length (close_prices p) = Z.to_nat T
        /\ opens_follow_closes S0 p).
Proof.
  split; [|split].
  - intros Hspd HT. split; eexists _, _;
      [by apply gbm_generate_ok | by apply svm_generate_ok].
  - intros p g' Hgen.
    apply gbm_generate_inv in Hgen as (f & m & Hf & _ & Ho & Hc & _).
    split; [rewrite Ho; apply length_day_opens|].
    split; [rewrite Hc; apply length_day_closes|].
    eapply opens_follow_closes_intro. rewrite Ho, Hc, <- Hf.
    apply day_opens_closes.
  - intros p g' Hgen.
    apply svm_generate_inv in Hgen as (f & m & Hf & _ & Ho & Hc & _).
    split; [rewrite Ho; apply length_day_opens|].
    split; [rewrite Hc; apply length_day_closes|].
    eapply opens_follow_closes_intro. rewrite Ho, Hc, <- Hf.
    apply day_opens_closes.
Qed.

(** ** A falling day *)

Lemma fold_left_Rmax_lt xs a o :
  a < o -> Forall (fun x => x < o) xs -> fold_left Rmax xs a < o.
Proof.
  revert a. induction xs as [|x xs IH]; intros a Ha Hxs; simpl; [done|].
  inversion Hxs; subst. apply IH; [|done]. by apply Rmax_lub_lt.
Qed.

Lemma Rmax_list_lt l o :
  l <> [] -> Forall (fun x => x < o) l -> Rmax_list l < o.
Proof.
  destruct l as [|a xs]; [done|]. intros _ H. inversion H; subst.
  by apply fold_left_Rmax_lt.
Qed.

Lemma gbm_path_falls S0 mu dt_intra z k :
  0 < S0 -> mu * dt_intra < 0 ->
  0 < gbm_path S0 mu 0 dt_intra z (S k) < S0.
Proof.
  intros HS0 Hmu.
  assert (Hstep : forall x, 0 < x -> forall j,
            0 < x * exp ((mu - 0.5 * 0 ^ 2) * dt_intra + 0 * sqrt dt_intra * z j) < x).
  { intros x Hx j.
    replace ((mu - 0.5 * 0 ^ 2) * dt_intra + 0 * sqrt dt_intra * z j)
      with (mu * dt_intra) by lra.
    pose proof (exp_pos (mu * dt_intra)) as Hpos.
    pose proof (exp_increasing _ _ Hmu) as Hlt. rewrite exp_0 in Hlt.
    split; nra. }
  induction k as [|k IH].
  - simpl. by apply Hstep.
  - change (gbm_path S0 mu 0 dt_intra z (S (S k)))
      with (gbm_path S0 mu 0 dt_intra z (S k)
            * exp ((mu - 0.5 * 0 ^ 2) * dt_intra + 0 * sqrt dt_intra * z (S k))).
    destruct IH as [IH1 IH2].
    pose proof (Hstep _ IH1 (S k)). lra.
Qed.

Lemma svm_var_zero dt_intra z2 k : svm_var 0 0 0 0 dt_intra z2 k = 0.
Proof.
  induction k as [|k IH]; [done|]. simpl. rewrite IH.
  destruct (Rlt_dec _ 0) as [|Hge]; [done|]. lra.
Qed.

Lemma svm_path_falls S0 mu dt_intra spd z1 k :
  0 < S0 -> mu * dt_intra < 0 ->
  0 < svm_path S0 mu no_events dt_intra spd (fun _ => 0) z1 (S k) < S0.
Proof.
  intros HS0 Hmu.
  assert (Hstep : forall x, 0 < x -> forall j,
            0 < svm_diffuse mu no_events dt_intra spd (Z.of_nat j) x 0 (z1 j)
                * crash_multiplier no_events spd (Z.of_nat j) < x).
  { intros x Hx j. unfold svm_diffuse, crash_multiplier, Svm.drift_today.
    cbn [no_events Svm.bubble_start Svm.crash_day].
    replace ((mu - 0.5 * 0) * dt_intra + sqrt (Rmax 0 0 * dt_intra) * z1 j)
      with (mu * dt_intra).
    2:{ rewrite Rmax_left by lra. rewrite Rmult_0_l, sqrt_0. lra. }
    pose proof (exp_pos (mu * dt_intra)) as Hpos.
    pose proof (exp_increasing _ _ Hmu) as Hlt. rewrite exp_0 in Hlt.
    split; nra. }
  induction k as [|k IH].
  - simpl. by apply Hstep.
  - change (svm_path S0 mu no_events dt_intra spd (fun _ => 0) z1 (S (S k)))
      with (svm_diffuse mu no_events dt_intra spd (Z.of_nat (S k))
              (svm_path S0 mu no_events dt_intra spd (fun _ => 0) z1 (S k))
              0 (z1 (S k))
            * crash_multiplier no_events spd (Z.of_nat (S k))).
    destruct IH as [IH1 IH2].
    pose proof (Hstep _ IH1 (S k)). lra.
Qed.

Lemma svm_path_var_ext S0 mu ev dt_intra spd var var' z1 k :
  (forall j, var j = var' j) ->
  svm_path S0 mu ev dt_intra spd var z1 k
  = svm_path S0 mu ev dt_intra spd var' z1 k.
Proof.
  intros H. induction k as [|k IH]; [done|]. simpl. by rewrite IH, H.
Qed.

(** C1, the failing input: one day at the default resolution with
    [S0 = 100], drift [mu = -1], no volatility and [dt = 1], for the GBM
    generator and for the SV generator without events.  Whatever the
    draws, the price falls at every sub-step, so the day's high (the
    maximum of the four sub-step prices) is below the day's open. *)
Theorem high_below_open (g : rng) :
  (exists p g',
      Gbm.generate_gbm_prices 1 1 100 (-1) 0 4 None g = Ok p g'
      /\ exists o h, open_prices p !! O = Some o
                     /\ high_prices p !! O = Some h
                     /\ h < o)
  /\ (exists p g',
        Svm.generate_svm_prices 1 1 100 0 0 0 0 0 (-1) no_events 4 None g
        = Ok p g'
        /\ exists o h, open_prices p !! O = Some o
                       /\ high_prices p !! O = Some h
                       /\ h < o).
Proof.
  split.
  - eexists _, _. split; [by apply gbm_generate_ok|].
    cbn [open_prices high_prices].
    eexists _, _. split; [by apply lookup_day_opens; lia|].
    split; [by apply lookup_day_highs; lia|].
    change (Z.to_nat 4) with 4%nat. cbn [Nat.mul gbm_path].
    apply Rmax_list_lt; [done|].
    unfold day_slice. cbn [Nat.mul Nat.add seq map].
    assert (H : forall k,
               gbm_path 100 (-1) 0 (1 / 4) (draws (after_seed None g)) (S k)
               < 100)
      by (intros k; apply gbm_path_falls; lra).
    repeat constructor; apply H.
  - eexists _, _. split; [by apply svm_generate_ok|].
    cbn [open_prices high_prices].
    eexists _, _. split; [by apply lookup_day_opens; lia|].
    split; [by apply lookup_day_highs; lia|].
    change (Z.to_nat 4) with 4%nat. cbn [Nat.mul svm_path].
    apply Rmax_list_lt; [done|].
    unfold day_slice. cbn [Nat.mul Nat.add seq map].
    assert (H : forall k,
               svm_path 100 (-1) no_events (1 / 4) 4
                 (svm_var 0 0 0 0 (1 / 4)
                    (svm_z2 0 (Z.to_nat (1 * 4)) (after_seed None g)))
                 (draws (after_seed None g)) (S k) < 100).
    { intros k.
      rewrite (svm_path_var_ext _ _ _ _ _ _ (fun _ => 0))
        by (intros j; apply svm_var_zero).
      apply svm_path_falls; lra. }
    repeat constructor; apply H.
Qed.

(** ** The cells of the SV arrays *)

Lemma svm_var_nonneg v0 kappa theta sigma_v dt_intra z2 k :
  0 <= svm_var v0 kappa theta sigma_v dt_intra z2 (S k).
Proof. simpl. destruct (Rlt_dec _ 0); lra. Qed.

Lemma svm_path_ext S0 mu ev ev' dt_intra spd var z1 n :
  (forall day, Svm.drift_today mu ev day = Svm.drift_today mu ev' day) ->
  (forall t, (t < n)%nat ->
     crash_multiplier ev spd (Z.of_nat t) = crash_multiplier ev' spd (Z.of_nat t)) ->
  forall k, (k <= n)%nat ->
    svm_path S0 mu ev dt_intra spd var z1 k
    = svm_path S0 mu ev' dt_intra spd var z1 k.
Proof.
  intros Hdrift Hcrash. induction k as [|k IH]; intros Hk; [done|].
  simpl. rewrite IH, Hcrash by lia. unfold svm_diffuse. by rewrite Hdrift.
Qed.

Lemma written_ext f f' n k :
  (forall j, (j <= k)%nat -> f j = f' j) -> written f n k = written f' n k.
Proof.
  intros H. unfold written. f_equal. apply map_ext_in.
  intros j Hj. apply in_seq in Hj. apply H. lia.
Qed.

Lemma svm_state_at_ext f f' var m T :
  (forall j, (j <= T * m)%nat -> f j = f' j) ->
  svm_state_at f var m (T * m) T 0 = svm_state_at f' var m (T * m) T 0.
Proof.
  intros H.
  assert (Hin : forall d, (d < T)%nat -> (d * m + m <= T * m)%nat).
  { intros d Hd.
    assert ((S d) * m <= T * m)%nat by (apply Nat.mul_le_mono_r; lia).
    simpl in *. lia. }
  assert (Hslice : forall d, (d < T)%nat -> day_slice f m d m = day_slice f' m d m).
  { intros d Hd. unfold day_slice. apply map_ext_in. intros j Hj.
    apply in_seq in Hj. apply H. specialize (Hin d Hd). lia. }
  unfold svm_state_at. f_equal.
  - apply written_ext. intros j Hj. apply H. lia.
  - unfold day_opens. apply map_ext_in. intros d Hd. apply in_seq in Hd.
    apply H. specialize (Hin d). lia.
  - unfold day_closes. apply map_ext_in. intros d Hd. apply in_seq in Hd.
    apply H. apply Hin. lia.
  - unfold day_highs. apply map_ext_in. intros d Hd. apply in_seq in Hd.
    f_equal. apply Hslice. lia.
  - unfold day_lows. apply map_ext_in. intros d Hd. apply in_seq in Hd.
    f_equal. apply Hslice. lia.
Qed.

Lemma svm_simulate_no_days dt S0 v0 kappa theta sigma_v rho mu ev spd seed g :
  (spd < 0)%Z ->
  Svm.simulate 0 dt S0 v0 kappa theta sigma_v rho mu ev spd seed g
  = Ok {| Svm.arr_S := [S0]; Svm.arr_v := [v0]; Svm.day_prices := [];
          Svm.opens := []; Svm.closes := []; Svm.highs := [];
          Svm.lows := [] |}
       (advance 0 (advance 0 (after_seed seed g))).
Proof. intros H. destruct spd as [|p|p]; try lia. by destruct seed. Qed.

Section SvmRun.
Variables (T : Z) (dt S0 v0 kappa theta sigma_v rho mu : R).
Variables (ev : Svm.events) (spd : Z) (seed : option Z) (g : rng).
Variables (st : Svm.state) (g' : rng).
Hypothesis Hrun :
  Svm.simulate T dt S0 v0 kappa theta sigma_v rho mu ev spd seed g
  = Ok st g'.

Let m := Z.to_nat spd.
Let n := Z.to_nat (T * spd).
Let g0 := after_seed seed g.
Let var := svm_var v0 kappa theta sigma_v (dt / IZR spd) (svm_z2 rho n g0).
Let f := svm_path S0 mu ev (dt / IZR spd) spd var (draws g0).

Lemma svm_run_state : st = svm_state_at f var m n (Z.to_nat T) 0.
Proof. by apply svm_simulate_inv in Hrun as [-> _]. Qed.

Lemma svm_run_domain : (0 < spd /\ 0 <= T)%Z \/ (spd < 0 /\ T = 0)%Z.
Proof. by eapply svm_simulate_domain. Qed.

Lemma svm_total_steps : n = (Z.to_nat T * m)%nat.
Proof.
  unfold n, m. destruct svm_run_domain as [[Hspd HT]|[Hspd ->]].
  - by rewrite Z2Nat.inj_mul by lia.
  - done.
Qed.

Lemma svm_run_S k : (k <= n)%nat -> Svm.arr_S st !! k = Some (f k).
Proof.
  intros Hk. rewrite svm_run_state. cbn [svm_state_at Svm.arr_S].
  apply lookup_written. rewrite <- svm_total_steps. lia.
Qed.

Lemma svm_run_v k : (k <= n)%nat -> Svm.arr_v st !! k = Some (var k).
Proof.
  intros Hk. rewrite svm_run_state. cbn [svm_state_at Svm.arr_v].
  apply lookup_written. rewrite <- svm_total_steps. lia.
Qed.

Lemma svm_run_length_v : length (Svm.arr_v st) = (n + 1)%nat.
Proof.
  rewrite svm_run_state. cbn [svm_state_at Svm.arr_v].
  apply length_written. rewrite <- svm_total_steps. lia.
Qed.

Lemma svm_run_bars (d : nat) :
  (Z.of_nat d < T)%Z ->
  Svm.opens st !! d = Svm.arr_S st !! (d * m)%nat
  /\ Svm.closes st !! d = Svm.arr_S st !! (d * m + m)%nat
  /\ Svm.highs st !! d = Some (Rmax_list (day_values (Svm.arr_S st) m d))
  /\ Svm.lows st !! d = Some (Rmin_list (day_values (Svm.arr_S st) m d)).
Proof.
  intros Hd. assert (Hd' : (d < Z.to_nat T)%nat) by lia.
  assert (Hle : (d * m + m <= n)%nat).
  { rewrite svm_total_steps.
    assert ((S d) * m <= Z.to_nat T * m)%nat by (apply Nat.mul_le_mono_r; lia).
    simpl in *. lia. }
  rewrite !svm_run_S by lia. rewrite svm_run_state.
  cbn [svm_state_at Svm.arr_S Svm.opens Svm.closes Svm.highs Svm.lows].
  rewrite svm_total_steps, Nat.add_0_r, day_values_written by done.
  split; [by apply lookup_day_opens|]. split; [by apply lookup_day_closes|].
  split; [by apply lookup_day_highs|]. by apply lookup_day_lows.
Qed.

Lemma svm_run_length_S : length (Svm.arr_S st) = (n + 1)%nat.
Proof.
  rewrite svm_run_state. cbn [svm_state_at Svm.arr_S].
  apply length_written. rewrite <- svm_total_steps. lia.
Qed.

Lemma svm_run_bar_lengths :
  length (Svm.opens st) = Z.to_nat T
  /\ length (Svm.closes st) = Z.to_nat T
  /\ length (Svm.highs st) = Z.to_nat T
  /\ length (Svm.lows st) = Z.to_nat T.
Proof.
  rewrite svm_run_state.
  cbn [svm_state_at Svm.opens Svm.closes Svm.highs Svm.lows].
  by rewrite length_day_opens, length_day_closes, length_day_highs,
    length_day_lows.
Qed.

(** Every sub-step of the final arrays: the cell [t + 1] of [v] is the
    floored update of the cell [t], and the cell [t + 1] of [S] is the
    diffusion of the cell [t] times the crash multiplier of [t]. *)
Lemma svm_run_cells (t : nat) :
  (Z.of_nat t < T * spd)%Z ->
  exists St vt,
    Svm.arr_S st !! t = Some St
    /\ Svm.arr_v st !! t = Some vt
    /\ Svm.arr_v st !! S t
       = Some (svm_var_next kappa theta sigma_v (dt / IZR spd) vt
                 (svm_z2 rho n g0 t))
    /\ Svm.arr_S st !! S t
       = Some (svm_diffuse mu ev (dt / IZR spd) spd (Z.of_nat t) St vt
                 (draws g0 t)
               * crash_multiplier ev spd (Z.of_nat t)).
Proof.
  intros Ht. assert (t < n)%nat by (unfold n; lia).
  exists (f t), (var t).
  split; [apply svm_run_S; lia|]. split; [apply svm_run_v; lia|].
  split; [apply svm_run_v; lia|]. apply svm_run_S; lia.
Qed.

(** When no sub-step has the crash multiplier of [ev] different from
    1, the run is the run without a crash day. *)
Lemma svm_run_without_crash :
  (forall t : nat, (Z.of_nat t < T * spd)%Z ->
      crash_multiplier ev spd (Z.of_nat t) = 1) ->
  Svm.simulate T dt S0 v0 kappa theta sigma_v rho mu (without_crash ev)
    spd seed g
  = Ok st g'.
Proof.
  intros Hnever. destruct svm_run_domain as [[Hspd HT]|[Hspd HT]].
  - rewrite <- Hrun. rewrite !svm_simulate_ok by done.
    fold m n g0 var. f_equal.
    rewrite svm_total_steps.
    apply svm_state_at_ext. intros j Hj.
    apply (svm_path_ext _ _ _ _ _ _ _ _ (Z.to_nat T * m)); [| |done].
    + intros day. done.
    + intros t Ht. rewrite <- svm_total_steps in Ht.
      rewrite Hnever by (unfold n in Ht; lia).
      unfold crash_multiplier. cbn [without_crash Svm.crash_day]. done.
  - rewrite <- Hrun. clear Hrun. subst T.
    by rewrite !svm_simulate_no_days.
Qed.
End SvmRun.

Lemma int_equals_inj a b p :
  int_equals a p = true -> int_equals b p = true -> a = b.
Proof.
  destruct p as [z|x]; simpl.
  - intros Ha Hb. apply Z.eqb_eq in Ha, Hb. congruence.
  - destruct (Req_dec_T (IZR a) x) as [Ha|]; [|done].
    destruct (Req_dec_T (IZR b) x) as [Hb|]; [|done].
    intros _ _. apply eq_IZR. congruence.
Qed.

Lemma crash_multiplier_set ev spd t c_day c_factor :
  Svm.crash_day ev = Some c_day ->
  Svm.crash_factor ev = Some c_factor ->
  crash_multiplier ev spd t
  = if int_equals (t + 1) (number_times_int c_day spd) then c_factor else 1.
Proof. intros Hday Hfactor. unfold crash_multiplier. by rewrite Hday, Hfactor. Qed.

(** The cell [t + 1] is the sub-step value number [t % m] of the day
    [t // m]. *)
Lemma day_values_lookup {A} (S : list A) (m t : nat) :
  (0 < m)%nat ->
  take m (drop ((t / m) * m + 1) S) !! (t mod m)%nat = S !! Datatypes.S t.
Proof.
  intros Hm.
  rewrite lookup_take_lt by (apply Nat.mod_upper_bound; lia).
  rewrite lookup_drop. f_equal.
  pose proof (Nat.div_mod_eq t m). lia.
Qed.

(** C3: on a positive resolution and a non-negative number of days the
    generator returns; and in every run that returns with [crash_day] and
    [crash_factor] both given, the arrays [S] and [v] have
    [T * steps_per_day + 1] cells and start at [S0] and [v0]; at every
    sub-step [t] the cell [v[t + 1]] holds the floored update of [v[t]]
    and the cell [S[t + 1]] holds the diffused price, multiplied by
    [crash_factor] when [t + 1 == crash_day * steps_per_day] and left as
    it is otherwise; at most one sub-step has that equality; there are [T]
    bars, each built from the final cells of its day, of which the cell
    [t + 1] is one; when the equality holds at the end of a day, as it
    does for a whole crash day [c] between 1 and [T], the adjusted cell is
    that day's close; and when the equality holds at no sub-step (the
    crash day lies beyond the interval, or its product with
    [steps_per_day] is no whole number) the run is the run without a
    crash day. *)
Theorem svm_crash_once T dt S0 v0 kappa theta sigma_v rho mu ev spd seed g
    c_day c_factor :
  Svm.crash_day ev = Some c_day ->
  Svm.crash_factor ev = Some c_factor ->
  ((0 < spd)%Z -> (0 <= T)%Z ->
   exists st g',
     Svm.simulate T dt S0 v0 kappa theta sigma_v rho mu ev spd seed g
     = Ok st g')
  /\ forall st g',
      Svm.simulate T dt S0 v0 kappa theta sigma_v rho mu ev spd seed g
      = Ok st g' ->
      let n := Z.to_nat (T * spd) in
      let m := Z.to_nat spd in
      let fires (t : nat) :=
        int_equals (Z.of_nat t + 1) (number_times_int c_day spd) in
      (length (Svm.arr_S st) = S n /\ length (Svm.arr_v st) = S n
       /\ Svm.arr_S st !! O = Some S0 /\ Svm.arr_v st !! O = Some v0)
      /\ (forall t : nat, (t < n)%nat ->
            exists St vt,
              Svm.arr_S st !! t = Some St
              /\ Svm.arr_v st !! t = Some vt
              /\ Svm.arr_v st !! S t
                 = Some (svm_var_next kappa theta sigma_v (dt / IZR spd) vt
                           (svm_z2 rho n (after_seed seed g) t))
              /\ Svm.arr_S st !! S t
                 = Some (if fires t
                         then svm_diffuse mu ev (dt / IZR spd) spd
                                (Z.of_nat t) St vt
                                (draws (after_seed seed g) t) * c_factor
                         else svm_diffuse mu ev (dt / IZR spd) spd
                                (Z.of_nat t) St vt
                                (draws (after_seed seed g) t)))
      /\ (forall t t' : nat, fires t = true -> fires t' = true -> t = t')
      /\ (length (Svm.opens st) = Z.to_nat T
          /\ length (Svm.closes st) = Z.to_nat T
          /\ length (Svm.highs st) = Z.to_nat T
          /\ length (Svm.lows st) = Z.to_nat T)
      /\ (forall d : nat, (d < Z.to_nat T)%nat ->
            Svm.opens st !! d = Svm.arr_S st !! (d * m)%nat
            /\ Svm.closes st !! d = Svm.arr_S st !! (d * m + m)%nat
            /\ Svm.highs st !! d
               = Some (Rmax_list (day_values (Svm.arr_S st) m d))
            /\ Svm.lows st !! d
               = Some (Rmin_list (day_values (Svm.arr_S st) m d)))
      /\ (forall t : nat, (t < n)%nat ->
            day_values (Svm.arr_S st) m (t / m) !! (t mod m)%nat
            = Svm.arr_S st !! S t)
      /\ (forall t : nat, (t < n)%nat -> fires t = true ->
            (t mod m)%nat = (m - 1)%nat ->
            Svm.closes st !! (t / m)%nat = Svm.arr_S st !! S t)
      /\ (forall c : Z, c_day = PyInt c -> (1 <= c <= T)%Z ->
            exists t : nat,
              (t < n)%nat /\ S t = Z.to_nat (c * spd) /\ fires t = true
              /\ (t / m)%nat = Z.to_nat (c - 1)
              /\ (t mod m)%nat = (m - 1)%nat)
      /\ ((forall t : nat, (t < n)%nat -> fires t = false) ->
          Svm.simulate T dt S0 v0 kappa theta sigma_v rho mu
            (without_crash ev) spd seed g
          = Ok st g').
Proof.
  intros Hday Hfactor. split.
  { intros Hspd HT. eexists _, _. by apply svm_simulate_ok. }
  intros st g' Hrun n m fires.
  pose proof (svm_run_domain _ _ _ _ _ _ _ _ _ _ _ _ _ _ _ Hrun) as Hdom.
  pose proof (svm_total_steps _ _ _ _ _ _ _ _ _ _ _ _ _ _ _ Hrun) as Hn.
  fold n m in Hn.
  assert (Hm : (0 < n)%nat -> (0 < m)%nat).
  { intros Hpos. destruct (Nat.eq_dec m 0%nat) as [Hm0|]; [|lia].
    rewrite Hm0, Nat.mul_0_r in Hn. lia. }
  assert (Hbars : forall d : nat, (d < Z.to_nat T)%nat ->
            Svm.opens st !! d = Svm.arr_S st !! (d * m)%nat
            /\ Svm.closes st !! d = Svm.arr_S st !! (d * m + m)%nat
            /\ Svm.highs st !! d
               = Some (Rmax_list (day_values (Svm.arr_S st) m d))
            /\ Svm.lows st !! d
               = Some (Rmin_list (day_values (Svm.arr_S st) m d))).
  { intros d Hd.
    apply (svm_run_bars _ _ _ _ _ _ _ _ _ _ _ _ _ _ _ Hrun d). lia. }
  assert (Hday_of : forall t, (t < n)%nat -> (t / m < Z.to_nat T)%nat).
  { intros t Ht. apply Nat.Div0.div_lt_upper_bound. lia. }
  split; [|split; [|split; [|split; [|split; [|split; [|split; [|split]]]]]]].
  - split; [rewrite (svm_run_length_S _ _ _ _ _ _ _ _ _ _ _ _ _ _ _ Hrun); lia|].
    split; [rewrite (svm_run_length_v _ _ _ _ _ _ _ _ _ _ _ _ _ _ _ Hrun); lia|].
    split; [apply (svm_run_S _ _ _ _ _ _ _ _ _ _ _ _ _ _ _ Hrun); lia|].
    apply (svm_run_v _ _ _ _ _ _ _ _ _ _ _ _ _ _ _ Hrun); lia.
  - intros t Ht.
    destruct (svm_run_cells _ _ _ _ _ _ _ _ _ _ _ _ _ _ _ Hrun t)
      as (St & vt & H1 & H2 & H3 & H4); [unfold n in Ht; lia|].
    exists St, vt. split; [done|]. split; [done|]. split; [exact H3|].
    rewrite H4, (crash_multiplier_set _ _ _ _ _ Hday Hfactor).
    unfold fires. destruct (int_equals _ _); [done|]. f_equal. lra.
  - intros t t' Ht Ht'.
    pose proof (int_equals_inj _ _ _ Ht Ht'). lia.
  - apply (svm_run_bar_lengths _ _ _ _ _ _ _ _ _ _ _ _ _ _ _ Hrun).
  - exact Hbars.
  - intros t Ht. apply day_values_lookup. apply Hm. lia.
  - intros t Ht _ Hend.
    destruct (Hbars (t / m)%nat (Hday_of t Ht)) as (_ & -> & _).
    f_equal. pose proof (Nat.div_mod_eq t m). pose proof (Hm ltac:(lia)). lia.
  - intros c -> Hc.
    destruct Hdom as [[Hspd HT]|[Hspd HT]]; [|lia].
    assert (Hm' : m = Z.to_nat spd) by done.
    exists (Z.to_nat (c * spd - 1)).
    assert (Hpos : (1 <= c * spd)%Z) by nia.
    split; [unfold n; nia|]. split; [lia|].
    split.
    { unfold fires. cbn [number_times_int int_equals]. apply Z.eqb_eq. lia. }
    assert (Hdecomp : Z.to_nat (c * spd - 1)
                      = (Z.to_nat (c - 1) * m + (m - 1))%nat)
      by (rewrite Hm'; nia).
    rewrite Hdecomp. split.
    + rewrite Nat.div_add_l by lia. rewrite Nat.div_small by lia. lia.
    + rewrite Nat.add_comm, Nat.Div0.mod_add. apply Nat.mod_small. lia.
  - intros Hnever.
    apply (svm_run_without_crash _ _ _ _ _ _ _ _ _ _ _ _ _ _ _ Hrun).
    intros t Ht. rewrite (crash_multiplier_set _ _ _ _ _ Hday Hfactor).
    fold (fires t). rewrite Hnever; [done|]. unfold n. lia.
Qed.

(** C4: on a positive resolution and a non-negative number of days the
    generator returns; and in every run that returns the arrays [S] and
    [v] start at [S0] and [v0], and at every sub-step [t] the cell
    [v[t + 1]] holds the floored update of [v[t]] and the cell [S[t + 1]]
    holds [S[t]] diffused with the drift [mu + bubble_mu_extra] when the
    three bubble arguments are given and the 1-based day
    [t // steps_per_day + 1] lies in [[bubble_start, bubble_end]], and
    with the drift [mu] when the day lies outside or when an argument is
    missing. *)
Theorem svm_bubble_drift T dt S0 v0 kappa theta sigma_v rho mu ev spd seed g :
  ((0 < spd)%Z -> (0 <= T)%Z ->
   exists st g',
     Svm.simulate T dt S0 v0 kappa theta sigma_v rho mu ev spd seed g
     = Ok st g')
  /\ forall st g',
      Svm.simulate T dt S0 v0 kappa theta sigma_v rho mu ev spd seed g
      = Ok st g' ->
      Svm.arr_S st !! O = Some S0
      /\ Svm.arr_v st !! O = Some v0
      /\ forall t : nat, (Z.of_nat t < T * spd)%Z ->
        exists St vt drift,
          Svm.arr_S st !! t = Some St
          /\ Svm.arr_v st !! t = Some vt
          /\ Svm.arr_v st !! S t
             = Some (svm_var_next kappa theta sigma_v (dt / IZR spd) vt
                       (svm_z2 rho (Z.to_nat (T * spd)) (after_seed seed g) t))
          /\ Svm.arr_S st !! S t
             = Some (St * exp ((drift - 0.5 * vt) * (dt / IZR spd)
                               + sqrt (Rmax vt 0 * (dt / IZR spd))
                                 * draws (after_seed seed g) t)
                     * crash_multiplier ev spd (Z.of_nat t))
          /\ let day := (Z.of_nat t / spd + 1)%Z in
             (forall b_start b_end extra,
                 Svm.bubble_start ev = Some b_start ->
                 Svm.bubble_end ev = Some b_end ->
                 Svm.bubble_mu_extra ev = Some extra ->
                 (b_start <= day <= b_end)%Z -> drift = mu + extra)
             /\ (forall b_start b_end,
                    Svm.bubble_start ev = Some b_start ->
                    Svm.bubble_end ev = Some b_end ->
                    ~ (b_start <= day <= b_end)%Z -> drift = mu)
             /\ (Svm.bubble_start ev = None \/ Svm.bubble_end ev = None
                 \/ Svm.bubble_mu_extra ev = None -> drift = mu).
Proof.
  split.
  { intros Hspd HT. eexists _, _. by apply svm_simulate_ok. }
  intros st g' Hrun.
  split; [apply (svm_run_S _ _ _ _ _ _ _ _ _ _ _ _ _ _ _ Hrun); lia|].
  split; [apply (svm_run_v _ _ _ _ _ _ _ _ _ _ _ _ _ _ _ Hrun); lia|].
  intros t Ht.
  destruct (svm_run_cells _ _ _ _ _ _ _ _ _ _ _ _ _ _ _ Hrun t Ht)
    as (St & vt & H1 & H2 & H3 & H4).
  exists St, vt, (Svm.drift_today mu ev (Z.of_nat t / spd + 1)).
  split; [done|]. split; [done|]. split; [exact H3|]. split; [exact H4|].
  cbv zeta. unfold Svm.drift_today. split; [|split].
  - intros b_start b_end extra -> -> -> [Hlo Hhi].
    destruct (Z.leb_spec b_start (Z.of_nat t / spd + 1)); [|lia].
    destruct (Z.leb_spec (Z.of_nat t / spd + 1) b_end); [|lia]. done.
  - intros b_start b_end -> -> Hout.
    destruct (Svm.bubble_mu_extra ev); [|done].
    destruct (Z.leb_spec b_start (Z.of_nat t / spd + 1)); [|done].
    destruct (Z.leb_spec (Z.of_nat t / spd + 1) b_end); [|done]. lia.
  - intros [-> | [Hend | Hextra]]; [done| |].
    + rewrite Hend. by destruct (Svm.bubble_start ev).
    + rewrite Hextra. by destruct (Svm.bubble_start ev), (Svm.bubble_end ev).
Qed.

(** C5, amended: on a positive resolution and a non-negative number of
    days the generator returns; and in every run that returns, for any
    arguments, [v] has [T * steps_per_day + 1] cells, the cell 0 is the
    argument [v0] as given, and every cell after it holds the update of
    the cell before it, floored: [0] when the update is negative, the
    update otherwise; so the comparison [v[k] < 0] fails on every cell
    after the first, and on all of [v] when [v0] is not negative. *)
Theorem svm_variance_floor T dt S0 v0 kappa theta sigma_v rho mu ev spd seed g :
  ((0 < spd)%Z -> (0 <= T)%Z ->
   exists st g',
     Svm.simulate T dt S0 v0 kappa theta sigma_v rho mu ev spd seed g
     = Ok st g')
  /\ forall st g',
      Svm.simulate T dt S0 v0 kappa theta sigma_v rho mu ev spd seed g
      = Ok st g' ->
      length (Svm.arr_v st) = (Z.to_nat (T * spd) + 1)%nat
      /\ Svm.arr_v st !! O = Some v0
      /\ (forall t : nat, (Z.of_nat t < T * spd)%Z ->
            exists vt v_new,
              Svm.arr_v st !! t = Some vt
              /\ v_new = vt + kappa * (theta - vt) * (dt / IZR spd)
                         + sigma_v * sqrt (Rmax vt 0 * (dt / IZR spd))
                           * svm_z2 rho (Z.to_nat (T * spd))
                               (after_seed seed g) t
              /\ Svm.arr_v st !! S t
                 = Some (if Rlt_dec v_new 0 then 0 else v_new))
      /\ (forall k x, Svm.arr_v st !! S k = Some x -> ~ (x < 0))
      /\ (0 <= v0 -> forall k x, Svm.arr_v st !! k = Some x -> ~ (x < 0)).
Proof.
  split.
  { intros Hspd HT. eexists _, _. by apply svm_simulate_ok. }
  intros st g' Hrun.
  pose proof (svm_run_length_v _ _ _ _ _ _ _ _ _ _ _ _ _ _ _ Hrun) as Hlen.
  pose proof (svm_run_v _ _ _ _ _ _ _ _ _ _ _ _ _ _ _ Hrun) as Hv.
  assert (Hcell : forall k x, Svm.arr_v st !! k = Some x ->
            x = svm_var v0 kappa theta sigma_v (dt / IZR spd)
                  (svm_z2 rho (Z.to_nat (T * spd)) (after_seed seed g)) k).
  { intros k x Hk. pose proof (lookup_lt_Some _ _ _ Hk) as Hlt.
    rewrite Hlen in Hlt. rewrite Hv in Hk by lia. congruence. }
  split; [exact Hlen|]. split; [apply Hv; lia|]. split; [|split].
  - intros t Ht.
    destruct (svm_run_cells _ _ _ _ _ _ _ _ _ _ _ _ _ _ _ Hrun t Ht)
      as (St & vt & _ & H2 & H3 & _).
    eexists vt, _. split; [exact H2|]. split; [reflexivity|]. exact H3.
  - intros k x Hk. apply Hcell in Hk as ->.
    pose proof (svm_var_nonneg v0 kappa theta sigma_v (dt / IZR spd)
                  (svm_z2 rho (Z.to_nat (T * spd)) (after_seed seed g)) k).
    lra.
  - intros Hv0 [|k] x Hk; apply Hcell in Hk as ->; [simpl; lra|].
    pose proof (svm_var_nonneg v0 kappa theta sigma_v (dt / IZR spd)
                  (svm_z2 rho (Z.to_nat (T * spd)) (after_seed seed g)) k).
    lra.
Qed.

(** ** parse_float *)

Section ParseFloat.
Context {B : Builtins}.

Let parse := parse_float.

Lemma parse_float_keeps_rng s g :
  match parse s g with
  | Ok _ g' => g' = g
  | Raise _ g' => g' = g
  end.
Proof.
  unfold parse, parse_float.
  destruct (float_of_Fraction_text s) as [[m| | |]|q]; try done;
    destruct (py_float s) as [[m'| | |]|x]; done.
Qed.

Lemma float_of_Fraction_text_inr s q x :
  py_Fraction s = inr q -> float_of_Fraction q = inr x ->
  float_of_Fraction_text s = inr x.
Proof. intros Hq Hx. unfold float_of_Fraction_text. by rewrite Hq. Qed.

Lemma float_of_Fraction_text_inl s e :
  py_Fraction s = inl e -> float_of_Fraction_text s = inl e.
Proof. intros He. unfold float_of_Fraction_text. by rewrite He. Qed.

(** [Fraction] accepts the text and the fraction fits a float. *)
Lemma parse_float_fraction s q x g :
  py_Fraction s = inr q -> float_of_Fraction q = inr x ->
  parse s g = Ok x g.
Proof.
  intros Hq Hx. unfold parse, parse_float.
  by rewrite (float_of_Fraction_text_inr _ _ _ Hq Hx).
Qed.

(** [Fraction] accepts the text and the fraction is too large for a
    float: the [OverflowError] of [float(q)] passes the [except] clause
    and [float(value_str)] is not tried. *)
Lemma parse_float_overflow s q g :
  py_Fraction s = inr q -> float_of_Fraction q = inl OverflowError ->
  parse s g = Raise OverflowError g.
Proof.
  intros Hq Hx. unfold parse, parse_float, float_of_Fraction_text.
  by rewrite Hq, Hx.
Qed.

Lemma parse_float_fallback s x g :
  (py_Fraction s = inl ZeroDivisionError
   \/ exists m, py_Fraction s = inl (ValueError m)) ->
  py_float s = inr x -> parse s g = Ok x g.
Proof.
  intros [H|[m H]] Hx; unfold parse, parse_float;
    by rewrite (float_of_Fraction_text_inl _ _ H), Hx.
Qed.

Lemma parse_float_fails_iff s g :
  parse s g = Raise (ValueError (MsgInvalidFormat s)) g
  <-> (float_of_Fraction_text s = inl ZeroDivisionError
       \/ exists m, float_of_Fraction_text s = inl (ValueError m))
      /\ exists m, py_float s = inl (ValueError m).
Proof.
  unfold parse, parse_float. split.
  - destruct (float_of_Fraction_text s) as [[m| | |]|q]; try done;
      destruct (py_float s) as [[m'| | |]|x]; try done; intros _;
      (split; [eauto | eauto]).
  - intros [[H|[m H]] [m' H']]; by rewrite H, H'.
Qed.

Lemma parse_float_fails s g :
  (py_Fraction s = inl ZeroDivisionError
   \/ exists m, py_Fraction s = inl (ValueError m)) ->
  (exists m, py_float s = inl (ValueError m)) ->
  parse s g = Raise (ValueError (MsgInvalidFormat s)) g.
Proof.
  intros HF Hf. apply parse_float_fails_iff. split; [|exact Hf].
  destruct HF as [H|[m H]]; [left|right; exists m];
    by apply float_of_Fraction_text_inl.
Qed.

(** The exceptions of [parse_float]: its own [ValueError], what
    [float(value_str)] raises besides a [ValueError], and what
    [float(Fraction(value_str))] raises besides [ValueError] and
    [ZeroDivisionError]. *)
Lemma parse_float_Raise_inv s g e g' :
  parse s g = Raise e g' ->
  g' = g
  /\ (e = ValueError (MsgInvalidFormat s)
      \/ (py_float s = inl e /\ forall m, e <> ValueError m)
      \/ (float_of_Fraction_text s = inl e
          /\ e <> ZeroDivisionError /\ forall m, e <> ValueError m)).
Proof.
  unfold parse, parse_float, raise, ret.
  destruct (float_of_Fraction_text s) as [[m| | |]|q] eqn:HF; try done.
  - destruct (py_float s) as [[m'| | |]|x] eqn:Hf; try done;
      intros [= <- <-]; split; try done; [by left|right; left..]; done.
  - destruct (py_float s) as [[m'| | |]|x] eqn:Hf; try done;
      intros [= <- <-]; split; try done; [by left|right; left..]; done.
  - intros [= <- <-]. split; [done|]. right. right. done.
  - intros [= <- <-]. split; [done|]. right. right. done.
Qed.
End ParseFloat.

(** A fraction below the overflow bound has its quotient as float. *)
Lemma float_of_Fraction_fits n d :
  d <> 0%Z -> (Z.abs n < float_overflow * Z.abs d)%Z ->
  float_of_Fraction {| numerator := n; denominator := d |}
  = inr (IZR n / IZR d).
Proof.
  intros Hd Hfit. unfold float_of_Fraction. cbn [numerator denominator].
  destruct (Z.eqb_spec d 0) as [|_]; [done|].
  destruct (Z.leb_spec (float_overflow * Z.abs d) (Z.abs n)) as [|_]; [lia|].
  reflexivity.
Qed.

(** A fraction at or beyond the bound overflows. *)
Lemma float_of_Fraction_overflows n d :
  d <> 0%Z -> (float_overflow * Z.abs d <= Z.abs n)%Z ->
  float_of_Fraction {| numerator := n; denominator := d |}
  = inl OverflowError.
Proof.
  intros Hd Hbig. unfold float_of_Fraction. cbn [numerator denominator].
  destruct (Z.eqb_spec d 0) as [|_]; [done|].
  destruct (Z.leb_spec (float_overflow * Z.abs d) (Z.abs n)) as [_|]; [|lia].
  reflexivity.
Qed.

(** [float(q)] raises nothing but [ZeroDivisionError] and
    [OverflowError]. *)
Lemma float_of_Fraction_inl q e :
  float_of_Fraction q = inl e -> e = ZeroDivisionError \/ e = OverflowError.
Proof.
  unfold float_of_Fraction. destruct (_ =? _)%Z; [intros [= <-]; by left|].
  destruct (_ <=? _)%Z; [intros [= <-]; by right|done].
Qed.

Lemma zero_denominator_not_float s :
  Fraction_decimal s = inl ZeroDivisionError ->
  exists m, float_decimal s = inl (ValueError m).
Proof.
  unfold Fraction_decimal, float_decimal, ratio_parts, decimal_parts.
  destruct (take_sign (strip s)) as [sign cs].
  destruct (take_digits cs) as [ds rest].
  destruct rest as [|c rest'].
  - destruct (is_nil ds); discriminate.
  - destruct (Ascii.ascii_dec c "/") as [->|Hne].
    + intros _. eauto.
    + destruct c as [[] [] [] [] [] [] [] []]; try done;
        cbn; repeat case_match; try done; eauto.
Qed.

(** ** The sort *)

Lemma insert_by_key_perm x l : insert_by_key x l ≡ₚ x :: l.
Proof.
  induction l as [|y l IH]; simpl; [done|].
  destruct (fst x <=? fst y)%Z; [done|].
  rewrite IH. apply Permutation_swap.
Qed.

Lemma sort_by_key_perm l : sort_by_key l ≡ₚ l.
Proof.
  induction l as [|x l IH]; simpl; [done|].
  rewrite insert_by_key_perm. by rewrite IH.
Qed.

Section ChainerFacts.
Context {B : Builtins}.

Lemma valid_well_ordered c : valid_config c -> well_ordered c.
Proof. by intros [H _]. Qed.

Lemma decorate_integer_days cfgs :
  Forall integer_days cfgs ->
  exists l, decorate cfgs = Completed l /\ map snd l = cfgs.
Proof.
  induction 1 as [|c cfgs (s & e & Hs & He) _ (l & IH & Hl)]; simpl.
  - by exists [].
  - rewrite Hs, IH. exists ((s, c) :: l). by rewrite <- Hl.
Qed.

Lemma sort_by_start_perm cfgs sorted :
  sort_by_start cfgs = Completed sorted -> sorted ≡ₚ cfgs.
Proof.
  unfold sort_by_start.
  assert (Hd : forall l, decorate cfgs = Completed l -> map snd l = cfgs).
  { induction cfgs as [|c cfgs IH]; simpl; intros l.
    - by intros [= <-].
    - destruct (py_int (cfg_start c)) as [e|key]; [done|].
      destruct (decorate cfgs) as [| |l']; try done.
      intros [= <-]. simpl. f_equal. by apply IH. }
  destruct (decorate cfgs) as [| |l]; try done.
  intros [= <-]. rewrite sort_by_key_perm. by rewrite (Hd l).
Qed.

Lemma sort_by_start_integer_days cfgs :
  Forall integer_days cfgs -> exists sorted, sort_by_start cfgs = Completed sorted.
Proof.
  intros H. destruct (decorate_integer_days cfgs H) as (l & Hl & _).
  unfold sort_by_start. rewrite Hl. eauto.
Qed.

(** ** Step 1 *)

Lemma collect_well_ordered cfgs idx :
  Forall well_ordered cfgs -> collect_intervals idx cfgs = Completed cfgs.
Proof.
  intros H. revert idx.
  induction H as [|c cfgs (s & e & Hs & He & Hlt) _ IH]; intros idx; simpl; [done|].
  rewrite Hs, He. destruct (Z.geb_spec s e); [lia|]. by rewrite IH.
Qed.

Lemma collect_Completed_inv cfgs idx l :
  collect_intervals idx cfgs = Completed l ->
  l = cfgs /\ Forall well_ordered cfgs.
Proof.
  revert idx l. induction cfgs as [|c cfgs IH]; intros idx l; simpl.
  - by intros [= <-].
  - destruct (py_int (cfg_start c)) as [[]|s] eqn:Hs; try done.
    destruct (py_int (cfg_end c)) as [[]|e] eqn:He; try done.
    destruct (Z.geb_spec s e); [done|].
    destruct (collect_intervals (S idx) cfgs) as [| |l'] eqn:Hrest; try done.
    intros [= <-]. destruct (IH _ _ Hrest) as [-> Hwo].
    split; [done|]. constructor; [|done]. exists s, e. repeat split; [done..|lia].
Qed.

Lemma collect_first_misordered pre c post idx :
  Forall well_ordered pre -> misordered c ->
  collect_intervals idx (pre ++ c :: post)
  = ShowError "Error" (MsgStartBeforeEnd (idx + length pre)).
Proof.
  intros Hpre (s & e & Hs & He & Hle). revert idx.
  induction Hpre as [|c' pre (s' & e' & Hs' & He' & Hlt) _ IH]; intros idx; simpl.
  - rewrite Hs, He. destruct (Z.geb_spec s e); [|lia].
    by rewrite Nat.add_0_r.
  - rewrite Hs', He'. destruct (Z.geb_spec s' e'); [lia|].
    rewrite IH. do 2 f_equal. lia.
Qed.

Lemma collect_misordered_stops cfgs idx :
  Exists misordered cfgs ->
  forall l, collect_intervals idx cfgs <> Completed l.
Proof.
  intros H. revert idx.
  induction H as [c cfgs (s & e & Hs & He & Hle)|c cfgs _ IH];
    intros idx l; simpl.
  - rewrite Hs, He. by destruct (Z.geb_spec s e); [|lia].
  - destruct (py_int (cfg_start c)) as [[]|s]; try done.
    destruct (py_int (cfg_end c)) as [[]|e]; try done.
    destruct (s >=? e)%Z; [done|].
    specialize (IH (S idx)).
    destruct (collect_intervals (S idx) cfgs) as [| |l']; try done.
    by destruct (IH l').
Qed.

(** ** Lengths *)

Lemma interval_length_valid c : well_ordered c -> (1 <= interval_length c)%Z.
Proof.
  intros (s & e & Hs & He & Hlt). unfold interval_length.
  rewrite Hs, He. lia.
Qed.

Lemma total_days_app l1 l2 :
  total_days (l1 ++ l2) = (total_days l1 + total_days l2)%Z.
Proof.
  induction l1 as [|c l1 IH]; simpl; [done|].
  unfold total_days in *. simpl. rewrite IH. lia.
Qed.

Lemma total_days_nonneg l : Forall well_ordered l -> (0 <= total_days l)%Z.
Proof.
  induction 1 as [|c l Hc _ IH]; [done|].
  apply interval_length_valid in Hc.
  change (total_days (c :: l)) with (interval_length c + total_days l)%Z. lia.
Qed.

Lemma total_days_pos l :
  Forall well_ordered l -> l <> [] -> (1 <= total_days l)%Z.
Proof.
  intros H Hne. destruct H as [|c l Hc Hl]; [done|].
  apply interval_length_valid in Hc. apply total_days_nonneg in Hl.
  change (total_days (c :: l)) with (interval_length c + total_days l)%Z. lia.
Qed.

Lemma total_days_perm l l' : l ≡ₚ l' -> total_days l = total_days l'.
Proof.
  induction 1 as [|c l l' _ IH|c c' l|l l' l'' _ IH1 _ IH2]; [done| | |congruence].
  - change (interval_length c + total_days l = interval_length c + total_days l')%Z.
    by rewrite IH.
  - change (interval_length c' + (interval_length c + total_days l)
            = interval_length c + (interval_length c' + total_days l))%Z.
    lia.
Qed.
End ChainerFacts.

(** ** The shape of a generated path *)

Lemma shift_shape (opens closes : list R) first x :
  opens ++ [x] = first :: closes -> opens <> [] ->
  exists os, opens = first :: os /\ closes = os ++ [x].
Proof.
  destruct opens as [|o os]; [done|]. simpl. intros [= -> <-] _. eauto.
Qed.

Lemma gbm_path_shape T dt S0 mu sigma spd seed g :
  (0 < spd)%Z -> (1 <= T)%Z ->
  exists p g' os x,
    Gbm.generate_gbm_prices T dt S0 mu sigma spd seed g = Ok p g'
    /\ days p = np_arange 1 (T + 1)
    /\ open_prices p = S0 :: os
    /\ close_prices p = os ++ [x]
    /\ length (close_prices p) = Z.to_nat T.
Proof.
  intros Hspd HT.
  set (f := gbm_path S0 mu sigma (dt / IZR spd) (draws (after_seed seed g))).
  destruct (shift_shape _ _ _ _ (day_opens_closes f (Z.to_nat spd) (Z.to_nat T)))
    as (os & Hos & Hcs).
  { intros Hnil. apply (f_equal length) in Hnil.
    rewrite length_day_opens in Hnil. simpl in Hnil. lia. }
  eexists _, _, os, _. split; [apply gbm_generate_ok; lia|].
  cbn [days open_prices close_prices].
  split; [done|]. split; [exact Hos|]. split; [exact Hcs|].
  apply length_day_closes.
Qed.

Lemma svm_path_shape T dt S0 v0 kappa theta sigma_v rho mu ev spd seed g :
  (0 < spd)%Z -> (1 <= T)%Z ->
  exists p g' os x,
    Svm.generate_svm_prices T dt S0 v0 kappa theta sigma_v rho mu ev spd seed g
    = Ok p g'
    /\ days p = np_arange 1 (T + 1)
    /\ open_prices p = S0 :: os
    /\ close_prices p = os ++ [x]
    /\ length (close_prices p) = Z.to_nat T.
Proof.
  intros Hspd HT.
  set (n := Z.to_nat (T * spd)). set (g0 := after_seed seed g).
  set (var := svm_var v0 kappa theta sigma_v (dt / IZR spd) (svm_z2 rho n g0)).
  set (f := svm_path S0 mu ev (dt / IZR spd) spd var (draws g0)).
  destruct (shift_shape _ _ _ _ (day_opens_closes f (Z.to_nat spd) (Z.to_nat T)))
    as (os & Hos & Hcs).
  { intros Hnil. apply (f_equal length) in Hnil.
    rewrite length_day_opens in Hnil. simpl in Hnil. lia. }
  eexists _, _, os, _. split; [apply svm_generate_ok; lia|].
  cbn [days open_prices close_prices].
  split; [done|]. split; [exact Hos|]. split; [exact Hcs|].
  apply length_day_closes.
Qed.

Lemma lift_inr {A} (r : exn + A) a g : r = inr a -> lift r g = Ok a g.
Proof. by intros ->. Qed.

Section Intervals.
Context {B : Builtins}.

Lemma optional_float_parses params key dflt g :
  parses_optional params key ->
  exists o, optional_float params key dflt g = Ok o g.
Proof.
  unfold parses_optional, optional_float, py_get.
  destruct (params !! key) as [text|]; [|by eexists].
  intros [x Hx]. simpl. erewrite bind_Ok by apply Hx. by eexists.
Qed.

Lemma initial_price_parses params last g :
  parses_plain_float (py_get params "Initial Stock Price (S0)" "100") ->
  exists S0, initial_price params last g = Ok S0 g
             /\ forall p, last = Some p -> S0 = p.
Proof.
  intros [x Hx]. destruct last as [p|]; simpl.
  - exists p. split; [done|]. by intros ? [= <-].
  - exists x. split; [by apply lift_inr|]. done.
Qed.

(** On a valid interval the [try] block yields a path of
    [interval_length] days that opens at [last] when there is one. *)
Lemma run_interval_valid i c last g :
  valid_config c ->
  exists path g' first os x,
    run_interval i c last g = Ok (Simulated (interval_length c) path) g'
    /\ days path = np_arange 1 (interval_length c + 1)
    /\ open_prices path = first :: os
    /\ close_prices path = os ++ [x]
    /\ length (close_prices path) = Z.to_nat (interval_length c)
    /\ forall p, last = Some p -> first = p.
Proof.
  intros [(s & e & Hs & He & Hlt) [[dt Hdt] Hmodel]].
  unfold run_interval, interval_length. rewrite Hs, He.
  erewrite bind_Ok by (by apply lift_inr).
  erewrite bind_Ok by (by apply lift_inr).
  destruct (Z.leb_spec (e - s) 0); [lia|].
  erewrite bind_Ok by apply Hdt.
  destruct Hmodel as [[Hm (HS0 & [mu Hmu] & [sigma Hsigma])]
                     |[Hm (HS0 & [v0 Hv0] & [kappa Hkappa] & [theta Htheta]
                           & [sigma_v Hsigma_v] & [rho Hrho] & [mu Hmu]
                           & [b_start Hb_start] & [b_end Hb_end]
                           & Hextra & Hcrash_day & Hcrash_factor)]].
  - rewrite Hm. rewrite decide_True by done.
    destruct (initial_price_parses (cfg_params c) last g HS0) as (S0 & HS0' & Hlast).
    erewrite bind_Ok by apply HS0'.
    erewrite bind_Ok by apply Hmu.
    erewrite bind_Ok by apply Hsigma.
    destruct (gbm_path_shape (e - s) dt S0 mu sigma 4 None g)
      as (p & g' & os & x & Hgen & Hdays & Ho & Hc & Hlen); [lia|lia|].
    erewrite bind_Ok by apply Hgen.
    exists p, g', S0, os, x. done.
  - rewrite Hm. rewrite decide_False by done. rewrite decide_True by done.
    destruct (initial_price_parses (cfg_params c) last g HS0) as (S0 & HS0' & Hlast).
    erewrite bind_Ok by apply HS0'.
    erewrite bind_Ok by apply Hv0.
    erewrite bind_Ok by apply Hkappa.
    erewrite bind_Ok by apply Htheta.
    erewrite bind_Ok by apply Hsigma_v.
    erewrite bind_Ok by apply Hrho.
    erewrite bind_Ok by apply Hmu.
    erewrite bind_Ok by (by apply lift_inr).
    erewrite bind_Ok by (by apply lift_inr).
    destruct (optional_float_parses _ _ "0.15" g Hextra) as [extra Hextra'].
    erewrite bind_Ok by apply Hextra'.
    assert (exists c_day,
               match cfg_params c !! "Crash Day" with
               | Some text => lift (py_int text)
               | None => ret b_end
               end g = Ok c_day g) as [c_day Hc_day].
    { destruct (cfg_params c !! "Crash Day") as [text|]; [|by eexists].
      destruct Hcrash_day as [z Hz]. exists z. by apply lift_inr. }
    erewrite bind_Ok by apply Hc_day.
    destruct (optional_float_parses _ _ "0.70" g Hcrash_factor) as [factor Hfactor'].
    erewrite bind_Ok by apply Hfactor'.
    destruct (svm_path_shape (e - s) dt S0 v0 kappa theta sigma_v rho mu
                {| Svm.bubble_start := Some b_start;
                   Svm.bubble_end := Some b_end;
                   Svm.bubble_mu_extra := extra;
                   Svm.crash_day := Some (PyInt c_day);
                   Svm.crash_factor := factor |} 4 None g)
      as (p & g' & os & x & Hgen & Hdays & Ho & Hc & Hlen); [lia|lia|].
    erewrite bind_Ok by apply Hgen.
    exists p, g', S0, os, x. done.
Qed.

Lemma lift_Ok_inv {A} (r : exn + A) g a g1 :
  lift r g = Ok a g1 -> r = inr a /\ g1 = g.
Proof. destruct r as [e|a']; [done|]. by intros [= <- <-]. Qed.

Lemma initial_price_Ok_inv params last g S0 g1 :
  initial_price params last g = Ok S0 g1 ->
  forall p, last = Some p -> S0 = p.
Proof. intros H p ->. simpl in H. by injection H as <- <-. Qed.

(** Whenever the [try] block yields a path, the interval passes step 1,
    and the path has [interval_length] days and opens at [last] when
    there is one. *)
Lemma run_interval_Simulated i c last g T path g' :
  run_interval i c last g = Ok (Simulated T path) g' ->
  well_ordered c
  /\ T = interval_length c
  /\ days path = np_arange 1 (T + 1)
  /\ exists first os x,
      open_prices path = first :: os
      /\ close_prices path = os ++ [x]
      /\ length (close_prices path) = Z.to_nat T
      /\ forall p, last = Some p -> first = p.
Proof.
  unfold run_interval, interval_length, well_ordered. intros H.
  do 2 inv_bind H.
  apply lift_Ok_inv in Hstep as [Hs ->].
  apply lift_Ok_inv in Hstep0 as [He ->].
  rewrite Hs, He.
  destruct (Z.leb_spec (a0 - a) 0) as [|HT]; [done|].
  inv_bind H.
  destruct (decide (cfg_model c = "Geometric Brownian Motion (GBM)")).
  - do 4 inv_bind H. injection H as <- <- <-.
    match goal with
    | Hp : initial_price _ _ _ = Ok _ _ |- _ =>
        pose proof (initial_price_Ok_inv _ _ _ _ _ Hp) as Hlast
    end.
    match goal with
    | Hg : Gbm.generate_gbm_prices ?T ?dt ?S0 ?mu ?sigma 4 None ?g0 = Ok _ _
      |- _ =>
        destruct (gbm_path_shape T dt S0 mu sigma 4 None g0)
          as (p & g'' & os & x & Hgen & Hdays & Ho & Hc & Hlen); [lia|lia|];
        rewrite Hgen in Hg; injection Hg as <- <-
    end.
    split; [exists a, a0; split; [done|]; split; [done|lia]|].
    split; [done|]. split; [done|]. eexists _, os, x. eauto.
  - destruct (decide (cfg_model c = "Stochastic Volatility Model (Heston)"));
      [|done].
    do 13 inv_bind H. injection H as <- <- <-.
    match goal with
    | Hp : initial_price _ _ _ = Ok _ _ |- _ =>
        pose proof (initial_price_Ok_inv _ _ _ _ _ Hp) as Hlast
    end.
    match goal with
    | Hg : Svm.generate_svm_prices ?T ?dt ?S0 ?v0 ?kappa ?theta ?sigma_v
             ?rho ?mu ?ev 4 None ?g0 = Ok _ _ |- _ =>
        destruct (svm_path_shape T dt S0 v0 kappa theta sigma_v rho mu ev
                    4 None g0)
          as (p & g'' & os & x & Hgen & Hdays & Ho & Hc & Hlen); [lia|lia|];
        rewrite Hgen in Hg; injection Hg as <- <-
    end.
    split; [exists a, a0; split; [done|]; split; [done|lia]|].
    split; [done|]. split; [done|]. eexists _, os, x. eauto.
Qed.
End Intervals.

(** ** The day numbers *)

Lemma py_range_from_1 k :
  py_range 1 (1 + Z.of_nat k) = map Z.of_nat (seq 1 k).
Proof.
  rewrite py_range_nat, <- (fmap_S_seq 0).
  change (fmap S) with (map S). rewrite map_map.
  apply map_ext. intros j. lia.
Qed.

Lemma offset_days_split off a b :
  (0 <= a)%Z -> (0 <= b)%Z ->
  map (fun d => (d + off)%Z) (py_range 1 (1 + (a + b)))
  = map (fun d => (d + off)%Z) (py_range 1 (a + 1))
    ++ map (fun d => (d + (off + a))%Z) (py_range 1 (1 + b)).
Proof.
  intros Ha Hb.
  replace (a + 1)%Z with (1 + Z.of_nat (Z.to_nat a))%Z by lia.
  replace (1 + b)%Z with (1 + Z.of_nat (Z.to_nat b))%Z by lia.
  replace (1 + (a + b))%Z with (1 + Z.of_nat (Z.to_nat a + Z.to_nat b))%Z by lia.
  assert (Hseq : forall ka kb, seq (0 + ka) kb = map (Nat.add ka) (seq 0 kb)).
  { intros ka kb. change (map (Nat.add ka)) with (fmap (M := list) (Nat.add ka)).
    rewrite fmap_add_seq. f_equal. lia. }
  rewrite !py_range_nat, seq_app, Hseq, !map_app, !map_map. f_equal.
  apply map_ext. intros j. lia.
Qed.

Section Chain.
Context {B : Builtins}.

Lemma append_path_run acc T path os x g :
  close_prices path = os ++ [x] ->
  append_path acc T path g
  = Ok {| overall :=
            {| Day := Day (overall acc)
                      ++ map (fun d => (d + current_offset acc)%Z) (days path);
               Open := Open (overall acc) ++ open_prices path;
               Close := Close (overall acc) ++ close_prices path;
               High := High (overall acc) ++ high_prices path;
               Low := Low (overall acc) ++ low_prices path |};
          last_price := Some x;
          current_offset := (current_offset acc + T)%Z |} g.
Proof.
  intros Hc. unfold append_path.
  erewrite bind_Ok by (rewrite Hc; apply np_get_last). done.
Qed.

Lemma chained_append acc T path first os x :
  chained acc ->
  open_prices path = first :: os ->
  close_prices path = os ++ [x] ->
  (forall p, last_price acc = Some p -> first = p) ->
  chained
    {| overall :=
         {| Day := Day (overall acc)
                   ++ map (fun d => (d + current_offset acc)%Z) (days path);
            Open := Open (overall acc) ++ open_prices path;
            Close := Close (overall acc) ++ close_prices path;
            High := High (overall acc) ++ high_prices path;
            Low := Low (overall acc) ++ low_prices path |};
       last_price := Some x;
       current_offset := (current_offset acc + T)%Z |}.
Proof.
  intros Hacc Ho Hc Hfirst. unfold chained in *. cbn.
  rewrite Ho, Hc.
  destruct (last_price acc) as [p|].
  - destruct Hacc as (first0 & rest & HO & HC).
    rewrite (Hfirst p eq_refl), HO, HC.
    exists first0, (rest ++ p :: os). split; [done|].
    by rewrite <- !app_assoc.
  - destruct Hacc as [-> ->]. by exists first, os.
Qed.

(** Whenever the main loop completes, the intervals pass step 1, the
    chain stays continuous, and the new days are numbered after the
    ones it had. *)
Lemma simulate_intervals_Completed icfgs :
  forall i acc g acc' g',
    simulate_intervals i icfgs acc g = (g', Completed acc') ->
    chained acc ->
    Forall well_ordered icfgs
    /\ chained acc'
    /\ Day (overall acc')
       = Day (overall acc)
         ++ map (fun d => (d + current_offset acc)%Z)
              (py_range 1 (1 + total_days icfgs))
    /\ length (Close (overall acc'))
       = (length (Close (overall acc)) + Z.to_nat (total_days icfgs))%nat
    /\ (icfgs <> [] -> is_Some (last_price acc')).
Proof.
  induction icfgs as [|c icfgs IH]; intros i acc g acc' g'; simpl.
  - intros [= <- <-] Hacc. rewrite app_nil_r, Nat.add_0_r. done.
  - destruct (run_interval i c (last_price acc) g)
      as [[title m|T path] g1|[] g1] eqn:Hrun; try done.
    apply run_interval_Simulated in Hrun
      as (Hwo & -> & Hdays & first & os & x & Ho & Hcl & Hlen & Hfirst).
    rewrite (append_path_run acc _ path os x g1 Hcl).
    intros Hsim Hacc.
    pose proof (chained_append acc (interval_length c) path first os x
                  Hacc Ho Hcl Hfirst) as Hacc1.
    destruct (IH _ _ _ _ _ Hsim Hacc1) as (Hrest & Hch & HDay & HLen & Hlast).
    pose proof (interval_length_valid c Hwo) as HT.
    pose proof (total_days_nonneg icfgs Hrest) as Htot.
    split; [by constructor|]. split; [exact Hch|].
    cbn [overall Day Close current_offset] in HDay, HLen.
    change (total_days (c :: icfgs))
      with (interval_length c + total_days icfgs)%Z.
    split; [|split].
    + rewrite HDay, Hdays, <- app_assoc. f_equal.
      unfold np_arange. by rewrite offset_days_split by lia.
    + rewrite HLen, length_app, Hlen. lia.
    + intros _. destruct icfgs as [|c' icfgs'].
      * simpl in Hsim. injection Hsim as <- <-. by eexists.
      * by apply Hlast.
Qed.

(** On valid intervals the main loop completes. *)
Lemma simulate_intervals_valid icfgs :
  Forall valid_config icfgs ->
  forall i acc g,
    exists acc' g', simulate_intervals i icfgs acc g = (g', Completed acc').
Proof.
  induction 1 as [|c icfgs Hc Hrest IH]; intros i acc g.
  - by exists acc, g.
  - destruct (run_interval_valid i c (last_price acc) g Hc)
      as (path & g1 & first & os & x & Hrun & _ & _ & Hcl & _).
    simpl. rewrite Hrun.
    rewrite (append_path_run acc _ path os x g1 Hcl). apply IH.
Qed.

(** Whenever [run_simulation] completes, it stores the chain the main
    loop built over the sorted intervals: continuous, with consecutive
    day numbers. *)
Lemma run_simulation_Completed cfgs g series g' :
  run_simulation cfgs g = (g', Completed series) ->
  exists sorted acc,
    sort_by_start cfgs = Completed sorted
    /\ sorted ≡ₚ cfgs
    /\ Forall well_ordered cfgs
    /\ series = overall acc
    /\ chained acc
    /\ Day (overall acc) = py_range 1 (1 + total_days cfgs)
    /\ length (Close (overall acc)) = Z.to_nat (total_days cfgs)
    /\ (cfgs <> [] -> is_Some (last_price acc)).
Proof.
  unfold run_simulation.
  destruct (collect_intervals 1 cfgs) as [| |l] eqn:Hcollect; try done.
  apply collect_Completed_inv in Hcollect as [-> Hwo].
  destruct (sort_by_start cfgs) as [| |sorted] eqn:Hsort; try done.
  pose proof (sort_by_start_perm cfgs sorted Hsort) as Hperm.
  destruct (simulate_intervals 1 sorted initial_chain g)
    as [g1 [| |acc]] eqn:Hsim; try done.
  intros [= <- <-].
  destruct (simulate_intervals_Completed _ _ _ _ _ _ Hsim)
    as (_ & Hch & HDay & HLen & Hlast); [by split|].
  exists sorted, acc. split; [done|]. split; [done|]. split; [done|].
  split; [done|]. split; [done|].
  rewrite <- (total_days_perm _ _ Hperm).
  split; [|split].
  - rewrite HDay. simpl. rewrite <- (map_id (py_range _ _)) at 2.
    apply map_ext. intros d. lia.
  - rewrite HLen. done.
  - intros Hne. apply Hlast. intros ->.
    apply Permutation_nil_l in Hperm. done.
Qed.

(** On valid intervals [run_simulation] completes. *)
Lemma run_simulation_valid cfgs g :
  Forall valid_config cfgs ->
  exists series g', run_simulation cfgs g = (g', Completed series).
Proof.
  intros Hvalid.
  assert (Hwo : Forall well_ordered cfgs)
    by (eapply Forall_impl; [exact Hvalid|apply valid_well_ordered]).
  assert (Hint : Forall integer_days cfgs).
  { eapply Forall_impl; [exact Hwo|].
    intros c (s & e & Hs & He & _). by exists s, e. }
  destruct (sort_by_start_integer_days cfgs Hint) as [sorted Hsort].
  pose proof (sort_by_start_perm cfgs sorted Hsort) as Hperm.
  assert (Hvalid' : Forall valid_config sorted)
    by (eapply Permutation_Forall; [symmetry; exact Hperm|exact Hvalid]).
  destruct (simulate_intervals_valid sorted Hvalid' 1%nat initial_chain g)
    as (acc & g' & Hsim).
  exists (overall acc), g'.
  unfold run_simulation. by rewrite collect_well_ordered, Hsort, Hsim.
Qed.
End Chain.

Section ChainClaims.
Context {B : Builtins}.

(** C6: on valid intervals the run completes; and whenever the run
    completes, the day column of the series it stores is 1, 2, ..., up
    to the sum of the interval lengths. *)
Theorem global_days_consecutive cfgs g :
  (Forall valid_config cfgs ->
   exists series g', run_simulation cfgs g = (g', Completed series))
  /\ forall series g',
      run_simulation cfgs g = (g', Completed series) ->
      Day series = map Z.of_nat (seq 1 (Z.to_nat (total_days cfgs))).
Proof.
  split; [apply run_simulation_valid|].
  intros series g' Hrun.
  destruct (run_simulation_Completed cfgs g series g' Hrun)
    as (sorted & acc & _ & _ & Hwo & -> & _ & HDay & _).
  rewrite HDay, <- py_range_from_1. f_equal.
  pose proof (total_days_nonneg cfgs Hwo). lia.
Qed.

(** C2: on valid intervals the run completes; and whenever the run
    completes, wherever the sorted list splits into a non-empty front
    [l1] and an interval [c] after it, the open of the first day of [c]
    in the series (position [total_days l1], counting from 0) is the
    close of the day before, the last day of the interval in front of
    [c]. *)
Theorem chain_continuity cfgs g :
  (Forall valid_config cfgs ->
   exists series g', run_simulation cfgs g = (g', Completed series))
  /\ forall series g',
      run_simulation cfgs g = (g', Completed series) ->
      exists sorted,
        sort_by_start cfgs = Completed sorted
        /\ forall l1 c l2, sorted = l1 ++ c :: l2 -> l1 <> [] ->
             exists x,
               Open series !! Z.to_nat (total_days l1) = Some x
               /\ Close series !! (Z.to_nat (total_days l1) - 1)%nat
                  = Some x.
Proof.
  split; [apply run_simulation_valid|].
  intros series g' Hrun.
  destruct (run_simulation_Completed cfgs g series g' Hrun)
    as (sorted & acc & Hsort & Hperm & Hwo & -> & Hch & _ & HLen & Hlast).
  exists sorted. split; [exact Hsort|].
  intros l1 c l2 -> Hne.
  eapply Permutation_Forall in Hwo; [|symmetry; exact Hperm].
  apply Forall_app in Hwo as [Hwo1 Hwo2].
  pose proof (total_days_pos l1 Hwo1 Hne) as H1.
  assert (H2 : (1 <= total_days (c :: l2))%Z) by (by apply total_days_pos).
  rewrite <- (total_days_perm _ _ Hperm), total_days_app in HLen.
  unfold chained in Hch.
  destruct Hlast as [p Hp].
  { intros ->. apply Permutation_nil_r in Hperm. by destruct l1. }
  rewrite Hp in Hch. destruct Hch as (first & rest & HO & HC).
  rewrite HC, length_app in HLen. cbn [length] in HLen.
  assert (Hlt : (Z.to_nat (total_days l1) - 1 < length rest)%nat) by lia.
  destruct (lookup_lt_is_Some_2 rest _ Hlt) as [x Hx].
  exists x. rewrite HO, HC. split.
  - replace (Z.to_nat (total_days l1))
      with (S (Z.to_nat (total_days l1) - 1)) by lia.
    exact Hx.
  - by apply lookup_app_l_Some.
Qed.

(** C9: a run over a list that holds an interval with integer days
    and [end_day <= start_day] draws nothing from the random source and
    does not complete, so [self.simulation_results] keeps what it held;
    when the intervals in front of it pass the check of step 1, the run
    ends with the error box "Start day must be < End day." for the
    1-based position of that interval. *)
Theorem misordered_interval_aborts cfgs g old :
  Exists misordered cfgs ->
  fst (run_simulation cfgs g) = g
  /\ (forall series, snd (run_simulation cfgs g) <> Completed series)
  /\ simulation_results_after old (snd (run_simulation cfgs g)) = old
  /\ forall pre c post,
       cfgs = pre ++ c :: post -> Forall well_ordered pre -> misordered c ->
       run_simulation cfgs g
       = (g, ShowError "Error" (MsgStartBeforeEnd (S (length pre)))).
Proof.
  intros Hbad.
  pose proof (collect_misordered_stops cfgs 1 Hbad) as Hstop.
  unfold run_simulation.
  destruct (collect_intervals 1 cfgs) as [title m|e|l] eqn:Hcollect.
  - split; [done|]. split; [done|]. split; [done|].
    intros pre c post -> Hpre Hc.
    rewrite (collect_first_misordered pre c post 1 Hpre Hc) in Hcollect.
    by injection Hcollect as <- <-.
  - split; [done|]. split; [done|]. split; [done|].
    intros pre c post -> Hpre Hc.
    by rewrite (collect_first_misordered pre c post 1 Hpre Hc) in Hcollect.
  - by destruct (Hstop l).
Qed.
End ChainClaims.

(** ** Exceptions of the [try] block *)

Lemma keeps_rng_ret {A} (a : A) : keeps_rng (ret a).
Proof. intros g. left. by exists a. Qed.

Lemma keeps_rng_lift {A} (r : exn + A) : keeps_rng (lift r).
Proof. intros g. destruct r as [e|a]; [right|left]; by eexists. Qed.

Lemma keeps_rng_bind {A C} (c : M A) (k : A -> M C) :
  keeps_rng c -> (forall a, keeps_rng (k a)) -> keeps_rng (bind c k).
Proof.
  intros Hc Hk g. unfold bind.
  destruct (Hc g) as [[a ->]|[e ->]]; [apply Hk|]. right. by eexists.
Qed.

Lemma raises_before_draw_ret {A} (a : A) : raises_before_draw (ret a).
Proof. by intros g e g'. Qed.

Lemma raises_before_draw_bind {A C} (c : M A) (k : A -> M C) :
  keeps_rng c -> (forall a, raises_before_draw (k a)) ->
  raises_before_draw (bind c k).
Proof.
  intros Hc Hk g e g'. unfold bind.
  destruct (Hc g) as [[a ->]|[e' ->]]; [apply Hk|]. by intros [= _ <-].
Qed.

Lemma raises_before_draw_total {A} (c : M A) :
  (forall g, exists a g', c g = Ok a g') -> raises_before_draw c.
Proof. intros Hc g e g' Hraise. destruct (Hc g) as (a & g1 & H). congruence. Qed.

Section TryBlock.
Context {B : Builtins}.

Lemma keeps_rng_parse_float s : keeps_rng (parse_float s).
Proof.
  intros g. pose proof (parse_float_keeps_rng s g) as H.
  destruct (parse_float s g) as [x g'|e g']; subst; [left|right]; by eexists.
Qed.

Lemma keeps_rng_initial_price params last :
  keeps_rng (initial_price params last).
Proof.
  destruct last; [apply keeps_rng_ret|apply keeps_rng_lift].
Qed.

Lemma keeps_rng_optional_float params key dflt :
  keeps_rng (optional_float params key dflt).
Proof.
  unfold optional_float. destruct (params !! key); [|apply keeps_rng_ret].
  apply keeps_rng_bind; [apply keeps_rng_parse_float|].
  intros x. apply keeps_rng_ret.
Qed.

(** An exception of the [try] block is raised before the interval's
    generator is called, with the random source untouched. *)
Lemma run_interval_raises_before_draw i c last :
  raises_before_draw (run_interval i c last).
Proof.
  unfold run_interval.
  apply raises_before_draw_bind; [apply keeps_rng_lift|intros start_day].
  apply raises_before_draw_bind; [apply keeps_rng_lift|intros end_day].
  destruct (Z.leb_spec (end_day - start_day) 0) as [|HT];
    [apply raises_before_draw_ret|].
  apply raises_before_draw_bind; [apply keeps_rng_parse_float|intros dt].
  destruct (decide (cfg_model c = "Geometric Brownian Motion (GBM)")).
  - apply raises_before_draw_bind; [apply keeps_rng_initial_price|intros S0].
    apply raises_before_draw_bind; [apply keeps_rng_parse_float|intros mu].
    apply raises_before_draw_bind; [apply keeps_rng_parse_float|intros sigma].
    apply raises_before_draw_total. intros g.
    destruct (gbm_path_shape (end_day - start_day) dt S0 mu sigma 4 None g)
      as (p & g' & _ & _ & Hgen & _); [lia|lia|].
    eexists _, g'. by erewrite bind_Ok by apply Hgen.
  - destruct (decide (cfg_model c = "Stochastic Volatility Model (Heston)"));
      [|apply raises_before_draw_ret].
    apply raises_before_draw_bind; [apply keeps_rng_initial_price|intros S0].
    do 6 (apply raises_before_draw_bind; [apply keeps_rng_parse_float|intros ?]).
    apply raises_before_draw_bind; [apply keeps_rng_lift|intros b_start].
    apply raises_before_draw_bind; [apply keeps_rng_lift|intros b_end].
    apply raises_before_draw_bind; [apply keeps_rng_optional_float|intros extra].
    apply raises_before_draw_bind.
    { destruct (cfg_params c !! "Crash Day");
        [apply keeps_rng_lift|apply keeps_rng_ret]. }
    intros c_day.
    apply raises_before_draw_bind; [apply keeps_rng_optional_float|intros factor].
    apply raises_before_draw_total. intros g.
    edestruct (svm_path_shape (end_day - start_day))
      as (p & g' & _ & _ & Hgen & _); [| |
      eexists _, g'; by erewrite bind_Ok by apply Hgen]; lia.
Qed.

Lemma simulate_intervals_app l1 l2 i acc g acc1 g1 :
  simulate_intervals i l1 acc g = (g1, Completed acc1) ->
  simulate_intervals i (l1 ++ l2) acc g
  = simulate_intervals (i + length l1) l2 acc1 g1.
Proof.
  revert i acc g. induction l1 as [|c l1 IH]; intros i acc g; simpl.
  - intros [= <- <-]. by rewrite Nat.add_0_r.
  - destruct (run_interval i c (last_price acc) g) as [[title m|T path] g'|[] g'];
      try done.
    destruct (append_path acc T path g') as [acc' g''|e g'']; [|done].
    intros H. rewrite (IH _ _ _ H). f_equal. lia.
Qed.

Lemma optional_float_raise (params : gmap string string) key dflt text e g :
  params !! key = Some text ->
  (forall g, parse_float (py_get params key dflt) g = Raise e g) ->
  optional_float params key dflt g = Raise e g.
Proof.
  intros Hkey Hraise. unfold optional_float. rewrite Hkey.
  apply bind_Raise, Hraise.
Qed.

Lemma optional_float_ok (params : gmap string string) key dflt text x g :
  params !! key = Some text ->
  (forall g, parse_float (py_get params key dflt) g = Ok x g) ->
  optional_float params key dflt g = Ok (Some x) g.
Proof.
  intros Hkey Hok. unfold optional_float. rewrite Hkey.
  by erewrite bind_Ok by apply Hok.
Qed.

Lemma optional_float_none (params : gmap string string) key dflt g :
  params !! key = None -> optional_float params key dflt g = Ok None g.
Proof. intros Hkey. unfold optional_float. by rewrite Hkey. Qed.

Lemma lift_inl {A} (r : exn + A) e g : r = inl e -> lift r g = Raise e g.
Proof. by intros ->. Qed.

(** One conversion of the [try] block: the first error of the list is
    this one, or this one returns and the error is further on. *)
Ltac peel rs Hreads Hrs Hr :=
  destruct rs as [|? rs];
  [ injection Hreads as <- _; apply bind_Raise;
    first [ apply Hr
          | apply lift_inl; exact Hr
          | eapply optional_float_raise; [eassumption|exact Hr] ]
  | injection Hreads as <- Hreads;
    let Hp := fresh "Hp" in
    let Hrs' := fresh "Hrs" in
    inversion Hrs as [|? ? Hp Hrs']; subst; clear Hrs; rename Hrs' into Hrs;
    destruct Hp as [? Hp];
    erewrite bind_Ok
      by first [ apply Hp
               | apply lift_inr; exact Hp
               | eapply optional_float_ok; [eassumption|exact Hp] ] ].

(** The [try] block raises the exception of the first conversion that
    fails: when the conversions in front of [r] return and [r] raises
    [e], the block raises [e] with the random source untouched. *)
Lemma run_interval_first_error i c last g rs r rs' e :
  well_ordered c ->
  reads_of c last = rs ++ r :: rs' ->
  Forall read_parses rs -> read_raises r e ->
  run_interval i c last g = Raise e g.
Proof.
  intros (s & e0 & Hs & He & Hlt) Hreads Hrs Hr. unfold run_interval.
  erewrite bind_Ok by (by apply lift_inr).
  erewrite bind_Ok by (by apply lift_inr).
  destruct (Z.leb_spec (e0 - s) 0); [lia|].
  unfold reads_of in Hreads. cbv zeta beta in Hreads.
  peel rs Hreads Hrs Hr.
  destruct (decide (cfg_model c = "Geometric Brownian Motion (GBM)")).
  - destruct last as [p|]; cbn [app initial_price] in Hreads |- *.
    + erewrite bind_Ok by reflexivity.
      peel rs Hreads Hrs Hr. peel rs Hreads Hrs Hr.
      by destruct rs.
    + do 3 (peel rs Hreads Hrs Hr). by destruct rs.
  - destruct (decide (cfg_model c = "Stochastic Volatility Model (Heston)"));
      [|by destruct rs].
    destruct last as [p|]; cbn [app initial_price] in Hreads |- *;
      [erewrite bind_Ok by reflexivity|peel rs Hreads Hrs Hr];
      do 8 (peel rs Hreads Hrs Hr);
      (destruct (cfg_params c !! "Bubble Extra Drift (Δmu)") as [t1|] eqn:Hk1;
       cbn [app] in Hreads;
       [peel rs Hreads Hrs Hr
       |erewrite (bind_Ok (optional_float _ _ _))
          by (by apply optional_float_none)]);
      (destruct (cfg_params c !! "Crash Day") as [t2|] eqn:Hk2;
       cbn [app] in Hreads;
       [peel rs Hreads Hrs Hr|erewrite bind_Ok by reflexivity]);
      (destruct (cfg_params c !! "Crash Factor") as [t3|] eqn:Hk3;
       cbn [app] in Hreads;
       [peel rs Hreads Hrs Hr
       |erewrite (bind_Ok (optional_float _ _ _))
          by (by apply optional_float_none)]);
      by destruct rs.
Qed.

(** With texts that all parse, the [try] block of a GBM interval is
    the call of the generator on the values as parsed. *)
Lemma run_interval_gbm_call i c last g s e dt S0 mu sigma :
  py_int (cfg_start c) = inr s -> py_int (cfg_end c) = inr e -> (s < e)%Z ->
  cfg_model c = "Geometric Brownian Motion (GBM)" ->
  (forall g, parse_float (py_get (cfg_params c) "Time Step (dt)" "1/365") g
             = Ok dt g) ->
  (forall g, initial_price (cfg_params c) last g = Ok S0 g) ->
  (forall g, parse_float (py_get (cfg_params c) "Drift (mu)" "0.15") g
             = Ok mu g) ->
  (forall g, parse_float (py_get (cfg_params c) "Volatility (sigma)" "0.05") g
             = Ok sigma g) ->
  run_interval i c last g
  = (path <- Gbm.generate_gbm_prices (e - s) dt S0 mu sigma 4 None ;;
     ret (Simulated (e - s) path)) g.
Proof.
  intros Hs He Hlt Hm Hdt HS0 Hmu Hsigma. unfold run_interval.
  erewrite bind_Ok by (by apply lift_inr).
  erewrite bind_Ok by (by apply lift_inr).
  destruct (Z.leb_spec (e - s) 0); [lia|].
  erewrite bind_Ok by apply Hdt.
  rewrite decide_True by done.
  erewrite bind_Ok by apply HS0.
  erewrite bind_Ok by apply Hmu.
  erewrite bind_Ok by apply Hsigma.
  reflexivity.
Qed.

(** With texts that all parse, the [try] block of an SV interval is the
    call of the generator on the values as parsed. *)
Lemma run_interval_svm_call i c last g s e dt S0 v0 kappa theta sigma_v rho
    mu b_start b_end extra c_day factor :
  py_int (cfg_start c) = inr s -> py_int (cfg_end c) = inr e -> (s < e)%Z ->
  cfg_model c = "Stochastic Volatility Model (Heston)" ->
  (forall g, parse_float (py_get (cfg_params c) "Time Step (dt)" "1/365") g
             = Ok dt g) ->
  (forall g, initial_price (cfg_params c) last g = Ok S0 g) ->
  (forall g, parse_float (py_get (cfg_params c) "Initial Variance (v0)" "0.04") g
             = Ok v0 g) ->
  (forall g, parse_float
               (py_get (cfg_params c) "Mean Reversion Speed (kappa)" "3.0") g
             = Ok kappa g) ->
  (forall g, parse_float
               (py_get (cfg_params c) "Long-term Mean Var (theta)" "0.04") g
             = Ok theta g) ->
  (forall g, parse_float (py_get (cfg_params c) "Vol of Vol (sigma)" "0.6") g
             = Ok sigma_v g) ->
  (forall g, parse_float (py_get (cfg_params c) "Correlation (rho)" "-0.7") g
             = Ok rho g) ->
  (forall g, parse_float (py_get (cfg_params c) "Base Drift (mu)" "0.05") g
             = Ok mu g) ->
  py_int (py_get (cfg_params c) "Bubble Start" "0") = inr b_start ->
  py_int (py_get (cfg_params c) "Bubble End" "0") = inr b_end ->
  (forall g, optional_float (cfg_params c) "Bubble Extra Drift (Δmu)" "0.15" g
             = Ok extra g) ->
  match cfg_params c !! "Crash Day" with
  | Some text => py_int text = inr c_day
  | None => c_day = b_end
  end ->
  (forall g, optional_float (cfg_params c) "Crash Factor" "0.70" g
             = Ok factor g) ->
  run_interval i c last g
  = (path <- Svm.generate_svm_prices (e - s) dt S0 v0 kappa theta sigma_v
               rho mu
               {| Svm.bubble_start := Some b_start;
                  Svm.bubble_end := Some b_end;
                  Svm.bubble_mu_extra := extra;
                  Svm.crash_day := Some (PyInt c_day);
                  Svm.crash_factor := factor |}
               4 None ;;
     ret (Simulated (e - s) path)) g.
Proof.
  intros Hs He Hlt Hm Hdt HS0 Hv0 Hkappa Htheta Hsigma_v Hrho Hmu Hb_start
    Hb_end Hextra Hc_day Hfactor.
  unfold run_interval.
  erewrite bind_Ok by (by apply lift_inr).
  erewrite bind_Ok by (by apply lift_inr).
  destruct (Z.leb_spec (e - s) 0); [lia|].
  erewrite bind_Ok by apply Hdt.
  rewrite decide_False by (by rewrite Hm).
  rewrite decide_True by done.
  erewrite bind_Ok by apply HS0.
  erewrite bind_Ok by apply Hv0.
  erewrite bind_Ok by apply Hkappa.
  erewrite bind_Ok by apply Htheta.
  erewrite bind_Ok by apply Hsigma_v.
  erewrite bind_Ok by apply Hrho.
  erewrite bind_Ok by apply Hmu.
  erewrite bind_Ok by (by apply lift_inr).
  erewrite bind_Ok by (by apply lift_inr).
  erewrite bind_Ok by apply Hextra.
  erewrite (bind_Ok _ _ _ c_day).
  2:{ destruct (cfg_params c !! "Crash Day") as [text|];
        [by apply lift_inr|by subst]. }
  erewrite bind_Ok by apply Hfactor.
  reflexivity.
Qed.

End TryBlock.

(** ** The decimal models at work *)

Ltac eval_decimal :=
  repeat match goal with
  | |- context [Fraction_decimal ?s] =>
      let v := eval vm_compute in (Fraction_decimal s) in
      change (Fraction_decimal s) with v
  | |- context [decimal_parts ?s] =>
      let v := eval vm_compute in (decimal_parts s) in
      change (decimal_parts s) with v
  end.

Lemma parse_float_decimal_fraction s n d g :
  Fraction_decimal s = inr {| numerator := n; denominator := d |} ->
  d <> 0%Z -> (Z.abs n < float_overflow * Z.abs d)%Z ->
  parse_float (B := decimal_builtins) s g = Ok (IZR n / IZR d) g.
Proof.
  intros H Hd Hfit.
  apply (parse_float_fraction (B := decimal_builtins) _ _ _ _ H).
  by apply float_of_Fraction_fits.
Qed.

Lemma parse_float_decimal_fails s g :
  (Fraction_decimal s = inl ZeroDivisionError
   \/ exists m, Fraction_decimal s = inl (ValueError m)) ->
  decimal_parts s = None ->
  parse_float (B := decimal_builtins) s g
  = Raise (ValueError (MsgInvalidFormat s)) g.
Proof.
  intros HF Hf. apply (parse_float_fails (B := decimal_builtins)); [exact HF|].
  cbn [py_float decimal_builtins]. unfold float_decimal.
  rewrite Hf. eauto.
Qed.

(** Evaluates [parse_float] on a decimal text that [Fraction] accepts. *)
Ltac parse_decimal :=
  eapply parse_float_decimal_fraction;
  [vm_compute; reflexivity | discriminate | vm_compute; reflexivity].

Lemma huge_literal_Fraction :
  Fraction_decimal huge_literal
  = inr {| numerator := 10 ^ 400; denominator := 1 |}.
Proof. vm_compute. reflexivity. Qed.

Lemma huge_literal_overflows :
  float_of_Fraction {| numerator := 10 ^ 400; denominator := 1 |}
  = inl OverflowError.
Proof.
  apply float_of_Fraction_overflows; [discriminate|].
  vm_compute. discriminate.
Qed.

(** The part of the contract of [parse_float] that holds: it leaves the
    random source alone; it returns the float of the fraction when
    [Fraction] accepts the text and the fraction fits a float, else the
    value of [float] when [Fraction] raises [ValueError] or
    [ZeroDivisionError] and [float] accepts the text, and it raises the
    "Invalid parameter format" [ValueError] exactly when
    [float(Fraction(value_str))] raises [ValueError] or
    [ZeroDivisionError] and [float] raises [ValueError].  On decimal text
    "0.05" gives 0.05, "1/365" gives 1/365 (0.0027397...), and "abc" and
    "1/0", like every text with a zero denominator, raise that error. *)
Lemma parse_float_contract :
  (forall (B : Builtins) s g,
      match parse_float s g with
      | Ok _ g' => g' = g
      | Raise _ g' => g' = g
      end)
  /\ (forall (B : Builtins) s q x g,
        py_Fraction s = inr q -> float_of_Fraction q = inr x ->
        parse_float s g = Ok x g)
  /\ (forall (B : Builtins) s x g,
        (py_Fraction s = inl ZeroDivisionError
         \/ exists m, py_Fraction s = inl (ValueError m)) ->
        py_float s = inr x -> parse_float s g = Ok x g)
  /\ (forall (B : Builtins) s g,
        parse_float s g = Raise (ValueError (MsgInvalidFormat s)) g
        <-> (float_of_Fraction_text s = inl ZeroDivisionError
             \/ exists m, float_of_Fraction_text s = inl (ValueError m))
            /\ exists m, py_float s = inl (ValueError m))
  /\ (forall g, parse_float (B := decimal_builtins) "0.05" g = Ok 0.05 g)
  /\ (forall g, exists x,
        parse_float (B := decimal_builtins) "1/365" g = Ok x g
        /\ x = 1 / 365 /\ 0.0027397 < x < 0.0027398)
  /\ (forall g, parse_float (B := decimal_builtins) "abc" g
                = Raise (ValueError (MsgInvalidFormat "abc")) g)
  /\ (forall g, parse_float (B := decimal_builtins) "1/0" g
                = Raise (ValueError (MsgInvalidFormat "1/0")) g)
  /\ (forall s g,
        Fraction_decimal s = inl ZeroDivisionError ->
        parse_float (B := decimal_builtins) s g
        = Raise (ValueError (MsgInvalidFormat s)) g).
Proof.
  split; [intros B s g; apply parse_float_keeps_rng|].
  split; [intros B s q x g; apply parse_float_fraction|].
  split; [intros B s x g; apply parse_float_fallback|].
  split; [intros B s g; apply parse_float_fails_iff|].
  split.
  { intros g. erewrite parse_float_decimal_fraction;
      [|vm_compute; reflexivity|discriminate|vm_compute; reflexivity].
    f_equal. lra. }
  split.
  { intros g. eexists. split; [parse_decimal|]. lra. }
  split.
  { intros g. apply parse_float_decimal_fails; [right|]; vm_compute; eauto. }
  split.
  { intros g. apply parse_float_decimal_fails; [left|]; vm_compute; eauto. }
  intros s g HF. apply (parse_float_fails (B := decimal_builtins)); [by left|].
  by apply zero_denominator_not_float.
Qed.

Section Overflow.
Context {B : Builtins}.

(** A time step too large for a float: the [OverflowError] of
    [parse_float] passes the [except ValueError] of the main loop. *)
Lemma run_simulation_overflow c g :
  well_ordered c ->
  (forall g, parse_float (py_get (cfg_params c) "Time Step (dt)" "1/365") g
             = Raise OverflowError g) ->
  run_simulation [c] g = (g, Uncaught OverflowError).
Proof.
  intros Hc Hdt. unfold run_simulation.
  rewrite collect_well_ordered by (by constructor).
  destruct Hc as (s & e & Hs & He & Hlt).
  unfold sort_by_start. cbn [decorate]. rewrite Hs.
  cbn [sort_by_key foldr insert_by_key map snd simulate_intervals].
  erewrite (run_interval_first_error 1 c None g [] (ReadParse _) _
              OverflowError);
    [done|by exists s, e|unfold reads_of; reflexivity|by constructor
    |exact Hdt].
Qed.
End Overflow.

(** C7, the failing input: the decimal literal of [10 ** 400].
    [Fraction] accepts it, [float] of that fraction raises
    [OverflowError], which [except (ValueError, ZeroDivisionError)] lets
    pass: [parse_float] neither returns a float nor raises its
    [ValueError], and [float(value_str)], which raises nothing on this
    text, is not tried.  So it is for every text [Fraction] accepts with a value too
    large for a float, whatever [float] makes of the text.  As the time
    step of an interval the literal ends [run_simulation] with an
    exception that no error box reports. *)
Theorem parse_float_overflow_escapes :
  (forall (B : Builtins) s q g,
      py_Fraction s = inr q -> float_of_Fraction q = inl OverflowError ->
      parse_float s g = Raise OverflowError g)
  /\ Fraction_decimal huge_literal
     = inr {| numerator := 10 ^ 400; denominator := 1 |}
  /\ float_of_Fraction {| numerator := 10 ^ 400; denominator := 1 |}
     = inl OverflowError
  /\ (exists x, float_decimal huge_literal = inr x)
  /\ (forall g, parse_float (B := decimal_builtins) huge_literal g
                = Raise OverflowError g)
  /\ (forall g,
        run_simulation (B := decimal_builtins)
          [gbm_interval "1" "3" huge_literal] g
        = (g, Uncaught OverflowError)).
Proof.
  assert (Hparse : forall g, parse_float (B := decimal_builtins) huge_literal g
                             = Raise OverflowError g).
  { intros g.
    apply (parse_float_overflow (B := decimal_builtins) _ _ _
             huge_literal_Fraction huge_literal_overflows). }
  split; [intros B s q g; apply parse_float_overflow|].
  split; [exact huge_literal_Fraction|].
  split; [exact huge_literal_overflows|].
  split.
  { unfold float_decimal.
    assert (H : decimal_parts huge_literal = Some ((10 ^ 400)%Z, O))
      by (vm_compute; reflexivity).
    rewrite H. by eexists. }
  split; [exact Hparse|].
  intros g. apply (run_simulation_overflow (B := decimal_builtins)).
  - exists 1%Z, 3%Z. split; [vm_compute; reflexivity|].
    split; [vm_compute; reflexivity|lia].
  - exact Hparse.
Qed.

(** ** Valid sample intervals *)

Ltac prove_parses_float :=
  unfold parses_float; eexists; intros ?; parse_decimal.

(** The fraction of a decimal text and its place below the overflow
    bound. *)
Ltac prove_fits :=
  eexists _, _; split; [vm_compute; reflexivity|];
  split; [discriminate|vm_compute; reflexivity].

Ltac prove_parses_plain_float :=
  unfold parses_plain_float; cbn [py_float decimal_builtins];
  unfold float_decimal; eval_decimal; eexists; reflexivity.

Ltac prove_parses_int :=
  unfold parses_int; eexists; vm_compute; reflexivity.

Ltac prove_parses_optional :=
  unfold parses_optional;
  match goal with
  | |- context [?m !! ?k] =>
      let v := eval vm_compute in (m !! k) in change (m !! k) with v
  end; cbv iota; prove_parses_float.

(** The same for the fraction [n / d], given. *)
Ltac fits n d :=
  exists n, d; split; [reflexivity|];
  split; [discriminate|vm_compute; reflexivity].

Ltac prove_well_ordered :=
  eexists _, _; split; [vm_compute; reflexivity|];
  split; [vm_compute; reflexivity|reflexivity].

Lemma gbm_interval_valid start_day end_day dt :
  well_ordered (B := decimal_builtins) (gbm_interval start_day end_day dt) ->
  (exists n d,
      Fraction_decimal dt = inr {| numerator := n; denominator := d |}
      /\ d <> 0%Z /\ (Z.abs n < float_overflow * Z.abs d)%Z) ->
  valid_config (B := decimal_builtins) (gbm_interval start_day end_day dt).
Proof.
  intros Hwo (n & d & Hq & Hd & Hfit). split; [exact Hwo|]. split.
  - exists (IZR n / IZR d). intros g.
    by apply parse_float_decimal_fraction.
  - left. split; [reflexivity|]. split; [prove_parses_plain_float|].
    split; prove_parses_float.
Qed.

Lemma svm_interval_valid start_day end_day :
  well_ordered (B := decimal_builtins) (svm_interval start_day end_day) ->
  valid_config (B := decimal_builtins) (svm_interval start_day end_day).
Proof.
  intros Hwo. split; [exact Hwo|]. split; [prove_parses_float|].
  right. split; [reflexivity|].
  split; [prove_parses_plain_float|].
  do 6 (split; [prove_parses_float|]).
  do 2 (split; [prove_parses_int|]).
  split; [prove_parses_optional|].
  split; [|prove_parses_optional].
  match goal with
  | |- context [?m !! ?k] =>
      let v := eval vm_compute in (m !! k) in change (m !! k) with v
  end.
  prove_parses_int.
Qed.

Lemma two_intervals_valid :
  Forall (valid_config (B := decimal_builtins))
    [svm_interval "3" "5"; gbm_interval "1" "3" "0.01"].
Proof.
  constructor; [|constructor; [|constructor]].
  - apply svm_interval_valid. prove_well_ordered.
  - apply gbm_interval_valid; [prove_well_ordered|prove_fits].
Qed.

(** ** Instances of the theorems *)

Lemma open_is_previous_close_witness :
  (exists p g',
      Gbm.generate_gbm_prices 2 (1 / 365) 100 0.05 0.2 4 None zero_rng
      = Ok p g'
      /\ length (open_prices p) = 2%nat /\ opens_follow_closes 100 p)
  /\ (exists p g',
        Svm.generate_svm_prices 2 (1 / 365) 100 0.04 3 0.04 0.6 (-0.7) 0.05
          sample_events 4 None zero_rng = Ok p g'
        /\ length (open_prices p) = 2%nat /\ opens_follow_closes 100 p).
Proof.
  destruct (open_is_previous_close 2 (1 / 365) 100 0.05 0.2 0.04 3 0.04 0.6
              (-0.7) sample_events 4 None zero_rng)
    as (Hreturns & Hgbm & Hsvm).
  destruct Hreturns as [(p & g' & Hrun) (p' & g'' & Hrun')]; [lia|lia|].
  destruct (Hgbm p g' Hrun) as (Hlen & _ & Hopen).
  destruct (Hsvm p' g'' Hrun') as (Hlen' & _ & Hopen').
  split.
  - exists p, g'. exact (conj Hrun (conj Hlen Hopen)).
  - exists p', g''. exact (conj Hrun' (conj Hlen' Hopen')).
Defined.

Lemma svm_crash_once_witness :
  (exists st g',
      Svm.simulate 20 (1 / 365) 100 0.04 3 0.04 0.6 (-0.7) 0.05 sample_events
        4 None zero_rng = Ok st g'
      /\ Svm.arr_S st !! O = Some 100
      /\ (exists St vt,
            Svm.arr_S st !! 59%nat = Some St
            /\ Svm.arr_v st !! 59%nat = Some vt
            /\ Svm.arr_S st !! 60%nat
               = Some (svm_diffuse 0.05 sample_events (1 / 365 / 4) 4
                         (Z.of_nat 59) St vt
                         (draws (after_seed None zero_rng) 59) * 0.7))
      /\ Svm.closes st !! 14%nat = Svm.arr_S st !! 60%nat)
  /\ (exists st g',
        Svm.simulate 20 (1 / 365) 100 0.04 3 0.04 0.6 (-0.7) 0.05
          misaligned_events 4 None zero_rng = Ok st g'
        /\ Svm.simulate 20 (1 / 365) 100 0.04 3 0.04 0.6 (-0.7) 0.05
             (without_crash misaligned_events) 4 None zero_rng = Ok st g').
Proof.
  split.
  - destruct (svm_crash_once 20 (1 / 365) 100 0.04 3 0.04 0.6 (-0.7) 0.05
                sample_events 4 None zero_rng (PyInt 15) 0.7 eq_refl eq_refl)
      as (Hreturns & Hall).
    destruct Hreturns as (st & g' & Hrun); [lia|lia|].
    pose proof (Hall st g' Hrun) as H. cbv beta zeta in H.
    destruct H as ((_ & _ & HS0 & _) & Hstep & _ & _ & _ & _ & Hclose & _).
    exists st, g'. split; [exact Hrun|]. split; [exact HS0|].
    assert (Hfires : int_equals (Z.of_nat 59 + 1)
                       (number_times_int (PyInt 15) 4) = true)
      by (vm_compute; reflexivity).
    split.
    + destruct (Hstep 59%nat ltac:(vm_compute; lia))
        as (St & vt & HS & Hv & _ & Hnext).
      rewrite Hfires in Hnext.
      exists St, vt. exact (conj HS (conj Hv Hnext)).
    + exact (Hclose 59%nat ltac:(vm_compute; lia) Hfires eq_refl).
  - destruct (svm_crash_once 20 (1 / 365) 100 0.04 3 0.04 0.6 (-0.7) 0.05
                misaligned_events 4 None zero_rng (PyFloat 15.1) 0.7
                eq_refl eq_refl)
      as (Hreturns & Hall).
    destruct Hreturns as (st & g' & Hrun); [lia|lia|].
    pose proof (Hall st g' Hrun) as H. cbv beta zeta in H.
    destruct H as (_ & _ & _ & _ & _ & _ & _ & _ & Hnever).
    exists st, g'. split; [exact Hrun|]. apply Hnever.
    intros t _. cbn [number_times_int int_equals].
    destruct (Req_dec_T (IZR (Z.of_nat t + 1)) (15.1 * 4)) as [Heq|]; [|done].
    exfalso.
    assert (H10 : IZR (10 * (Z.of_nat t + 1)) = IZR 604)
      by (rewrite mult_IZR; lra).
    apply eq_IZR in H10. lia.
Defined.

Lemma svm_bubble_drift_witness :
  exists st g',
    Svm.simulate 30 (1 / 365) 100 0.04 3 0.04 0.6 (-0.7) 0.05 sample_events
      4 None zero_rng = Ok st g'
    /\ Svm.arr_S st !! O = Some 100
    /\ Svm.arr_v st !! O = Some 0.04
    /\ exists St vt drift,
        Svm.arr_S st !! 36%nat = Some St
        /\ Svm.arr_v st !! 36%nat = Some vt
        /\ Svm.arr_S st !! 37%nat
           = Some (St * exp ((drift - 0.5 * vt) * (1 / 365 / 4)
                             + sqrt (Rmax vt 0 * (1 / 365 / 4))
                               * draws (after_seed None zero_rng) 36)
                   * crash_multiplier sample_events 4 (Z.of_nat 36))
        /\ drift = 0.05 + 0.1.
Proof.
  destruct (svm_bubble_drift 30 (1 / 365) 100 0.04 3 0.04 0.6 (-0.7) 0.05
              sample_events 4 None zero_rng) as (Hreturns & Hall).
  destruct Hreturns as (st & g' & Hrun); [lia|lia|].
  destruct (Hall st g' Hrun) as (HS0 & Hv0 & Hstep).
  exists st, g'. split; [exact Hrun|]. split; [exact HS0|].
  split; [exact Hv0|].
  destruct (Hstep 36%nat ltac:(lia))
    as (St & vt & drift & HS & Hv & _ & Hnext & Hin & _).
  exists St, vt, drift.
  split; [exact HS|]. split; [exact Hv|]. split; [exact Hnext|].
  apply (Hin 10%Z 20%Z 0.1 eq_refl eq_refl eq_refl).
  vm_compute. split; discriminate.
Defined.

Lemma svm_variance_floor_witness :
  exists st g',
    Svm.simulate 2 (1 / 365) 100 0.04 3 0.04 0.6 (-0.7) 0.05 sample_events
      4 None zero_rng = Ok st g'
    /\ length (Svm.arr_v st) = 9%nat
    /\ Svm.arr_v st !! O = Some 0.04
    /\ forall k x, Svm.arr_v st !! k = Some x -> ~ (x < 0).
Proof.
  destruct (svm_variance_floor 2 (1 / 365) 100 0.04 3 0.04 0.6 (-0.7) 0.05
              sample_events 4 None zero_rng) as (Hreturns & Hall).
  destruct Hreturns as (st & g' & Hrun); [lia|lia|].
  destruct (Hall st g' Hrun) as (Hlen & Hv0 & _ & _ & Hnonneg).
  exists st, g'. split; [exact Hrun|]. split; [exact Hlen|].
  split; [exact Hv0|]. apply Hnonneg. lra.
Defined.

(** C5, the claim as stated fails: with [v0 = -1] the cell 0 of [v] is
    negative. *)
Lemma negative_initial_variance :
  ~ (forall st g',
        Svm.simulate 1 1 100 (-1) 0 0 0 0 0 no_events 4 None zero_rng
        = Ok st g' ->
        forall k x, Svm.arr_v st !! k = Some x -> 0 <= x).
Proof.
  intros Hclaim.
  pose proof (svm_simulate_ok 1 1 100 (-1) 0 0 0 0 0 no_events 4 None
                zero_rng ltac:(lia) ltac:(lia)) as Hrun.
  cbv zeta in Hrun.
  pose proof (Hclaim _ _ Hrun O (-1)) as Hneg.
  assert (H : 0 <= -1); [|lra].
  apply Hneg.
  apply (svm_run_v _ _ _ _ _ _ _ _ _ _ _ _ _ _ _ Hrun). lia.
Qed.

Lemma global_days_consecutive_witness :
  exists series g',
    run_simulation (B := decimal_builtins)
      [svm_interval "3" "5"; gbm_interval "1" "3" "0.01"] zero_rng
    = (g', Completed series)
    /\ Day series = [1; 2; 3; 4]%Z.
Proof.
  destruct (global_days_consecutive (B := decimal_builtins)
              [svm_interval "3" "5"; gbm_interval "1" "3" "0.01"] zero_rng)
    as (Hcompletes & HDay).
  destruct (Hcompletes two_intervals_valid) as (series & g' & Hrun).
  exists series, g'. split; [exact Hrun|]. exact (HDay series g' Hrun).
Defined.

Lemma chain_continuity_witness :
  exists series g',
    run_simulation (B := decimal_builtins)
      [svm_interval "3" "5"; gbm_interval "1" "3" "0.01"] zero_rng
    = (g', Completed series)
    /\ exists x, Open series !! 2%nat = Some x /\ Close series !! 1%nat = Some x.
Proof.
  destruct (chain_continuity (B := decimal_builtins)
              [svm_interval "3" "5"; gbm_interval "1" "3" "0.01"] zero_rng)
    as (Hcompletes & Hall).
  destruct (Hcompletes two_intervals_valid) as (series & g' & Hrun).
  destruct (Hall series g' Hrun) as (sorted & Hsort & Hcont).
  exists series, g'. split; [exact Hrun|].
  assert (Hsorted : sorted = [gbm_interval "1" "3" "0.01"] ++ svm_interval "3" "5" :: []).
  { assert (H : sort_by_start (B := decimal_builtins)
                  [svm_interval "3" "5"; gbm_interval "1" "3" "0.01"]
                = Completed [gbm_interval "1" "3" "0.01"; svm_interval "3" "5"])
      by reflexivity.
    rewrite H in Hsort. by injection Hsort as <-. }
  exact (Hcont _ _ _ Hsorted ltac:(discriminate)).
Defined.

Lemma misordered_interval_aborts_witness :
  run_simulation (B := decimal_builtins) [gbm_interval "50" "50" "0.01"] zero_rng
  = (zero_rng, ShowError "Error" (MsgStartBeforeEnd 1)).
Proof.
  assert (Hbad : misordered (B := decimal_builtins) (gbm_interval "50" "50" "0.01")).
  { exists 50%Z, 50%Z. split; [vm_compute; reflexivity|].
    split; [vm_compute; reflexivity|lia]. }
  destruct (misordered_interval_aborts (B := decimal_builtins)
              [gbm_interval "50" "50" "0.01"] zero_rng None
              (Exists_cons_hd _ _ _ Hbad)) as (_ & _ & _ & Hfirst).
  exact (Hfirst [] _ [] eq_refl (List.Forall_nil _) Hbad).
Defined.



Lemma parse_float_overflow_escapes_witness :
  parse_float (B := decimal_builtins) huge_literal zero_rng
  = Raise OverflowError zero_rng.
Proof.
  apply (proj1 parse_float_overflow_escapes decimal_builtins huge_literal
           {| numerator := 10 ^ 400; denominator := 1 |}).
  - vm_compute. reflexivity.
  - vm_compute. reflexivity.
Defined.

(** ** Further properties of the two generators *)

Lemma np_arange_days T :
  (0 <= T)%Z -> np_arange 1 (T + 1) = map Z.of_nat (seq 1 (Z.to_nat T)).
Proof.
  intros HT. unfold np_arange.
  replace (T + 1)%Z with (1 + Z.of_nat (Z.to_nat T))%Z by lia.
  apply py_range_from_1.
Qed.

(** Every path [generate_gbm_prices] returns, in closed form. *)
Lemma gbm_generate_closed T dt S0 mu sigma spd seed g p g' :
  Gbm.generate_gbm_prices T dt S0 mu sigma spd seed g = Ok p g' ->
  let m := Z.to_nat spd in
  let g0 := after_seed seed g in
  let f := gbm_path S0 mu sigma (dt / IZR spd) (draws g0) in
  ((0 < spd /\ 0 <= T)%Z \/ (spd < 0 /\ T = 0)%Z)
  /\ p = {| days := map Z.of_nat (seq 1 (Z.to_nat T));
            open_prices := day_opens f m (Z.to_nat T);
            close_prices := day_closes f m (Z.to_nat T);
            high_prices := day_highs f m (Z.to_nat T);
            low_prices := day_lows f m (Z.to_nat T) |}
  /\ g' = advance (Z.to_nat (T * spd)) g0.
Proof.
  intros Hrun m g0 f. unfold Gbm.generate_gbm_prices in Hrun.
  apply bind_Ok_inv in Hrun as (st & g1 & Hsim & Hret).
  pose proof (gbm_simulate_domain _ _ _ _ _ _ _ _ _ _ Hsim) as Hdom.
  apply gbm_simulate_inv in Hsim as (-> & ->).
  injection Hret as <- <-.
  split; [exact Hdom|]. split; [|reflexivity].
  rewrite np_arange_days by lia. reflexivity.
Qed.

(** Every path [generate_svm_prices] returns, in closed form. *)
Lemma svm_generate_closed T dt S0 v0 kappa theta sigma_v rho mu ev spd seed g
    p g' :
  Svm.generate_svm_prices T dt S0 v0 kappa theta sigma_v rho mu ev spd seed g
  = Ok p g' ->
  let m := Z.to_nat spd in
  let n := Z.to_nat (T * spd) in
  let g0 := after_seed seed g in
  let var := svm_var v0 kappa theta sigma_v (dt / IZR spd) (svm_z2 rho n g0) in
  let f := svm_path S0 mu ev (dt / IZR spd) spd var (draws g0) in
  ((0 < spd /\ 0 <= T)%Z \/ (spd < 0 /\ T = 0)%Z)
  /\ p = {| days := map Z.of_nat (seq 1 (Z.to_nat T));
            open_prices := day_opens f m (Z.to_nat T);
            close_prices := day_closes f m (Z.to_nat T);
            high_prices := day_highs f m (Z.to_nat T);
            low_prices := day_lows f m (Z.to_nat T) |}
  /\ g' = advance (n + n) g0.
Proof.
  intros Hrun m n g0 var f. unfold Svm.generate_svm_prices in Hrun.
  apply bind_Ok_inv in Hrun as (st & g1 & Hsim & Hret).
  pose proof (svm_simulate_domain _ _ _ _ _ _ _ _ _ _ _ _ _ _ _ Hsim) as Hdom.
  apply svm_simulate_inv in Hsim as (-> & ->).
  injection Hret as <- <-.
  split; [exact Hdom|]. split; [|reflexivity].
  rewrite np_arange_days by lia. reflexivity.
Qed.

(** X1: every path either generator returns has one bar for each of the
    days [1..T]: the day column is [1, 2, ..., T] and the four price
    columns have [T] entries each. *)
Theorem path_has_one_bar_a_day T dt S0 mu sigma v0 kappa theta sigma_v rho
    ev spd seed g :
  (forall p g',
      Gbm.generate_gbm_prices T dt S0 mu sigma spd seed g = Ok p g' ->
      days p = map Z.of_nat (seq 1 (Z.to_nat T))
      /\ length (open_prices p) = Z.to_nat T
      /\ length (close_prices p) = Z.to_nat T
      /\ length (high_prices p) = Z.to_nat T
      /\ length (low_prices p) = Z.to_nat T)
  /\ (forall p g',
        Svm.generate_svm_prices T dt S0 v0 kappa theta sigma_v rho mu ev spd
          seed g = Ok p g' ->
        days p = map Z.of_nat (seq 1 (Z.to_nat T))
        /\ length (open_prices p) = Z.to_nat T
        /\ length (close_prices p) = Z.to_nat T
        /\ length (high_prices p) = Z.to_nat T
        /\ length (low_prices p) = Z.to_nat T).
Proof.
  split; intros p g' Hrun.
  - apply gbm_generate_closed in Hrun as (_ & -> & _).
    cbn [days open_prices close_prices high_prices low_prices].
    rewrite length_day_opens, length_day_closes, length_day_highs,
      length_day_lows. done.
  - apply svm_generate_closed in Hrun as (_ & -> & _).
    cbn [days open_prices close_prices high_prices low_prices].
    rewrite length_day_opens, length_day_closes, length_day_highs,
      length_day_lows. done.
Qed.

(** The bars of the closed form, read off the final price array. *)
Lemma closed_bars f m T d :
  (d < T)%nat -> ((0 < T)%nat -> (0 < m)%nat) ->
  let S := written f (T * m) (T * m) in
  day_opens f m T !! d = S !! (d * m)%nat
  /\ day_closes f m T !! d = S !! (d * m + m)%nat
  /\ day_highs f m T !! d = Some (Rmax_list (day_values S m d))
  /\ day_lows f m T !! d = Some (Rmin_list (day_values S m d))
  /\ day_values S m d !! (m - 1)%nat = day_closes f m T !! d
  /\ length (day_values S m d) = m.
Proof.
  intros Hd Hm S.
  assert (Hle : (d * m + m <= T * m)%nat).
  { assert ((Datatypes.S d) * m <= T * m)%nat
      by (apply Nat.mul_le_mono_r; lia).
    simpl in *. lia. }
  assert (0 < m)%nat by (apply Hm; lia).
  unfold S. rewrite !lookup_written by lia.
  rewrite day_values_written by done.
  split; [by apply lookup_day_opens|]. split; [by apply lookup_day_closes|].
  split; [by apply lookup_day_highs|]. split; [by apply lookup_day_lows|].
  split.
  - rewrite lookup_day_closes by done. unfold day_slice.
    rewrite list_lookup_fmap, lookup_seq_lt by lia. simpl. f_equal. f_equal. lia.
  - unfold day_slice. by rewrite length_map, length_seq.
Qed.

(** X2: every bar is built from the final price array [S].  In every run
    either generator completes, the open of day [d < T] is the cell at the
    start of the day, its close the cell at its end, which is the last of
    the [steps_per_day] sub-step values of the day, its high their maximum
    and its low their minimum; and the path a generator returns has the
    days [1..T] and these four columns. *)
Theorem bars_are_built_from_the_cells T dt S0 mu sigma v0 kappa theta sigma_v
    rho ev spd seed g :
  (forall st g',
      Gbm.simulate T dt S0 mu sigma spd seed g = Ok st g' ->
      forall d, (d < Z.to_nat T)%nat ->
        let m := Z.to_nat spd in
        Gbm.opens st !! d = Gbm.arr_S st !! (d * m)%nat
        /\ Gbm.closes st !! d = Gbm.arr_S st !! (d * m + m)%nat
        /\ Gbm.highs st !! d
           = Some (Rmax_list (day_values (Gbm.arr_S st) m d))
        /\ Gbm.lows st !! d
           = Some (Rmin_list (day_values (Gbm.arr_S st) m d))
        /\ day_values (Gbm.arr_S st) m d !! (m - 1)%nat = Gbm.closes st !! d
        /\ length (day_values (Gbm.arr_S st) m d) = m)
  /\ (forall st g',
        Svm.simulate T dt S0 v0 kappa theta sigma_v rho mu ev spd seed g
        = Ok st g' ->
        forall d, (d < Z.to_nat T)%nat ->
          let m := Z.to_nat spd in
          Svm.opens st !! d = Svm.arr_S st !! (d * m)%nat
          /\ Svm.closes st !! d = Svm.arr_S st !! (d * m + m)%nat
          /\ Svm.highs st !! d
             = Some (Rmax_list (day_values (Svm.arr_S st) m d))
          /\ Svm.lows st !! d
             = Some (Rmin_list (day_values (Svm.arr_S st) m d))
          /\ day_values (Svm.arr_S st) m d !! (m - 1)%nat = Svm.closes st !! d
          /\ length (day_values (Svm.arr_S st) m d) = m)
  /\ (forall p g',
        Gbm.generate_gbm_prices T dt S0 mu sigma spd seed g = Ok p g'
        <-> exists st,
              Gbm.simulate T dt S0 mu sigma spd seed g = Ok st g'
              /\ p = {| days := np_arange 1 (T + 1);
                        open_prices := Gbm.opens st;
                        close_prices := Gbm.closes st;
                        high_prices := Gbm.highs st;
                        low_prices := Gbm.lows st |})
  /\ (forall p g',
        Svm.generate_svm_prices T dt S0 v0 kappa theta sigma_v rho mu ev spd
          seed g = Ok p g'
        <-> exists st,
              Svm.simulate T dt S0 v0 kappa theta sigma_v rho mu ev spd seed g
              = Ok st g'
              /\ p = {| days := np_arange 1 (T + 1);
                        open_prices := Svm.opens st;
                        close_prices := Svm.closes st;
                        high_prices := Svm.highs st;
                        low_prices := Svm.lows st |}).
Proof.
  split; [|split; [|split]].
  - intros st g' Hrun d Hd m.
    pose proof (gbm_simulate_domain _ _ _ _ _ _ _ _ _ _ Hrun) as Hdom.
    apply gbm_simulate_inv in Hrun as (-> & _).
    assert (Hspd : (0 < spd)%Z) by lia.
    cbn [gbm_state_at Gbm.arr_S Gbm.opens Gbm.closes Gbm.highs Gbm.lows].
    rewrite Z2Nat.inj_mul, Nat.add_0_r by lia. fold m.
    apply closed_bars; [exact Hd|]. unfold m. lia.
  - intros st g' Hrun d Hd m.
    pose proof (svm_simulate_domain _ _ _ _ _ _ _ _ _ _ _ _ _ _ _ Hrun) as Hdom.
    apply svm_simulate_inv in Hrun as (-> & _).
    assert (Hspd : (0 < spd)%Z) by lia.
    cbn [svm_state_at Svm.arr_S Svm.opens Svm.closes Svm.highs Svm.lows].
    rewrite Z2Nat.inj_mul, Nat.add_0_r by lia. fold m.
    apply closed_bars; [exact Hd|]. unfold m. lia.
  - intros p g'. unfold Gbm.generate_gbm_prices. split.
    + intros Hrun. apply bind_Ok_inv in Hrun as (st & g1 & Hsim & Hret).
      injection Hret as <- <-. by exists st.
    + intros (st & Hsim & ->). by erewrite bind_Ok by exact Hsim.
  - intros p g'. unfold Svm.generate_svm_prices. split.
    + intros Hrun. apply bind_Ok_inv in Hrun as (st & g1 & Hsim & Hret).
      injection Hret as <- <-. by exists st.
    + intros (st & Hsim & ->). by erewrite bind_Ok by exact Hsim.
Qed.

Lemma gbm_simulate_no_days dt S0 mu sigma spd seed g :
  (spd < 0)%Z ->
  Gbm.simulate 0 dt S0 mu sigma spd seed g
  = Ok {| Gbm.arr_S := [S0]; Gbm.day_prices := [];
          Gbm.opens := []; Gbm.closes := []; Gbm.highs := [];
          Gbm.lows := [] |}
       (after_seed seed g).
Proof.
  intros Hspd. unfold Gbm.simulate, bind.
  rewrite np_random_seed_run. unfold py_truediv.
  destruct (Z.eqb_spec spd 0) as [?|_]; [lia|]. reflexivity.
Qed.



(** X5: a returning call of [generate_gbm_prices] has consumed exactly
    [T * steps_per_day] draws of the random source, and one of
    [generate_svm_prices] exactly twice as many; without a seed the source
    is otherwise unchanged. *)
Theorem generators_consume_draws T dt S0 mu sigma v0 kappa theta sigma_v rho
    ev spd seed g :
  (forall p g',
      Gbm.generate_gbm_prices T dt S0 mu sigma spd seed g = Ok p g' ->
      g' = advance (Z.to_nat (T * spd)) (after_seed seed g))
  /\ (forall p g',
        Svm.generate_svm_prices T dt S0 v0 kappa theta sigma_v rho mu ev spd
          seed g = Ok p g' ->
        g' = advance (2 * Z.to_nat (T * spd)) (after_seed seed g)).
Proof.
  split; intros p g' Hrun.
  - by apply gbm_generate_closed in Hrun as (_ & _ & ->).
  - apply svm_generate_closed in Hrun as (_ & _ & ->).
    f_equal. lia.
Qed.


Lemma gbm_path_nonneg S0 mu sigma dt_intra z k :
  0 <= S0 -> 0 <= gbm_path S0 mu sigma dt_intra z k.
Proof.
  intros HS0. induction k as [|k IH]; [exact HS0|].
  cbn [gbm_path]. apply Rmult_le_pos; [exact IH|]. left. apply exp_pos.
Qed.

Lemma crash_multiplier_nonneg ev spd t :
  (forall cf, Svm.crash_factor ev = Some cf -> 0 <= cf) ->
  0 <= crash_multiplier ev spd t.
Proof.
  intros Hcf. unfold crash_multiplier.
  destruct (Svm.crash_day ev) as [c|]; [|lra].
  destruct (Svm.crash_factor ev) as [cf|]; [|lra].
  destruct (int_equals _ _); [by apply Hcf|lra].
Qed.

Lemma svm_path_nonneg S0 mu ev dt_intra spd var z1 k :
  0 <= S0 -> (forall cf, Svm.crash_factor ev = Some cf -> 0 <= cf) ->
  0 <= svm_path S0 mu ev dt_intra spd var z1 k.
Proof.
  intros HS0 Hcf. induction k as [|k IH]; [exact HS0|].
  cbn [svm_path]. apply Rmult_le_pos; [|by apply crash_multiplier_nonneg].
  unfold svm_diffuse. apply Rmult_le_pos; [exact IH|]. left. apply exp_pos.
Qed.

Lemma fold_left_Rmin_nonneg xs a :
  0 <= a -> Forall (fun x => 0 <= x) xs -> 0 <= fold_left Rmin xs a.
Proof.
  revert a. induction xs as [|x xs IH]; intros a Ha Hxs; [exact Ha|].
  inversion Hxs as [|? ? Hx Hxs']; subst. simpl. apply IH; [|exact Hxs'].
  unfold Rmin. by destruct (Rle_dec a x).
Qed.

Lemma fold_left_Rmax_nonneg xs a : 0 <= a -> 0 <= fold_left Rmax xs a.
Proof.
  intros Ha. pose proof (fold_left_Rmax_ge xs a). lra.
Qed.

(** No entry of the four columns of the closed form is negative when no
    cell of the path is. *)
Lemma bars_never_negative f m q :
  ((0 < q)%nat -> (0 < m)%nat) -> (forall k, 0 <= f k) ->
  Forall (fun x => ~ (x < 0)) (day_opens f m q)
  /\ Forall (fun x => ~ (x < 0)) (day_closes f m q)
  /\ Forall (fun x => ~ (x < 0)) (day_highs f m q)
  /\ Forall (fun x => ~ (x < 0)) (day_lows f m q).
Proof.
  intros Hm Hf.
  assert (Hcell : forall k, ~ (f k < 0)) by (intros k; specialize (Hf k); lra).
  assert (Hslice : forall d, exists x xs,
             day_slice f m d m = x :: xs /\ 0 <= x
             /\ Forall (fun y => 0 <= y) xs \/ q = O).
  { intros d. destruct q as [|q]; [exists 0, []; by right|].
    destruct m as [|m]; [lia|].
    exists (f (d * S m + 1)%nat), (map f (seq (S (d * S m + 1)) m)).
    left. split; [reflexivity|]. split; [apply Hf|].
    apply List.Forall_forall. intros y (j & <- & _)%in_map_iff. apply Hf. }
  repeat split.
  - apply List.Forall_forall. intros y (j & <- & _)%in_map_iff. apply Hcell.
  - apply List.Forall_forall. intros y (j & <- & _)%in_map_iff. apply Hcell.
  - apply List.Forall_forall. intros y (d & <- & Hd)%in_map_iff.
    destruct (Hslice d) as (x & xs & [(-> & Hx & _)| ->]); [|by destruct Hd].
    pose proof (fold_left_Rmax_nonneg xs x Hx). simpl. lra.
  - apply List.Forall_forall. intros y (d & <- & Hd)%in_map_iff.
    destruct (Hslice d) as (x & xs & [(-> & Hx & Hxs)| ->]); [|by destruct Hd].
    pose proof (fold_left_Rmin_nonneg xs x Hx Hxs). simpl. lra.
Qed.

(** X7: from an initial price that is not negative neither generator
    returns a negative price, in any of the four columns: the comparison
    [x < 0] fails on every entry; for the SV model the crash factor, when
    given, must not be negative either. *)
Theorem prices_are_never_negative T dt S0 mu sigma v0 kappa theta sigma_v rho
    ev spd seed g :
  0 <= S0 ->
  (forall p g',
      Gbm.generate_gbm_prices T dt S0 mu sigma spd seed g = Ok p g' ->
      Forall (fun x => ~ (x < 0)) (open_prices p)
      /\ Forall (fun x => ~ (x < 0)) (close_prices p)
      /\ Forall (fun x => ~ (x < 0)) (high_prices p)
      /\ Forall (fun x => ~ (x < 0)) (low_prices p))
  /\ ((forall cf, Svm.crash_factor ev = Some cf -> 0 <= cf) ->
      forall p g',
        Svm.generate_svm_prices T dt S0 v0 kappa theta sigma_v rho mu ev spd
          seed g = Ok p g' ->
        Forall (fun x => ~ (x < 0)) (open_prices p)
        /\ Forall (fun x => ~ (x < 0)) (close_prices p)
        /\ Forall (fun x => ~ (x < 0)) (high_prices p)
        /\ Forall (fun x => ~ (x < 0)) (low_prices p)).
Proof.
  intros HS0. split.
  - intros p g' Hrun.
    apply gbm_generate_closed in Hrun as (Hdom & -> & _).
    cbn [open_prices close_prices high_prices low_prices].
    apply bars_never_negative; [lia|]. intros k. by apply gbm_path_nonneg.
  - intros Hcf p g' Hrun.
    apply svm_generate_closed in Hrun as (Hdom & -> & _).
    cbn [open_prices close_prices high_prices low_prices].
    apply bars_never_negative; [lia|]. intros k. by apply svm_path_nonneg.
Qed.

Lemma gbm_path_no_volatility S0 mu dt_intra z z' k :
  gbm_path S0 mu 0 dt_intra z k = gbm_path S0 mu 0 dt_intra z' k.
Proof.
  induction k as [|k IH]; [done|].
  cbn [gbm_path]. rewrite IH. f_equal. f_equal. lra.
Qed.

(** X8: with [sigma = 0] and a time step that is not negative the GBM
    path does not depend on the random source: from any two sources the
    generator returns the same path. *)
Theorem gbm_without_volatility T dt S0 mu spd seed g1 g2 p1 g1' p2 g2' :
  0 <= dt ->
  Gbm.generate_gbm_prices T dt S0 mu 0 spd seed g1 = Ok p1 g1' ->
  Gbm.generate_gbm_prices T dt S0 mu 0 spd seed g2 = Ok p2 g2' ->
  p1 = p2.
Proof.
  intros _ Hrun1 Hrun2.
  apply gbm_generate_closed in Hrun1 as (_ & -> & _).
  apply gbm_generate_closed in Hrun2 as (_ & -> & _).
  f_equal.
  - apply map_ext. intros d. apply gbm_path_no_volatility.
  - apply map_ext. intros d. apply gbm_path_no_volatility.
  - apply map_ext. intros d. f_equal. apply map_ext. intros k.
    apply gbm_path_no_volatility.
  - apply map_ext. intros d. f_equal. apply map_ext. intros k.
    apply gbm_path_no_volatility.
Qed.

(** The four columns depend on the path only up to the last sub-step. *)
Lemma day_columns_ext f f' m q :
  (forall j, (j <= q * m)%nat -> f j = f' j) ->
  day_opens f m q = day_opens f' m q
  /\ day_closes f m q = day_closes f' m q
  /\ day_highs f m q = day_highs f' m q
  /\ day_lows f m q = day_lows f' m q.
Proof.
  intros Hext.
  assert (Hin : forall d, In d (seq 0 q) -> (d * m + m <= q * m)%nat).
  { intros d [_ Hd]%in_seq.
    assert (S d * m <= q * m)%nat by (apply Nat.mul_le_mono_r; lia).
    simpl in *. lia. }
  assert (Hslice : forall d, In d (seq 0 q) ->
            day_slice f m d m = day_slice f' m d m).
  { intros d Hd%Hin. unfold day_slice. apply map_ext_in.
    intros j [? ?]%in_seq. apply Hext. lia. }
  repeat split; apply map_ext_in; intros d Hd.
  - apply Hext. apply Hin in Hd. lia.
  - apply Hext. by apply Hin.
  - by rewrite Hslice.
  - by rewrite Hslice.
Qed.

Lemma svm_path_ext_range S0 mu ev ev' dt_intra spd var z1 n :
  (forall t, (t < n)%nat ->
     Svm.drift_today mu ev (Z.of_nat t / spd + 1)
     = Svm.drift_today mu ev' (Z.of_nat t / spd + 1)) ->
  (forall t, (t < n)%nat ->
     crash_multiplier ev spd (Z.of_nat t) = crash_multiplier ev' spd (Z.of_nat t)) ->
  forall k, (k <= n)%nat ->
    svm_path S0 mu ev dt_intra spd var z1 k
    = svm_path S0 mu ev' dt_intra spd var z1 k.
Proof.
  intros Hdrift Hcrash k. induction k as [|k IH]; intros Hk; [done|].
  cbn [svm_path]. unfold svm_diffuse.
  rewrite IH, Hdrift, Hcrash by lia. done.
Qed.

(** The day of a sub-step of a run of [T] days. *)
Lemma day_of_step T spd t :
  (0 < spd)%Z -> (0 <= T)%Z -> (t < Z.to_nat (T * spd))%nat ->
  (1 <= Z.of_nat t / spd + 1 <= T)%Z.
Proof.
  intros Hspd HT Ht.
  assert (0 <= Z.of_nat t / spd)%Z by (apply Z.div_pos; lia).
  assert (Z.of_nat t / spd < T)%Z by (apply Z.div_lt_upper_bound; lia).
  lia.
Qed.

Lemma drift_today_misses T mu ev day :
  bubble_misses T ev -> (1 <= day <= T)%Z -> Svm.drift_today mu ev day = mu.
Proof.
  unfold bubble_misses, Svm.drift_today. intros Hmiss Hday.
  destruct (Svm.bubble_start ev) as [bs|]; [|done].
  destruct (Svm.bubble_end ev) as [be|]; [|done].
  destruct (Svm.bubble_mu_extra ev) as [extra|]; [|done].
  destruct (Z.leb_spec bs day); [|done].
  destruct (Z.leb_spec day be); [|done]. lia.
Qed.

Lemma crash_multiplier_misses T ev spd t :
  crash_misses T ev -> (0 < spd)%Z -> (0 <= t < T * spd)%Z ->
  crash_multiplier ev spd t = 1.
Proof.
  unfold crash_misses, crash_multiplier. intros Hmiss Hspd Ht.
  destruct (Svm.crash_day ev) as [[c|x]|]; [| |done].
  - destruct (Svm.crash_factor ev) as [cf|]; [|done].
    cbn [number_times_int int_equals].
    destruct (Z.eqb_spec (t + 1) (c * spd)) as [Heq|]; [|done].
    exfalso. destruct Hmiss as [Hc|Hc]; nia.
  - destruct (Svm.crash_factor ev) as [cf|]; [|done].
    cbn [number_times_int int_equals].
    destruct (Req_dec_T (IZR (t + 1)) (x * IZR spd)) as [Heq|]; [|done].
    exfalso.
    assert (Hspd' : 0 < IZR spd) by (by apply IZR_lt).
    assert (Hlo : 1 <= IZR (t + 1)) by (apply IZR_le; lia).
    assert (Hhi : IZR (t + 1) <= IZR T * IZR spd).
    { rewrite <- mult_IZR. apply IZR_le. lia. }
    destruct Hmiss as [Hx|Hx]; nra.
Qed.

Lemma gbm_generate_total T dt S0 mu sigma spd seed g :
  (0 < spd /\ 0 <= T)%Z \/ (spd < 0 /\ T = 0)%Z ->
  exists p g', Gbm.generate_gbm_prices T dt S0 mu sigma spd seed g = Ok p g'.
Proof.
  intros [[Hspd HT]|[Hspd ->]].
  - eexists _, _. by apply gbm_generate_ok.
  - eexists _, _. unfold Gbm.generate_gbm_prices, bind.
    rewrite gbm_simulate_no_days by done. reflexivity.
Qed.

Lemma svm_generate_total T dt S0 v0 kappa theta sigma_v rho mu ev spd seed g :
  (0 < spd /\ 0 <= T)%Z \/ (spd < 0 /\ T = 0)%Z ->
  exists p g',
    Svm.generate_svm_prices T dt S0 v0 kappa theta sigma_v rho mu ev spd seed g
    = Ok p g'.
Proof.
  intros [[Hspd HT]|[Hspd ->]].
  - eexists _, _. by apply svm_generate_ok.
  - eexists _, _. unfold Svm.generate_svm_prices, bind.
    rewrite svm_simulate_no_days by done. reflexivity.
Qed.

(** Two event records that act alike on the days [1..T] give the same
    returning runs. *)
Lemma svm_generate_ext T dt S0 v0 kappa theta sigma_v rho mu ev ev' spd seed
    g p g' :
  (forall day, (1 <= day <= T)%Z ->
     Svm.drift_today mu ev day = Svm.drift_today mu ev' day) ->
  (forall t, (0 < spd)%Z -> (0 <= t < T * spd)%Z ->
     crash_multiplier ev spd t = crash_multiplier ev' spd t) ->
  Svm.generate_svm_prices T dt S0 v0 kappa theta sigma_v rho mu ev spd seed g
  = Ok p g' ->
  Svm.generate_svm_prices T dt S0 v0 kappa theta sigma_v rho mu ev' spd seed g
  = Ok p g'.
Proof.
  intros Hdrift Hcrash Hrun.
  apply svm_generate_closed in Hrun as (Hdom & -> & ->).
  destruct (svm_generate_total T dt S0 v0 kappa theta sigma_v rho mu ev' spd
              seed g Hdom) as (p' & g'' & Hrun').
  rewrite Hrun'.
  apply svm_generate_closed in Hrun' as (_ & -> & ->).
  f_equal.
  set (n := Z.to_nat (T * spd)).
  set (var := svm_var _ _ _ _ _ _).
  destruct (day_columns_ext
              (svm_path S0 mu ev' (dt / IZR spd) spd var
                 (draws (after_seed seed g)))
              (svm_path S0 mu ev (dt / IZR spd) spd var
                 (draws (after_seed seed g)))
              (Z.to_nat spd) (Z.to_nat T)) as (-> & -> & -> & ->); [|done].
  intros j Hj. symmetry.
  apply (svm_path_ext_range _ _ _ _ _ _ _ _ n); [| |].
  - intros t Ht. unfold n in Ht.
    destruct Hdom as [[Hspd HT]|[Hspd ->]]; [|simpl in Ht; lia].
    apply Hdrift. by apply day_of_step.
  - intros t Ht. unfold n in Ht.
    destruct Hdom as [[Hspd HT]|[Hspd ->]]; [|simpl in Ht; lia].
    apply Hcrash; [done|]. lia.
  - unfold n. destruct Hdom as [[Hspd HT]|[Hspd ->]].
    + rewrite Z2Nat.inj_mul by lia. done.
    + simpl in *. lia.
Qed.

(** X9: a bubble window and a crash day that both miss the days [1..T] of
    the run change nothing: the SV generator returns the same path, and
    leaves the random source in the same state, as without any event
    argument. *)
Theorem events_outside_the_run_are_ignored T dt S0 v0 kappa theta sigma_v rho
    mu ev spd seed g p g' :
  bubble_misses T ev -> crash_misses T ev ->
  Svm.generate_svm_prices T dt S0 v0 kappa theta sigma_v rho mu ev spd seed g
  = Ok p g'
  <-> Svm.generate_svm_prices T dt S0 v0 kappa theta sigma_v rho mu no_events
        spd seed g = Ok p g'.
Proof.
  intros Hbubble Hcrash.
  assert (Hd : forall day, (1 <= day <= T)%Z ->
            Svm.drift_today mu ev day = Svm.drift_today mu no_events day).
  { intros day Hday. by rewrite (drift_today_misses T). }
  assert (Hc : forall t, (0 < spd)%Z -> (0 <= t < T * spd)%Z ->
            crash_multiplier ev spd t = crash_multiplier no_events spd t).
  { intros t Hspd Ht. by rewrite (crash_multiplier_misses T). }
  split; apply svm_generate_ext.
  - exact Hd.
  - exact Hc.
  - intros day Hday. symmetry. by apply Hd.
  - intros t Hspd Ht. symmetry. by apply Hc.
Qed.

(** Before the crash sub-step the crash multiplier is 1. *)
Lemma crash_multiplier_before ev spd c (t : nat) :
  Svm.crash_day ev = Some (PyInt c) ->
  (Z.of_nat t + 1 < c * spd)%Z ->
  crash_multiplier ev spd (Z.of_nat t) = 1.
Proof.
  intros Hday Ht. unfold crash_multiplier. rewrite Hday.
  destruct (Svm.crash_factor ev) as [cf|]; [|done].
  cbn [number_times_int int_equals].
  by destruct (Z.eqb_spec (Z.of_nat t + 1) (c * spd)); [lia|].
Qed.

Lemma crash_multiplier_without ev spd t :
  crash_multiplier (without_crash ev) spd t = 1.
Proof. done. Qed.

(** Up to the crash sub-step the price recurrence is that of the run
    without the crash day. *)
Lemma svm_path_before_crash S0 mu ev dt_intra spd var z1 c k :
  Svm.crash_day ev = Some (PyInt c) ->
  (Z.of_nat k < c * spd)%Z ->
  svm_path S0 mu ev dt_intra spd var z1 k
  = svm_path S0 mu (without_crash ev) dt_intra spd var z1 k.
Proof.
  intros Hday Hk.
  apply (svm_path_ext_range _ _ _ _ _ _ _ _ k); [done| |done].
  intros t Ht. rewrite crash_multiplier_without.
  apply (crash_multiplier_before _ _ c); [done|lia].
Qed.

(** At the crash sub-step the cell is the crash factor times the cell of
    the run without the crash day. *)
Lemma svm_path_at_crash S0 mu ev dt_intra spd var z1 c cf k :
  Svm.crash_day ev = Some (PyInt c) -> Svm.crash_factor ev = Some cf ->
  (Z.of_nat k + 1 = c * spd)%Z ->
  svm_path S0 mu ev dt_intra spd var z1 (S k)
  = svm_path S0 mu (without_crash ev) dt_intra spd var z1 (S k) * cf.
Proof.
  intros Hday Hfactor Hk. cbn [svm_path].
  rewrite (svm_path_before_crash _ _ _ _ _ _ _ c) by (done || lia).
  rewrite crash_multiplier_without. unfold crash_multiplier.
  rewrite Hday, Hfactor. cbn [number_times_int int_equals].
  destruct (Z.eqb_spec (Z.of_nat k + 1) (c * spd)); [|done].
  replace (svm_diffuse mu (without_crash ev)) with (svm_diffuse mu ev) by done.
  lra.
Qed.

(** X10: a crash on a whole day [c] of the run touches nothing before it.
    Compared with the run without the crash day (same arguments, same
    random source), the random source is left in the same state, the
    variance array is the same, the cells of [S] before the crash
    sub-step [c * steps_per_day] are the same and the cell at the crash
    sub-step is the cell of the other run times the crash factor; the
    bars of the days before [c] are the same, and so is the open of day
    [c]. *)
Theorem crash_leaves_earlier_prices T dt S0 v0 kappa theta sigma_v rho mu ev
    spd seed g c cf st g' st0 g0' :
  Svm.crash_day ev = Some (PyInt c) -> Svm.crash_factor ev = Some cf ->
  (1 <= c <= T)%Z ->
  Svm.simulate T dt S0 v0 kappa theta sigma_v rho mu ev spd seed g
  = Ok st g' ->
  Svm.simulate T dt S0 v0 kappa theta sigma_v rho mu (without_crash ev) spd
    seed g = Ok st0 g0' ->
  g' = g0'
  /\ Svm.arr_v st = Svm.arr_v st0
  /\ (forall k, (k < Z.to_nat (c * spd))%nat ->
        Svm.arr_S st !! k = Svm.arr_S st0 !! k)
  /\ (exists x,
        Svm.arr_S st0 !! Z.to_nat (c * spd) = Some x
        /\ Svm.arr_S st !! Z.to_nat (c * spd) = Some (x * cf))
  /\ (forall d, (d < Z.to_nat (c - 1))%nat ->
        Svm.opens st !! d = Svm.opens st0 !! d
        /\ Svm.closes st !! d = Svm.closes st0 !! d
        /\ Svm.highs st !! d = Svm.highs st0 !! d
        /\ Svm.lows st !! d = Svm.lows st0 !! d)
  /\ Svm.opens st !! Z.to_nat (c - 1) = Svm.opens st0 !! Z.to_nat (c - 1).
Proof.
  intros Hday Hfactor Hc Hrun Hrun0.
  pose proof (svm_simulate_domain _ _ _ _ _ _ _ _ _ _ _ _ _ _ _ Hrun) as Hdom.
  assert (Hspd : (0 < spd)%Z) by lia.
  pose proof (svm_run_S _ _ _ _ _ _ _ _ _ _ _ _ _ _ _ Hrun) as HS.
  pose proof (svm_run_S _ _ _ _ _ _ _ _ _ _ _ _ _ _ _ Hrun0) as HS0.
  apply svm_simulate_inv in Hrun as (-> & ->).
  apply svm_simulate_inv in Hrun0 as (-> & ->).
  cbv zeta in *.
  set (n := Z.to_nat (T * spd)) in *. set (m := Z.to_nat spd) in *.
  set (var := svm_var v0 kappa theta sigma_v (dt / IZR spd)
                (svm_z2 rho n (after_seed seed g))) in *.
  set (f := svm_path S0 mu ev (dt / IZR spd) spd var
              (draws (after_seed seed g))) in *.
  set (f0 := svm_path S0 mu (without_crash ev) (dt / IZR spd) spd var
               (draws (after_seed seed g))) in *.
  assert (Hbefore : forall k, (Z.of_nat k < c * spd)%Z -> f k = f0 k).
  { intros k Hk. by apply (svm_path_before_crash _ _ _ _ _ _ _ c). }
  assert (Hcn : (Z.to_nat (c * spd) <= n)%nat) by (unfold n; nia).
  assert (Hday_le : forall d, (d < Z.to_nat c)%nat ->
            (Z.of_nat (d * m) < c * spd)%Z).
  { intros d Hd. unfold m. nia. }
  assert (Hslice : forall d, (d < Z.to_nat (c - 1))%nat ->
            day_slice f m d m = day_slice f0 m d m).
  { intros d Hd. unfold day_slice. apply map_ext_in.
    intros j [? ?]%in_seq. apply Hbefore. unfold m in *. nia. }
  split; [done|]. split; [done|]. split; [|split; [|split]].
  - intros k Hk. rewrite HS, HS0 by lia. f_equal. apply Hbefore. lia.
  - exists (f0 (Z.to_nat (c * spd))).
    split; [by apply HS0|]. rewrite HS by done. f_equal.
    assert (Hk : Z.to_nat (c * spd) = S (Z.to_nat (c * spd - 1))) by nia.
    rewrite Hk. apply (svm_path_at_crash _ _ _ _ _ _ _ c); [done|done|nia].
  - intros d Hd.
    cbn [svm_state_at Svm.opens Svm.closes Svm.highs Svm.lows].
    rewrite !lookup_day_opens, !lookup_day_closes, !lookup_day_highs,
      !lookup_day_lows by lia.
    rewrite Hslice by done.
    split; [f_equal; apply Hbefore; unfold m; nia|].
    split; [f_equal; apply Hbefore; unfold m; nia|]. done.
  - cbn [svm_state_at Svm.opens].
    rewrite !lookup_day_opens by lia. f_equal. apply Hbefore. unfold m. nia.
Qed.

Lemma svm_var_at_mean kappa theta dt_intra z2 k :
  0 <= theta -> svm_var theta kappa theta 0 dt_intra z2 k = theta.
Proof.
  intros Htheta. induction k as [|k IH]; [done|].
  cbn [svm_var]. rewrite IH.
  replace (theta + kappa * (theta - theta) * dt_intra
           + 0 * sqrt (Rmax theta 0 * dt_intra) * z2 k) with theta by lra.
  destruct (Rlt_dec theta 0); [lra|done].
Qed.


(** ** Further properties of the chainer *)

Lemma keeps_rng_Ok {A} (c : M A) g a g1 :
  keeps_rng c -> c g = Ok a g1 -> g1 = g.
Proof. intros Hc H. destruct (Hc g) as [[a' Ha]|[e He]]; congruence. Qed.

Lemma keeps_rng_Raise {A} (c : M A) g e g1 :
  keeps_rng c -> c g = Raise e g1 -> g1 = g.
Proof. intros Hc H. destruct (Hc g) as [[a' Ha]|[e' He]]; congruence. Qed.

Section ChainRuns.
Context {B : Builtins}.

Lemma keeps_rng_crash_day (params : gmap string string) (b_end : Z) :
  keeps_rng (match params !! "Crash Day" with
             | Some text => lift (py_int text)
             | None => ret b_end
             end).
Proof.
  destruct (params !! "Crash Day"); [apply keeps_rng_lift|apply keeps_rng_ret].
Qed.

(** The [try] block yields a path only from a call of the generator of
    the interval's model, on [T] days at 4 sub-steps a day, without a
    seed, and on the random source as the block found it. *)
Lemma run_interval_Simulated_gen i c last g T path g' :
  run_interval i c last g = Ok (Simulated T path) g' ->
  exists S0,
    initial_price (cfg_params c) last g = Ok S0 g
    /\ ((cfg_model c = "Geometric Brownian Motion (GBM)"
         /\ exists dt mu sigma,
             Gbm.generate_gbm_prices T dt S0 mu sigma 4 None g = Ok path g')
        \/ (cfg_model c = "Stochastic Volatility Model (Heston)"
            /\ exists dt v0 kappa theta sigma_v rho mu ev,
                Svm.generate_svm_prices T dt S0 v0 kappa theta sigma_v rho
                  mu ev 4 None g = Ok path g')).
Proof.
  unfold run_interval. intros H.
  apply bind_Ok_inv in H as (start_day & g1 & H1 & H).
  apply (keeps_rng_Ok _ _ _ _ (keeps_rng_lift _)) in H1 as ->.
  apply bind_Ok_inv in H as (end_day & g1 & H1 & H).
  apply (keeps_rng_Ok _ _ _ _ (keeps_rng_lift _)) in H1 as ->.
  destruct (Z.leb_spec (end_day - start_day) 0) as [|HT]; [done|].
  apply bind_Ok_inv in H as (dt & g1 & H1 & H).
  apply (keeps_rng_Ok _ _ _ _ (keeps_rng_parse_float _)) in H1 as ->.
  destruct (decide (cfg_model c = "Geometric Brownian Motion (GBM)")) as [Hm|_].
  - apply bind_Ok_inv in H as (S0 & g1 & HS0 & H).
    pose proof (keeps_rng_Ok _ _ _ _ (keeps_rng_initial_price _ _) HS0) as ->.
    apply bind_Ok_inv in H as (mu & g1 & H1 & H).
    apply (keeps_rng_Ok _ _ _ _ (keeps_rng_parse_float _)) in H1 as ->.
    apply bind_Ok_inv in H as (sigma & g1 & H1 & H).
    apply (keeps_rng_Ok _ _ _ _ (keeps_rng_parse_float _)) in H1 as ->.
    apply bind_Ok_inv in H as (p & g1 & Hgen & H).
    injection H as <- <- <-.
    exists S0. split; [exact HS0|]. left. split; [exact Hm|]. eauto.
  - destruct (decide (cfg_model c = "Stochastic Volatility Model (Heston)"))
      as [Hm|_]; [|done].
    apply bind_Ok_inv in H as (S0 & g1 & HS0 & H).
    pose proof (keeps_rng_Ok _ _ _ _ (keeps_rng_initial_price _ _) HS0) as ->.
    do 6 (apply bind_Ok_inv in H as (? & g1 & H1 & H);
          apply (keeps_rng_Ok _ _ _ _ (keeps_rng_parse_float _)) in H1 as ->).
    do 2 (apply bind_Ok_inv in H as (? & g1 & H1 & H);
          apply (keeps_rng_Ok _ _ _ _ (keeps_rng_lift _)) in H1 as ->).
    apply bind_Ok_inv in H as (? & g1 & H1 & H).
    apply (keeps_rng_Ok _ _ _ _ (keeps_rng_optional_float _ _ _)) in H1 as ->.
    apply bind_Ok_inv in H as (? & g1 & H1 & H).
    apply (keeps_rng_Ok _ _ _ _ (keeps_rng_crash_day _ _)) in H1 as ->.
    apply bind_Ok_inv in H as (? & g1 & H1 & H).
    apply (keeps_rng_Ok _ _ _ _ (keeps_rng_optional_float _ _ _)) in H1 as ->.
    apply bind_Ok_inv in H as (p & g1 & Hgen & H).
    injection H as <- <- <-.
    exists S0. split; [exact HS0|]. right. split; [exact Hm|].
    do 8 eexists. exact Hgen.
Qed.

(** What the statements after the [try] block do when they return. *)
Lemma append_path_Ok_inv acc T path g acc' g' :
  append_path acc T path g = Ok acc' g' ->
  g' = g
  /\ exists x,
       last (close_prices path) = Some x
       /\ acc' = {| overall :=
                      {| Day := Day (overall acc)
                                ++ map (fun d => (d + current_offset acc)%Z)
                                     (days path);
                         Open := Open (overall acc) ++ open_prices path;
                         Close := Close (overall acc) ++ close_prices path;
                         High := High (overall acc) ++ high_prices path;
                         Low := Low (overall acc) ++ low_prices path |};
                    last_price := Some x;
                    current_offset := (current_offset acc + T)%Z |}.
Proof.
  intros H.
  assert (Hcases : close_prices path = []
                   \/ exists cs c0, close_prices path = cs ++ [c0]).
  { destruct (close_prices path) as [|c0 cs _] using rev_ind; eauto. }
  destruct Hcases as [Hclose|(cs & c0 & Hclose)].
  { unfold append_path in H. by rewrite Hclose in H. }
  rewrite (append_path_run acc T path cs c0 g Hclose) in H.
  injection H as <- <-. split; [done|]. exists c0.
  rewrite Hclose. split; [by rewrite last_snoc|done].
Qed.

(** An invariant of the main loop: what holds of the intervals processed
    so far, the chain and the random source, and is kept by every
    interval that is simulated and appended, holds when the loop
    completes. *)
Lemma simulate_intervals_invariant
    (I : list config -> chain_state -> rng -> Prop) :
  (forall l i c acc g T path g' acc',
      I l acc g ->
      run_interval i c (last_price acc) g = Ok (Simulated T path) g' ->
      append_path acc T path g' = Ok acc' g' ->
      I (l ++ [c]) acc' g') ->
  forall icfgs l i acc g acc' g',
    simulate_intervals i icfgs acc g = (g', Completed acc') ->
    I l acc g -> I (l ++ icfgs) acc' g'.
Proof.
  intros Hstep. induction icfgs as [|c rest IH]; intros l i acc g acc' g'.
  - simpl. intros [= <- <-]. by rewrite app_nil_r.
  - simpl.
    destruct (run_interval i c (last_price acc) g)
      as [[title m|T path] g1|[] g1] eqn:Hrun; try done.
    destruct (append_path acc T path g1) as [acc1 g2|e g2] eqn:Happ; [|done].
    intros Hsim HI.
    pose proof (append_path_Ok_inv _ _ _ _ _ _ Happ) as [-> _].
    replace (l ++ c :: rest) with ((l ++ [c]) ++ rest)
      by (by rewrite <- app_assoc).
    eapply IH; [exact Hsim|]. by eapply Hstep.
Qed.

(** A completed run, taken apart. *)
Lemma run_simulation_Completed_inv cfgs g series g' :
  run_simulation cfgs g = (g', Completed series) ->
  exists sorted acc,
    Forall well_ordered cfgs
    /\ sort_by_start cfgs = Completed sorted
    /\ simulate_intervals 1 sorted initial_chain g = (g', Completed acc)
    /\ series = overall acc.
Proof.
  unfold run_simulation.
  destruct (collect_intervals 1 cfgs) as [| |l] eqn:Hcollect; try done.
  apply collect_Completed_inv in Hcollect as [-> Hwo].
  destruct (sort_by_start cfgs) as [| |sorted] eqn:Hsort; try done.
  destruct (simulate_intervals 1 sorted initial_chain g) as [g1 [| |acc]]
    eqn:Hsim; try done.
  intros [= <- <-]. by exists sorted, acc.
Qed.
End ChainRuns.

Lemma first_open f m q : (0 < q)%nat -> day_opens f m q !! O = Some (f O).
Proof. intros Hq. by rewrite lookup_day_opens. Qed.

Section ChainPaths.
Context {B : Builtins}.

(** What the [try] block hands to the rest of the loop. *)
Lemma run_interval_path i c last g T path g' :
  run_interval i c last g = Ok (Simulated T path) g' ->
  (1 <= T)%Z /\ T = interval_length c
  /\ (length (days path) = Z.to_nat T
      /\ length (open_prices path) = Z.to_nat T
      /\ length (close_prices path) = Z.to_nat T
      /\ length (high_prices path) = Z.to_nat T
      /\ length (low_prices path) = Z.to_nat T)
  /\ (exists S0,
        initial_price (cfg_params c) last g = Ok S0 g
        /\ open_prices path !! O = Some S0)
  /\ g' = advance (interval_draws c) g.
Proof.
  intros Hrun.
  pose proof (run_interval_Simulated _ _ _ _ _ _ _ Hrun) as (Hwo & HT & _).
  pose proof (interval_length_valid c Hwo) as Hlen. rewrite <- HT in Hlen.
  split; [exact Hlen|]. split; [exact HT|].
  apply run_interval_Simulated_gen in Hrun
    as (S0 & HS0 & [(Hm & dt & mu & sigma & Hgen)
                   |(Hm & dt & v0 & kappa & theta & sigma_v & rho & mu & ev
                     & Hgen)]).
  - apply gbm_generate_closed in Hgen as (_ & -> & ->).
    cbn [days open_prices close_prices high_prices low_prices].
    rewrite length_map, length_seq, length_day_opens, length_day_closes,
      length_day_highs, length_day_lows.
    split; [done|].
    split.
    + exists S0. split; [exact HS0|]. rewrite first_open by lia. done.
    + unfold interval_draws. rewrite decide_True by exact Hm.
      by rewrite <- HT.
  - apply svm_generate_closed in Hgen as (_ & -> & ->).
    cbn [days open_prices close_prices high_prices low_prices].
    rewrite length_map, length_seq, length_day_opens, length_day_closes,
      length_day_highs, length_day_lows.
    split; [done|].
    split.
    + exists S0. split; [exact HS0|]. rewrite first_open by lia. done.
    + unfold interval_draws. rewrite decide_False by (by rewrite Hm).
      rewrite <- HT. cbn [after_seed]. f_equal. lia.
Qed.

Lemma total_draws_app l1 l2 :
  total_draws (l1 ++ l2) = (total_draws l1 + total_draws l2)%nat.
Proof.
  induction l1 as [|c l1 IH]; [done|]. simpl. rewrite IH. lia.
Qed.

Lemma total_draws_perm l l' : l ≡ₚ l' -> total_draws l = total_draws l'.
Proof.
  induction 1 as [|c l l' _ IH|c c' l|l l' l'' _ IH1 _ IH2]; simpl;
    [done|by rewrite IH|lia|congruence].
Qed.

Lemma columns_align_loop icfgs i acc g acc' g' :
  simulate_intervals i icfgs acc g = (g', Completed acc') ->
  columns_align (overall acc) -> columns_align (overall acc').
Proof.
  intros Hsim Hacc.
  refine (simulate_intervals_invariant
            (fun _ acc _ => columns_align (overall acc))
            _ icfgs [] i acc g acc' g' Hsim Hacc).
  clear. intros _ i c acc g T path g' acc' (HD & HO & HH & HL) Hrun Happ.
  apply run_interval_path in Hrun
    as (_ & _ & (Hd & Ho & Hc & Hh & Hl) & _).
  apply append_path_Ok_inv in Happ as (_ & x & _ & ->).
  unfold columns_align. cbn [overall Day Open Close High Low].
  rewrite !length_app, length_map. lia.
Qed.

Lemma columns_align_empty : columns_align (overall initial_chain).
Proof. done. Qed.

End ChainPaths.

Section ChainResults.
Context {B : Builtins}.

(** X12: the result of a completed run is a table with one row a day:
    each of its five columns has one entry for each of the [total_days]
    simulated days. *)
Theorem completed_run_has_a_row_a_day cfgs g series g' :
  run_simulation cfgs g = (g', Completed series) ->
  let n := Z.to_nat (total_days cfgs) in
  length (Day series) = n /\ length (Open series) = n
  /\ length (Close series) = n /\ length (High series) = n
  /\ length (Low series) = n.
Proof.
  intros Hrun n.
  pose proof (run_simulation_Completed _ _ _ _ Hrun)
    as (sorted0 & acc0 & _ & _ & _ & Hseries0 & _ & _ & Hlen & _).
  apply run_simulation_Completed_inv in Hrun
    as (sorted & acc & _ & _ & Hsim & ->).
  pose proof (columns_align_loop _ _ _ _ _ _ Hsim columns_align_empty)
    as (HD & HO & HH & HL).
  rewrite Hseries0 in *. fold n in Hlen.
  rewrite HD, HO, HH, HL. done.
Qed.

Lemma opens_at_first_S0_loop icfgs i g acc' g' :
  simulate_intervals i icfgs initial_chain g = (g', Completed acc') ->
  opens_at_first_S0 icfgs acc'.
Proof.
  intros Hsim.
  refine (simulate_intervals_invariant
            (fun l acc _ => opens_at_first_S0 l acc)
            _ icfgs [] i initial_chain g acc' g' Hsim _); [|done].
  clear. intros l i c acc g T path g' acc' HI Hrun Happ.
  apply run_interval_path in Hrun
    as (_ & _ & _ & (S0 & HS0 & Hopen) & _).
  apply append_path_Ok_inv in Happ as (_ & x & _ & ->).
  destruct l as [|c0 l]; simpl in *.
  - destruct HI as [Hlast HO]. rewrite Hlast in HS0. rewrite HO. simpl.
    exists S0. split; [|exact Hopen].
    by apply lift_Ok_inv in HS0 as [? _].
  - destruct HI as (x0 & Hx0 & HO). exists x0. split; [exact Hx0|].
    by apply lookup_app_l_Some.
Qed.

(** X13: in the result of a completed run every day after the first
    opens at the close of the day before, across the intervals as well
    as within them, and the first day opens at [float] of the
    "Initial Stock Price (S0)" text (by default "100") of the interval
    with the earliest start day. *)
Theorem completed_run_is_continuous cfgs g series g' :
  run_simulation cfgs g = (g', Completed series) ->
  (forall k x, Open series !! S k = Some x -> Close series !! k = Some x)
  /\ forall c0 rest,
       sort_by_start cfgs = Completed (c0 :: rest) ->
       exists x,
         py_float (py_get (cfg_params c0) "Initial Stock Price (S0)" "100")
         = inr x
         /\ Open series !! O = Some x.
Proof.
  intros Hrun. split.
  - apply run_simulation_Completed in Hrun
      as (sorted & acc & _ & _ & _ & -> & Hchained & _).
    unfold chained in Hchained. intros k x.
    destruct (last_price acc) as [p|].
    + destruct Hchained as (first & os & -> & ->). simpl.
      intros Hk. by apply lookup_app_l_Some.
    + destruct Hchained as [-> _]. done.
  - apply run_simulation_Completed_inv in Hrun
      as (sorted & acc & _ & Hsort & Hsim & ->).
    intros c0 rest Hsort'. rewrite Hsort in Hsort'. injection Hsort' as ->.
    exact (opens_at_first_S0_loop _ _ _ _ _ Hsim).
Qed.

Lemma draws_loop icfgs i acc g acc' g' :
  simulate_intervals i icfgs acc g = (g', Completed acc') ->
  g' = advance (total_draws icfgs) g.
Proof.
  intros Hsim.
  refine (simulate_intervals_invariant
            (fun l _ g1 => g1 = advance (total_draws l) g)
            _ icfgs [] i acc g acc' g' Hsim _).
  - clear. intros l i c acc g1 T path g' acc' -> Hrun _.
    apply run_interval_path in Hrun as (_ & _ & _ & _ & ->).
    rewrite advance_advance, total_draws_app. simpl. f_equal. lia.
  - simpl. by rewrite advance_0.
Qed.

(** X14: a completed run draws from the random source only through the
    generators, one interval after the other and without reseeding: it
    leaves the source advanced by 4 draws for every GBM day and 8 draws
    for every day of the SV model. *)
Theorem completed_run_consumes_draws cfgs g series g' :
  run_simulation cfgs g = (g', Completed series) ->
  g' = advance (total_draws cfgs) g.
Proof.
  intros Hrun.
  apply run_simulation_Completed_inv in Hrun
    as (sorted & acc & _ & Hsort & Hsim & _).
  apply sort_by_start_perm in Hsort.
  rewrite <- (total_draws_perm _ _ Hsort).
  by eapply draws_loop.
Qed.
End ChainResults.

(** ** The parameters the chainer reads *)

Ltac read_key Hkeys :=
  apply Hkeys;
  [ unfold read_keys;
    repeat first [apply list_elem_of_here | apply list_elem_of_further]
  | try discriminate ].

Section ReadKeys.
Context {B : Builtins}.

(** The [try] block reads a configuration only through its days, its
    model and the texts under [read_keys]; the initial price only when
    no price is carried over. *)
Lemma run_interval_reads_alike with_S0 i c c' last g :
  reads_alike with_S0 c c' -> (last = None -> with_S0 = true) ->
  run_interval i c last g = run_interval i c' last g.
Proof.
  destruct c as [s e model params], c' as [s' e' model' params'].
  unfold reads_alike. cbn [cfg_start cfg_end cfg_model cfg_params].
  intros (<- & <- & <- & Hkeys) HS0.
  assert (Hprice : initial_price params last = initial_price params' last).
  { destruct last as [p|]; [done|]. unfold initial_price, py_get.
    rewrite (Hkeys "Initial Stock Price (S0)"); [done| |by intros _; apply HS0].
    unfold read_keys.
    repeat first [apply list_elem_of_here | apply list_elem_of_further]. }
  unfold run_interval, optional_float, py_get.
  cbn [cfg_start cfg_end cfg_model cfg_params].
  rewrite Hprice.
  assert (H1 : params !! "Time Step (dt)" = params' !! "Time Step (dt)")
    by read_key Hkeys.
  assert (H2 : params !! "Drift (mu)" = params' !! "Drift (mu)")
    by read_key Hkeys.
  assert (H3 : params !! "Volatility (sigma)" = params' !! "Volatility (sigma)")
    by read_key Hkeys.
  assert (H4 : params !! "Initial Variance (v0)"
               = params' !! "Initial Variance (v0)") by read_key Hkeys.
  assert (H5 : params !! "Mean Reversion Speed (kappa)"
               = params' !! "Mean Reversion Speed (kappa)") by read_key Hkeys.
  assert (H6 : params !! "Long-term Mean Var (theta)"
               = params' !! "Long-term Mean Var (theta)") by read_key Hkeys.
  assert (H7 : params !! "Vol of Vol (sigma)" = params' !! "Vol of Vol (sigma)")
    by read_key Hkeys.
  assert (H8 : params !! "Correlation (rho)" = params' !! "Correlation (rho)")
    by read_key Hkeys.
  assert (H9 : params !! "Base Drift (mu)" = params' !! "Base Drift (mu)")
    by read_key Hkeys.
  assert (H10 : params !! "Bubble Start" = params' !! "Bubble Start")
    by read_key Hkeys.
  assert (H11 : params !! "Bubble End" = params' !! "Bubble End")
    by read_key Hkeys.
  assert (H12 : params !! "Bubble Extra Drift (Δmu)"
                = params' !! "Bubble Extra Drift (Δmu)") by read_key Hkeys.
  assert (H13 : params !! "Crash Day" = params' !! "Crash Day")
    by read_key Hkeys.
  assert (H14 : params !! "Crash Factor" = params' !! "Crash Factor")
    by read_key Hkeys.
  rewrite H1, H2, H3, H4, H5, H6, H7, H8, H9, H10, H11, H12, H13, H14.
  reflexivity.
Qed.

Lemma reads_alike_weaken c c' : reads_alike true c c' -> reads_alike false c c'.
Proof.
  intros (Hs & He & Hm & Hkeys). repeat split; try done.
  intros key Hkey _. by apply Hkeys.
Qed.

Lemma simulate_intervals_reads_alike icfgs icfgs' :
  Forall2 (reads_alike false) icfgs icfgs' ->
  forall i acc g,
    is_Some (last_price acc) ->
    simulate_intervals i icfgs acc g = simulate_intervals i icfgs' acc g.
Proof.
  induction 1 as [|c c' icfgs icfgs' Hc _ IH]; intros i acc g Hlast; [done|].
  simpl. rewrite <- (run_interval_reads_alike false i c c' _ g Hc).
  2: { intros Hnone. rewrite Hnone in Hlast. by destruct Hlast. }
  destruct (run_interval i c (last_price acc) g)
    as [[title m|T path] g1|e g1]; [done| |done].
  destruct (append_path acc T path g1) as [acc1 g2|e g2] eqn:Happ; [|done].
  apply IH. apply append_path_Ok_inv in Happ as (_ & x & _ & ->). by eexists.
Qed.

Lemma collect_intervals_reads_alike b cfgs cfgs' :
  Forall2 (reads_alike b) cfgs cfgs' ->
  forall idx,
    run_rel (fun l l' => l = cfgs /\ l' = cfgs')
      (collect_intervals idx cfgs) (collect_intervals idx cfgs').
Proof.
  induction 1 as [|c c' cfgs cfgs' (Hs & He & _) _ IH]; intros idx; [done|].
  simpl. rewrite <- Hs, <- He.
  destruct (py_int (cfg_start c)) as [[]|start_day]; try done.
  destruct (py_int (cfg_end c)) as [[]|end_day]; try done.
  destruct (start_day >=? end_day)%Z; [done|].
  specialize (IH (S idx)).
  destruct (collect_intervals (S idx) cfgs) as [| |l],
    (collect_intervals (S idx) cfgs') as [| |l']; try done.
  simpl in *. by destruct IH as [-> ->].
Qed.

Lemma insert_by_key_reads_alike b x x' l l' :
  fst x = fst x' -> reads_alike b (snd x) (snd x') ->
  Forall2 (fun y y' => fst y = fst y' /\ reads_alike b (snd y) (snd y')) l l' ->
  Forall2 (fun y y' => fst y = fst y' /\ reads_alike b (snd y) (snd y'))
    (insert_by_key x l) (insert_by_key x' l').
Proof.
  intros Hk Hx. induction 1 as [|y y' l l' [Hky Hy] Hl IH]; simpl.
  - constructor; [by split|constructor].
  - rewrite <- Hk, <- Hky. destruct (fst x <=? fst y)%Z.
    + constructor; [by split|]. constructor; [by split|exact Hl].
    + constructor; [by split|exact IH].
Qed.

Lemma sort_by_key_reads_alike b l l' :
  Forall2 (fun y y' => fst y = fst y' /\ reads_alike b (snd y) (snd y')) l l' ->
  Forall2 (fun y y' => fst y = fst y' /\ reads_alike b (snd y) (snd y'))
    (sort_by_key l) (sort_by_key l').
Proof.
  induction 1 as [|y y' l l' [Hky Hy] Hl IH]; simpl; [constructor|].
  by apply insert_by_key_reads_alike.
Qed.

Lemma decorate_reads_alike b cfgs cfgs' :
  Forall2 (reads_alike b) cfgs cfgs' ->
  run_rel
    (Forall2 (fun y y' => fst y = fst y' /\ reads_alike b (snd y) (snd y')))
    (decorate cfgs) (decorate cfgs').
Proof.
  induction 1 as [|c c' cfgs cfgs' Hc _ IH]; simpl; [constructor|].
  destruct Hc as (Hs & He & Hm & Hkeys). rewrite <- Hs.
  destruct (py_int (cfg_start c)) as [e|key]; [done|].
  destruct (decorate cfgs) as [| |l], (decorate cfgs') as [| |l']; try done.
  simpl in *. constructor; [|done]. by repeat split.
Qed.

Lemma sort_by_start_reads_alike b cfgs cfgs' :
  Forall2 (reads_alike b) cfgs cfgs' ->
  run_rel (Forall2 (reads_alike b)) (sort_by_start cfgs) (sort_by_start cfgs').
Proof.
  intros H. apply (decorate_reads_alike b) in H. unfold sort_by_start.
  destruct (decorate cfgs) as [| |l], (decorate cfgs') as [| |l']; try done.
  simpl in *. apply sort_by_key_reads_alike in H.
  induction H as [|y y' s s' [_ Hy] _ IH]; simpl; by constructor.
Qed.

(** Two forms that are read alike, up to the initial prices of the
    intervals that are not processed first, run alike. *)
Lemma run_simulation_reads_alike cfgs cfgs' g :
  Forall2 (reads_alike false) cfgs cfgs' ->
  (forall c0 rest c0' rest',
      sort_by_start cfgs = Completed (c0 :: rest) ->
      sort_by_start cfgs' = Completed (c0' :: rest') ->
      reads_alike true c0 c0') ->
  run_simulation cfgs g = run_simulation cfgs' g.
Proof.
  intros Halike Hfirst. unfold run_simulation.
  pose proof (collect_intervals_reads_alike _ _ _ Halike 1%nat) as Hcollect.
  destruct (collect_intervals 1 cfgs) as [t m|e|l],
    (collect_intervals 1 cfgs') as [t' m'|e'|l']; try done.
  { by destruct Hcollect as [-> ->]. }
  { simpl in Hcollect. by subst. }
  destruct Hcollect as [-> ->].
  pose proof (sort_by_start_reads_alike _ _ _ Halike) as Hsort.
  destruct (sort_by_start cfgs) as [t m|e|sorted],
    (sort_by_start cfgs') as [t' m'|e'|sorted']; try done.
  { by destruct Hsort as [-> ->]. }
  { simpl in Hsort. by subst. }
  simpl in Hsort.
  assert (Hsim : simulate_intervals 1 sorted initial_chain g
                 = simulate_intervals 1 sorted' initial_chain g);
    [|by rewrite Hsim].
  destruct Hsort as [|c0 c0' rest rest' _ Hrest]; [done|].
  specialize (Hfirst c0 rest c0' rest' eq_refl eq_refl).
  simpl. rewrite <- (run_interval_reads_alike true 1 c0 c0' None g Hfirst) by done.
  destruct (run_interval 1 c0 None g) as [[title m|T path] g1|e g1];
    [done| |done].
  destruct (append_path initial_chain T path g1) as [acc1 g2|e g2] eqn:Happ;
    [|done].
  apply simulate_intervals_reads_alike; [exact Hrest|].
  apply append_path_Ok_inv in Happ as (_ & x & _ & ->). by eexists.
Qed.

Lemma with_connected_flag_alike text c :
  reads_alike true (with_connected_flag text c) c.
Proof.
  unfold reads_alike, with_connected_flag.
  cbn [cfg_start cfg_end cfg_model cfg_params].
  repeat split. intros key Hkey _. apply lookup_partial_alter_ne.
  intros <-. unfold read_keys in Hkey.
  repeat (apply elem_of_cons in Hkey as [[=]|Hkey]).
  by apply elem_of_nil in Hkey.
Qed.

(** X15: the entry "Initial Price Connected to Previous Ending Price"
    of the form is never read: whatever text it holds in each interval,
    or if it is absent, the run is the same (each interval after the
    first starts at the previous close in any case). *)
Theorem connected_flag_is_ignored (text : config -> option string) cfgs g :
  run_simulation (map (fun c => with_connected_flag (text c) c) cfgs) g
  = run_simulation cfgs g.
Proof.
  apply run_simulation_reads_alike.
  - apply Forall2_fmap_l, Forall_Forall2_diag, List.Forall_forall.
    intros c _. apply reads_alike_weaken, with_connected_flag_alike.
  - intros c0 rest c0' rest' Hsort Hsort'.
    assert (Halike : Forall2 (reads_alike true)
                       (map (fun c => with_connected_flag (text c) c) cfgs)
                       cfgs).
    { apply Forall2_fmap_l, Forall_Forall2_diag, List.Forall_forall.
      intros c _. apply with_connected_flag_alike. }
    apply sort_by_start_reads_alike in Halike.
    rewrite Hsort, Hsort' in Halike. simpl in Halike.
    by inversion Halike.
Qed.

(** X16: only the interval with the earliest start day contributes an
    initial price: two forms that differ at most in the
    "Initial Stock Price (S0)" texts of their other intervals (which may
    even be unparsable) run alike. *)
Theorem later_initial_prices_are_ignored cfgs cfgs' g :
  Forall2 (reads_alike false) cfgs cfgs' ->
  (forall c0 rest c0' rest',
      sort_by_start cfgs = Completed (c0 :: rest) ->
      sort_by_start cfgs' = Completed (c0' :: rest') ->
      cfg_params c0 !! "Initial Stock Price (S0)"
      = cfg_params c0' !! "Initial Stock Price (S0)") ->
  run_simulation cfgs g = run_simulation cfgs' g.
Proof.
  intros Halike Hfirst. apply run_simulation_reads_alike; [exact Halike|].
  intros c0 rest c0' rest' Hsort Hsort'.
  specialize (Hfirst c0 rest c0' rest' Hsort Hsort').
  apply sort_by_start_reads_alike in Halike.
  rewrite Hsort, Hsort' in Halike. simpl in Halike.
  inversion Halike as [|? ? ? ? (Hs & He & Hm & Hkeys) _]; subst.
  repeat split; try done. intros key Hkey _.
  destruct (decide (key = "Initial Stock Price (S0)")) as [->|Hne];
    [exact Hfirst|].
  by apply Hkeys.
Qed.
End ReadKeys.

(** ** The ways a run ends *)

Lemma raises_documented_ret {A} (a : A) :
  raises_ValueError_or_OverflowError (ret a).
Proof. by intros g e g'. Qed.

Lemma raises_documented_bind {A C} (c : M A) (k : A -> M C) :
  raises_ValueError_or_OverflowError c ->
  (forall a, raises_ValueError_or_OverflowError (k a)) ->
  raises_ValueError_or_OverflowError (bind c k).
Proof.
  intros Hc Hk g e g'. unfold bind.
  destruct (c g) as [a g1|e1 g1] eqn:Hcg.
  - apply Hk.
  - intros [= <- <-]. by eapply Hc.
Qed.

Lemma raises_documented_total {A} (c : M A) :
  (forall g, exists a g', c g = Ok a g') ->
  raises_ValueError_or_OverflowError c.
Proof. intros Hc g e g' Hraise. destruct (Hc g) as (a & g1 & H). congruence. Qed.

Section RunEnds.
Context {B : Builtins}.

(** The [try] block aborts with a box only for an unknown model. *)
Lemma run_interval_Abort_inv i c last g title m g' :
  well_ordered c ->
  run_interval i c last g = Ok (Abort title m) g' ->
  title = "Model Error" /\ m = MsgUnknownModel i (cfg_model c)
  /\ cfg_model c <> "Geometric Brownian Motion (GBM)"
  /\ cfg_model c <> "Stochastic Volatility Model (Heston)".
Proof.
  intros (s & e & Hs & He & Hlt). unfold run_interval.
  erewrite bind_Ok by (by apply lift_inr).
  erewrite bind_Ok by (by apply lift_inr).
  destruct (Z.leb_spec (e - s) 0) as [|_]; [lia|].
  intros Hrun. apply bind_Ok_inv in Hrun as (dt & g1 & _ & Hrun).
  destruct (decide (cfg_model c = "Geometric Brownian Motion (GBM)")).
  { do 4 inv_bind Hrun. done. }
  destruct (decide (cfg_model c = "Stochastic Volatility Model (Heston)")).
  { do 13 inv_bind Hrun. done. }
  by injection Hrun as <- <- <-.
Qed.

(** An interval of an unknown model whose time step parses ends the
    [try] block with the "Model Error" box. *)
Lemma run_interval_unknown_model i c last g :
  well_ordered c ->
  parses_float (py_get (cfg_params c) "Time Step (dt)" "1/365") ->
  cfg_model c <> "Geometric Brownian Motion (GBM)" ->
  cfg_model c <> "Stochastic Volatility Model (Heston)" ->
  run_interval i c last g
  = Ok (Abort "Model Error" (MsgUnknownModel i (cfg_model c))) g.
Proof.
  intros (s & e & Hs & He & Hlt) [dt Hdt] Hgbm Hsvm. unfold run_interval.
  erewrite bind_Ok by (by apply lift_inr).
  erewrite bind_Ok by (by apply lift_inr).
  destruct (Z.leb_spec (e - s) 0); [lia|].
  erewrite bind_Ok by apply Hdt.
  by rewrite !decide_False by done.
Qed.


Lemma collect_ShowError_inv cfgs idx title m :
  collect_intervals idx cfgs = ShowError title m -> title = "Error".
Proof.
  revert idx. induction cfgs as [|c cfgs IH]; intros idx; simpl; [done|].
  destruct (py_int (cfg_start c)) as [[]|start_day]; try done;
    [by intros [= <- _]|].
  destruct (py_int (cfg_end c)) as [[]|end_day]; try done;
    [by intros [= <- _]|].
  destruct (start_day >=? end_day)%Z; [by intros [= <- _]|].
  specialize (IH (S idx)).
  destruct (collect_intervals (S idx) cfgs); done.
Qed.

Lemma decorate_no_box cfgs title m : decorate cfgs <> ShowError title m.
Proof.
  induction cfgs as [|c cfgs IH]; simpl; [done|].
  destruct (py_int (cfg_start c)); [done|].
  destruct (decorate cfgs); done.
Qed.

Lemma simulate_intervals_ShowError_inv icfgs :
  Forall well_ordered icfgs ->
  forall i acc g g' title m,
    simulate_intervals i icfgs acc g = (g', ShowError title m) ->
    (title = "Parameter Error" /\ exists j e, m = MsgInterval j e)
    \/ (title = "Model Error" /\ exists j model, m = MsgUnknownModel j model).
Proof.
  induction 1 as [|c icfgs Hc _ IH]; intros i acc g g' title m; simpl; [done|].
  destruct (run_interval i c (last_price acc) g)
    as [[title' m'|T path] g1|[] g1] eqn:Hrun; try done.
  - intros [= <- <- <-].
    apply run_interval_Abort_inv in Hrun as (-> & -> & _); [|done].
    right. eauto.
  - destruct (append_path acc T path g1) as [acc1 g2|e g2]; [|done].
    apply IH.
  - intros [= <- <- <-]. left. eauto.
Qed.

(** X18: a run shows one of three error boxes only: "Error" from the
    validation of the days, with the random source untouched,
    "Parameter Error" for a [ValueError] of an interval's [try] block, or
    "Model Error" for an unknown model.  The box "Interval Error"
    (invalid length) of the main loop is never shown: step 1 has
    rejected such intervals before. *)
Theorem error_boxes_of_a_run cfgs g title m :
  snd (run_simulation cfgs g) = ShowError title m ->
  (title = "Error" /\ fst (run_simulation cfgs g) = g)
  \/ (title = "Parameter Error" /\ exists j e, m = MsgInterval j e)
  \/ (title = "Model Error" /\ exists j model, m = MsgUnknownModel j model).
Proof.
  unfold run_simulation.
  destruct (collect_intervals 1 cfgs) as [t m0| |l] eqn:Hcollect; [|done|].
  { simpl. intros [= <- <-]. left. split; [|done].
    by eapply collect_ShowError_inv. }
  apply collect_Completed_inv in Hcollect as [-> Hwo].
  destruct (sort_by_start cfgs) as [t m0| |sorted] eqn:Hsort; [|done|].
  { exfalso. unfold sort_by_start in Hsort.
    destruct (decorate cfgs) eqn:Hdec; try done.
    by apply decorate_no_box in Hdec. }
  destruct (simulate_intervals 1 sorted initial_chain g) as [g1 [t m0| |acc]]
    eqn:Hsim; [|done..].
  simpl. intros [= <- <-]. right.
  eapply simulate_intervals_ShowError_inv; [|exact Hsim].
  apply sort_by_start_perm in Hsort.
  eapply Permutation_Forall; [|exact Hwo]. by symmetry.
Qed.

Section Documented.
Hypothesis Hdoc : raise_as_documented B.

Lemma raises_documented_int s :
  raises_ValueError_or_OverflowError (lift (py_int s)).
Proof.
  destruct Hdoc as (Hint & _). intros g e g'.
  destruct (py_int s) as [e'|z] eqn:Hs; [|done].
  intros [= <- <-]. right. by eapply Hint.
Qed.

Lemma raises_documented_float s :
  raises_ValueError_or_OverflowError (lift (py_float s)).
Proof.
  destruct Hdoc as (_ & Hfloat & _). intros g e g'.
  destruct (py_float s) as [e'|z] eqn:Hs; [|done].
  intros [= <- <-]. right. by eapply Hfloat.
Qed.

(** [parse_float] raises its own [ValueError], or the
    [OverflowError] of [float(q)]. *)
Lemma raises_documented_parse_float s :
  raises_ValueError_or_OverflowError (parse_float s).
Proof.
  destruct Hdoc as (_ & Hfloat & HFraction). intros g e g' Hraise.
  apply parse_float_Raise_inv in Hraise
    as (_ & [->|[(Hf & Hne)|(HF & Hzero & Hne)]]).
  - right. eauto.
  - destruct (Hfloat _ _ Hf) as [m ->]. by destruct (Hne m).
  - unfold float_of_Fraction_text in HF.
    destruct (py_Fraction s) as [eF|q] eqn:Hq.
    + injection HF as ->.
      destruct (HFraction _ _ Hq) as [->|[m ->]]; [done|].
      by destruct (Hne m).
    + apply float_of_Fraction_inl in HF as [->| ->]; [done|by left].
Qed.

Lemma raises_documented_optional params key dflt :
  raises_ValueError_or_OverflowError (optional_float params key dflt).
Proof.
  unfold optional_float.
  destruct (params !! key); [|apply raises_documented_ret].
  apply raises_documented_bind; [apply raises_documented_parse_float|].
  intros x. apply raises_documented_ret.
Qed.

Lemma raises_documented_run_interval i c last :
  raises_ValueError_or_OverflowError (run_interval i c last).
Proof.
  unfold run_interval.
  apply raises_documented_bind;
    [apply raises_documented_int|intros start_day].
  apply raises_documented_bind;
    [apply raises_documented_int|intros end_day].
  destruct (Z.leb_spec (end_day - start_day) 0) as [|HT];
    [apply raises_documented_ret|].
  apply raises_documented_bind;
    [apply raises_documented_parse_float|intros dt].
  assert (Hprice : raises_ValueError_or_OverflowError
                     (initial_price (cfg_params c) last)).
  { destruct last; [apply raises_documented_ret|].
    apply raises_documented_float. }
  destruct (decide (cfg_model c = "Geometric Brownian Motion (GBM)")).
  - apply raises_documented_bind; [exact Hprice|intros S0].
    do 2 (apply raises_documented_bind;
          [apply raises_documented_parse_float|intros ?]).
    apply raises_documented_total. intros g.
    edestruct (gbm_path_shape (end_day - start_day))
      as (p & g' & _ & _ & Hgen & _); [| |
      eexists _, g'; by erewrite bind_Ok by apply Hgen]; lia.
  - destruct (decide (cfg_model c = "Stochastic Volatility Model (Heston)"));
      [|apply raises_documented_ret].
    apply raises_documented_bind; [exact Hprice|intros S0].
    do 6 (apply raises_documented_bind;
          [apply raises_documented_parse_float|intros ?]).
    do 2 (apply raises_documented_bind;
          [apply raises_documented_int|intros ?]).
    apply raises_documented_bind;
      [apply raises_documented_optional|intros extra].
    apply raises_documented_bind.
    { destruct (cfg_params c !! "Crash Day");
        [apply raises_documented_int|apply raises_documented_ret]. }
    intros c_day.
    apply raises_documented_bind;
      [apply raises_documented_optional|intros factor].
    apply raises_documented_total. intros g.
    edestruct (svm_path_shape (end_day - start_day))
      as (p & g' & _ & _ & Hgen & _); [| |
      eexists _, g'; by erewrite bind_Ok by apply Hgen]; lia.
Qed.

Lemma collect_no_exception cfgs idx e :
  collect_intervals idx cfgs <> Uncaught e.
Proof.
  destruct Hdoc as (Hint & _).
  revert idx. induction cfgs as [|c cfgs IH]; intros idx; simpl; [done|].
  destruct (py_int (cfg_start c)) as [e1|start_day] eqn:Hs.
  { by destruct (Hint _ _ Hs) as [m ->]. }
  destruct (py_int (cfg_end c)) as [e1|end_day] eqn:He.
  { by destruct (Hint _ _ He) as [m ->]. }
  destruct (start_day >=? end_day)%Z; [done|].
  specialize (IH (S idx)).
  destruct (collect_intervals (S idx) cfgs); done.
Qed.

Lemma simulate_intervals_only_overflow icfgs i acc g g' e :
  simulate_intervals i icfgs acc g = (g', Uncaught e) ->
  e = OverflowError.
Proof.
  revert i acc g. induction icfgs as [|c icfgs IH]; intros i acc g; simpl;
    [done|].
  destruct (run_interval i c (last_price acc) g)
    as [[title' m'|T path] g1|e1 g1] eqn:Hrun; try done.
  - pose proof (run_interval_Simulated _ _ _ _ _ _ _ Hrun)
      as (_ & _ & _ & first & os & x & _ & Hclose & _).
    rewrite (append_path_run _ _ _ _ _ _ Hclose). apply IH.
  - destruct (raises_documented_run_interval _ _ _ _ _ _ Hrun)
      as [->|[m ->]]; [|done].
    by intros [= _ <-].
Qed.

End Documented.
End RunEnds.

(** ** The order in which the intervals are processed *)

Lemma insert_by_key_comm x y s :
  fst x <> fst y ->
  insert_by_key x (insert_by_key y s) = insert_by_key y (insert_by_key x s).
Proof.
  intros Hne. induction s as [|z s IH]; simpl.
  - destruct (Z.leb_spec (fst x) (fst y)), (Z.leb_spec (fst y) (fst x));
      try done; lia.
  - destruct (Z.leb_spec (fst x) (fst z)), (Z.leb_spec (fst y) (fst z)); simpl.
    + destruct (Z.leb_spec (fst x) (fst y)), (Z.leb_spec (fst y) (fst x));
        try lia; simpl.
      * destruct (Z.leb_spec (fst y) (fst z)); [done|lia].
      * destruct (Z.leb_spec (fst x) (fst z)); [done|lia].
    + destruct (Z.leb_spec (fst x) (fst z)); [|lia].
      destruct (Z.leb_spec (fst y) (fst x)); [lia|].
      simpl. destruct (Z.leb_spec (fst y) (fst z)); [lia|done].
    + destruct (Z.leb_spec (fst y) (fst z)); [|lia].
      destruct (Z.leb_spec (fst x) (fst y)); [lia|].
      simpl. destruct (Z.leb_spec (fst x) (fst z)); [lia|done].
    + destruct (Z.leb_spec (fst x) (fst z)); [lia|].
      destruct (Z.leb_spec (fst y) (fst z)); [lia|]. by rewrite IH.
Qed.

(** With distinct keys the sorted list does not depend on the order of
    the input. *)
Lemma sort_by_key_perm_eq l l' :
  l ≡ₚ l' -> NoDup (map fst l) -> sort_by_key l = sort_by_key l'.
Proof.
  induction 1 as [|x l l' _ IH|x y l|l l' l'' Hp IH1 _ IH2]; intros Hnd.
  - done.
  - simpl. rewrite IH; [done|]. by apply NoDup_cons in Hnd as [_ ?].
  - simpl. apply insert_by_key_comm. simpl in Hnd.
    apply NoDup_cons in Hnd as [Hnotin _].
    intros Heq. apply Hnotin. rewrite Heq. apply list_elem_of_here.
  - rewrite IH1 by done. apply IH2.
    assert (Hp' : map fst l ≡ₚ map fst l') by (by apply Permutation_map).
    by rewrite <- Hp'.
Qed.

Lemma insert_by_key_sorted x s :
  StronglySorted (fun y z => (fst y <= fst z)%Z) s ->
  StronglySorted (fun y z => (fst y <= fst z)%Z) (insert_by_key x s).
Proof.
  induction 1 as [|y s Hs IH Hy]; simpl.
  - constructor; [constructor|constructor].
  - destruct (Z.leb_spec (fst x) (fst y)) as [Hle|Hlt].
    + constructor; [by constructor|].
      constructor; [exact Hle|].
      eapply List.Forall_impl; [|exact Hy]. simpl. intros z Hz. lia.
    + constructor; [exact IH|].
      eapply Permutation_Forall; [symmetry; apply insert_by_key_perm|].
      constructor; [lia|exact Hy].
Qed.

Lemma sort_by_key_sorted l :
  StronglySorted (fun y z => (fst y <= fst z)%Z) (sort_by_key l).
Proof.
  induction l as [|x l IH]; simpl; [constructor|].
  by apply insert_by_key_sorted.
Qed.

(** The insertion is stable: among equal keys the new element comes
    first, and the others keep their order. *)
Lemma filter_insert_by_key (k : Z) x s :
  filter (fun y => fst y = k) (insert_by_key x s)
  = filter (fun y => fst y = k) (x :: s).
Proof.
  induction s as [|y s IH]; simpl; [done|].
  destruct (Z.leb_spec (fst x) (fst y)) as [Hle|Hlt]; [done|].
  rewrite filter_cons, IH, !filter_cons.
  destruct (decide (fst y = k)), (decide (fst x = k)); try done. lia.
Qed.

Lemma filter_sort_by_key (k : Z) l :
  filter (fun y => fst y = k) (sort_by_key l) = filter (fun y => fst y = k) l.
Proof.
  induction l as [|x l IH]; simpl; [done|].
  by rewrite filter_insert_by_key, !filter_cons, IH.
Qed.

Section SortOrder.
Context {B : Builtins}.

Lemma decorate_Completed_inv cfgs l :
  decorate cfgs = Completed l -> l = map (fun c => (start_key c, c)) cfgs.
Proof.
  revert l. induction cfgs as [|c cfgs IH]; intros l; simpl.
  - by intros [= <-].
  - unfold start_key. destruct (py_int (cfg_start c)) as [e|key]; [done|].
    destruct (decorate cfgs) as [| |l0]; try done.
    intros [= <-]. by rewrite (IH l0).
Qed.

Lemma decorate_well_ordered cfgs :
  Forall well_ordered cfgs ->
  decorate cfgs = Completed (map (fun c => (start_key c, c)) cfgs).
Proof.
  induction 1 as [|c cfgs (s & e & Hs & _) _ IH]; simpl; [done|].
  unfold start_key at 1. by rewrite Hs, IH.
Qed.

(** X20: when every interval passes step 1 and no two intervals have the
    same start day, the run does not depend on the order in which the
    intervals stand in the form. *)
Theorem run_is_independent_of_the_order cfgs cfgs' g :
  Forall well_ordered cfgs -> cfgs ≡ₚ cfgs' -> NoDup (map start_key cfgs) ->
  run_simulation cfgs g = run_simulation cfgs' g.
Proof.
  intros Hwo Hperm Hnd.
  assert (Hwo' : Forall well_ordered cfgs')
    by (by eapply Permutation_Forall).
  unfold run_simulation, sort_by_start.
  rewrite !collect_well_ordered, !decorate_well_ordered by done.
  rewrite (sort_by_key_perm_eq _ (map (fun c => (start_key c, c)) cfgs'));
    [done|by apply Permutation_map|].
  rewrite map_map. exact Hnd.
Qed.

(** X21: step 2 puts the intervals in the order of their start days
    and keeps the intervals with the same start day in the order of the
    form: the sorted list is a permutation of the input, its start days
    never decrease, and for each day its intervals starting that day
    are those of the input, in the same order. *)
Theorem sort_is_stable_by_start_day cfgs sorted :
  sort_by_start cfgs = Completed sorted ->
  sorted ≡ₚ cfgs
  /\ StronglySorted (fun c c' => (start_key c <= start_key c')%Z) sorted
  /\ forall k,
       filter (fun c => start_key c = k) sorted
       = filter (fun c => start_key c = k) cfgs.
Proof.
  intros Hsort. split; [by apply sort_by_start_perm|].
  unfold sort_by_start in Hsort.
  destruct (decorate cfgs) as [| |l] eqn:Hdec; try done.
  injection Hsort as <-. apply decorate_Completed_inv in Hdec as ->.
  set (l := map (fun c => (start_key c, c)) cfgs).
  assert (Hkeys : Forall (fun y => fst y = start_key (snd y)) (sort_by_key l)).
  { eapply Permutation_Forall; [symmetry; apply sort_by_key_perm|].
    apply List.Forall_forall. by intros y (c & <- & _)%in_map_iff. }
  assert (Hfilter : forall (k : Z) (s : list (Z * config)),
             Forall (fun y => fst y = start_key (snd y)) s ->
             filter (fun c => start_key c = k) (map snd s)
             = map snd (filter (fun y => fst y = k) s)).
  { intros k s Hs. induction Hs as [|y s Hy _ IH]; [done|].
    simpl. rewrite !filter_cons, IH, Hy.
    by destruct (decide (start_key (snd y) = k)). }
  split.
  - pose proof (sort_by_key_sorted l) as Hsorted.
    induction Hsorted as [|y s _ IH Hy]; [constructor|].
    simpl. apply Forall_cons in Hkeys as [Hk Hkeys].
    constructor; [by apply IH|].
    apply List.Forall_forall. intros c (z & <- & Hz)%in_map_iff.
    rewrite List.Forall_forall in Hy, Hkeys.
    rewrite <- Hk, <- (Hkeys z Hz). by apply Hy.
  - intros k. rewrite Hfilter by exact Hkeys.
    rewrite filter_sort_by_key. rewrite <- Hfilter.
    + unfold l. rewrite map_map. simpl. by rewrite map_id.
    + apply List.Forall_forall. by intros y (c & <- & _)%in_map_iff.
Qed.
End SortOrder.

(** ** The script [models/ex.py] *)

Lemma ex_drift_today mu extra b_end c_day cf (k : nat) :
  Svm.drift_today mu (ex_events extra b_end c_day cf) (Z.of_nat k / 1 + 1)
  = if (Z.of_nat k <? b_end)%Z then mu + extra else mu.
Proof.
  unfold Svm.drift_today, ex_events.
  cbn [Svm.bubble_start Svm.bubble_end Svm.bubble_mu_extra].
  rewrite Z.div_1_r.
  destruct (Z.leb_spec 1 (Z.of_nat k + 1)); [|lia].
  destruct (Z.leb_spec (Z.of_nat k + 1) b_end), (Z.ltb_spec (Z.of_nat k) b_end);
    try done; lia.
Qed.

Lemma ex_crash_multiplier extra b_end c_day cf (k : nat) :
  crash_multiplier (ex_events extra b_end c_day cf) 1 (Z.of_nat k)
  = if (Z.of_nat k + 1 =? c_day)%Z then cf else 1.
Proof.
  unfold crash_multiplier, ex_events.
  cbn [Svm.crash_day Svm.crash_factor number_times_int int_equals].
  by rewrite Z.mul_1_r.
Qed.

Section ExLoop.
Variables (dt S0 v0 mu extra kappa theta sigma : R).
Variables (b_end c_day : Z) (cf : R).
Variables (n : nat) (Z1 Z2 : list R) (z1 z2 : nat -> R).
Hypothesis HZ1 : forall k, (k < n)%nat -> Z1 !! k = Some (z1 k).
Hypothesis HZ2 : forall k, (k < n)%nat -> Z2 !! k = Some (z2 k).

Let var := svm_var v0 kappa theta sigma dt z2.
Let f := svm_path S0 mu (ex_events extra b_end c_day cf) dt 1 var z1.
Let body := Ex.step dt mu extra kappa theta sigma b_end c_day cf Z1 Z2.

(** One iteration of the script's loop writes the next cell of both
    arrays. *)
Lemma ex_step_at k g :
  (k < n)%nat ->
  body (0 + Z.of_nat k)%Z (written f n k, written var n k) g
  = Ok (written f n (S k), written var n (S k)) g.
Proof.
  intros Hk. rewrite Z.add_0_l. unfold body, Ex.step. cbn [fst snd].
  replace (Z.of_nat k + 1)%Z with (Z.of_nat (S k)) by lia.
  erewrite bind_Ok by (apply np_get_nat, lookup_written; lia).
  erewrite bind_Ok by (apply np_get_nat, HZ2; lia).
  erewrite bind_Ok by (apply np_set_nat; rewrite length_written; lia).
  erewrite bind_Ok
    by (apply np_get_nat, list_lookup_insert_eq; rewrite length_written; lia).
  erewrite (bind_Ok _ _ _ (written var n (S k)) g).
  2:{ assert (Hv := eq_refl (var (S k))). unfold var at 2 in Hv.
      simpl svm_var in Hv. fold var in Hv.
      destruct (Rlt_dec _ 0).
      - rewrite np_set_nat by (rewrite length_insert, length_written; lia).
        rewrite list_insert_insert_eq. f_equal.
        by apply insert_written_val.
      - unfold ret. f_equal. by apply insert_written_val. }
  erewrite bind_Ok by (apply np_get_nat, lookup_written; lia).
  erewrite bind_Ok by (apply np_get_nat, lookup_written; lia).
  erewrite bind_Ok by (apply np_get_nat, HZ1; lia).
  erewrite bind_Ok by (apply np_set_nat; rewrite length_written; lia).
  assert (Hf : f (S k)
               = f k * exp (((if (Z.of_nat k <? b_end)%Z then mu + extra
                              else mu) - 0.5 * var k) * dt
                            + sqrt (Rmax (var k) 0 * dt) * z1 k)
                 * (if (Z.of_nat (S k) =? c_day)%Z then cf else 1)).
  { unfold f at 1. cbn [svm_path]. fold f. unfold svm_diffuse.
    rewrite ex_drift_today, ex_crash_multiplier.
    by replace (Z.of_nat k + 1)%Z with (Z.of_nat (S k)) by lia. }
  destruct (Z.of_nat (S k) =? c_day)%Z.
  - erewrite bind_Ok
      by (apply np_get_nat, list_lookup_insert_eq; rewrite length_written; lia).
    erewrite bind_Ok
      by (apply np_set_nat; rewrite length_insert, length_written; lia).
    unfold ret. f_equal. rewrite list_insert_insert_eq. f_equal.
    by apply insert_written_val.
  - unfold ret. f_equal. f_equal. apply insert_written_val; [lia|].
    rewrite Hf. lra.
Qed.

Lemma ex_loop k g :
  (k <= n)%nat ->
  for_each body (py_range 0 (0 + Z.of_nat k)) (written f n 0, written var n 0) g
  = Ok (written f n k, written var n k) g.
Proof.
  induction k as [|k IH]; intros Hk; [done|].
  rewrite py_range_S, for_each_snoc.
  erewrite bind_Ok by (apply IH; lia). by apply ex_step_at.
Qed.
End ExLoop.

(** The script's simulation on a non-negative number of days: it returns,
    and the arrays it returns. *)
Lemma ex_simulate_ok T dt S0 v0 mu extra kappa theta sigma rho b_end c_day cf g :
  (0 <= T)%Z ->
  let n := Z.to_nat T in
  let var := svm_var v0 kappa theta sigma dt (svm_z2 rho n g) in
  let f := svm_path S0 mu (ex_events extra b_end c_day cf) dt 1 var (draws g) in
  Ex.simulate T dt S0 v0 mu extra kappa theta sigma rho b_end c_day cf g
  = Ok (written f n n, written var n n) (advance (n + n) g).
Proof.
  intros HT n var f. unfold Ex.simulate.
  replace (T + 1)%Z with (Z.of_nat (n + 1)) by (unfold n; lia).
  erewrite bind_Ok by apply np_zeros_nat.
  erewrite bind_Ok by apply np_zeros_nat.
  erewrite bind_Ok by (apply (np_set_nat _ O); rewrite length_replicate; lia).
  erewrite bind_Ok by (apply (np_set_nat _ O); rewrite length_replicate; lia).
  replace T with (Z.of_nat n) by (unfold n; lia).
  erewrite bind_Ok by apply np_random_normal_n_nat.
  erewrite bind_Ok by apply np_random_normal_n_nat.
  rewrite advance_advance.
  change S0 with (f O). change v0 with (var O) at 1. rewrite !written_0.
  replace (Z.of_nat n) with (0 + Z.of_nat n)%Z by lia.
  apply ex_loop; [| |lia].
  - intros k Hk. by apply lookup_draws.
  - intros k Hk. by apply lookup_correlate.
Qed.

(** X22: the script [ex.py] computes what [generate_svm_prices] computes
    at one sub-step a day when the bubble starts on day 1: for [T >= 0]
    days and the same random source both return, with the same price and
    variance arrays, and leave the source in the same state.  (The
    script's [bubble_start] is read nowhere: its bubble lasts from the
    first day to [bubble_end].) *)
Theorem ex_script_is_the_daily_svm T dt S0 v0 mu extra kappa theta sigma rho
    b_end c_day cf g :
  (0 <= T)%Z ->
  exists S v g' st,
    Ex.simulate T dt S0 v0 mu extra kappa theta sigma rho b_end c_day cf g
    = Ok (S, v) g'
    /\ Svm.simulate T dt S0 v0 kappa theta sigma rho mu
         (ex_events extra b_end c_day cf) 1 None g = Ok st g'
    /\ Svm.arr_S st = S /\ Svm.arr_v st = v.
Proof.
  intros HT. eexists _, _, _, _.
  split; [by apply ex_simulate_ok|].
  rewrite svm_simulate_ok by lia. cbv zeta. cbn [after_seed].
  rewrite Z.mul_1_r. replace (dt / IZR 1) with dt by (by rewrite Rdiv_1_r).
  split; [reflexivity|].
  cbn [svm_state_at Svm.arr_S Svm.arr_v].
  replace (Z.to_nat T * Z.to_nat 1 + 0)%nat with (Z.to_nat T) by lia.
  done.
Qed.

(** ** The decimal text of an int *)

Lemma lstrip_no_space c cs : is_space c = false -> lstrip (c :: cs) = c :: cs.
Proof. intros H. simpl. by rewrite H. Qed.

(** Text that neither starts nor ends with a blank is its own [strip]. *)
Lemma strip_no_space c cs c' :
  is_space c = false -> is_space c' = false ->
  strip (string_of_list_ascii ((c :: cs) ++ [c'])) = (c :: cs) ++ [c'].
Proof.
  intros Hc Hc'. unfold strip. rewrite list_ascii_of_string_of_list_ascii.
  change ((c :: cs) ++ [c']) with (c :: (cs ++ [c'])).
  rewrite lstrip_no_space by done.
  assert (Hrev : rev (c :: (cs ++ [c'])) = c' :: rev (c :: cs)).
  { change (c :: (cs ++ [c'])) with ((c :: cs) ++ [c']).
    by rewrite rev_app_distr. }
  rewrite Hrev, lstrip_no_space by done.
  change (rev (c' :: rev (c :: cs))) with (rev (rev (c :: cs)) ++ [c']).
  by rewrite rev_involutive.
Qed.

Lemma strip_single c :
  is_space c = false -> strip (String c EmptyString) = [c].
Proof. intros Hc. unfold strip. simpl. rewrite Hc. simpl. by rewrite Hc. Qed.

(** The digits of a decimal numeral, as [take_digits] reads them. *)
Lemma take_digits_uint d :
  exists ds,
    take_digits (list_ascii_of_string (NilEmpty.string_of_uint d)) = (ds, [])
    /\ (forall acc : positive,
          fold_left (fun a x => (10 * a + x)%Z) ds (Z.pos acc)
          = Z.pos (Pos.of_uint_acc d acc))
    /\ fold_left (fun a x => (10 * a + x)%Z) ds 0%Z = Z.of_N (Pos.of_uint d)
    /\ (d <> Decimal.Nil -> ds <> [])
    /\ Forall (fun c => is_space c = false /\ c <> "-"%char /\ c <> "+"%char)
         (list_ascii_of_string (NilEmpty.string_of_uint d)).
Proof.
  induction d as [|d (ds & Htake & Hacc & Hzero & Hnil & Hchars)
                  |d (ds & Htake & Hacc & Hzero & Hnil & Hchars)
                  |d (ds & Htake & Hacc & Hzero & Hnil & Hchars)
                  |d (ds & Htake & Hacc & Hzero & Hnil & Hchars)
                  |d (ds & Htake & Hacc & Hzero & Hnil & Hchars)
                  |d (ds & Htake & Hacc & Hzero & Hnil & Hchars)
                  |d (ds & Htake & Hacc & Hzero & Hnil & Hchars)
                  |d (ds & Htake & Hacc & Hzero & Hnil & Hchars)
                  |d (ds & Htake & Hacc & Hzero & Hnil & Hchars)
                  |d (ds & Htake & Hacc & Hzero & Hnil & Hchars)].
  { exists []. by repeat split. }
  all: cbn [NilEmpty.string_of_uint list_ascii_of_string take_digits];
    rewrite Htake;
    match goal with
    | |- context [digit_of ?c] =>
        let v := eval vm_compute in (digit_of c) in
        change (digit_of c) with v
    end;
    cbv beta iota; eexists; (split; [reflexivity|]);
    (split; [intros acc; cbn [fold_left Pos.of_uint_acc];
             rewrite <- Hacc; f_equal; lia|]);
    (split; [cbn [fold_left Pos.of_uint Z.of_N];
             first [exact Hzero | rewrite <- Hacc; f_equal; lia]|]);
    (split; [done|]);
    (constructor; [split; [reflexivity|split; discriminate]|exact Hchars]).
Qed.

Lemma uint_text_cases d :
  d <> Decimal.Nil ->
  exists c cs,
    list_ascii_of_string (NilEmpty.string_of_uint d) = c :: cs
    /\ (cs = [] \/ exists cs' c', cs = cs' ++ [c']).
Proof.
  intros Hd. destruct d; [done|..]; cbn [NilEmpty.string_of_uint
    list_ascii_of_string]; eexists _, _; (split; [reflexivity|]);
    match goal with
    | |- ?l = [] \/ _ => destruct l as [|x xs _] using rev_ind; eauto
    end.
Qed.

Lemma to_uint_not_Nil p : Pos.to_uint p <> Decimal.Nil.
Proof.
  intros Hnil. pose proof (Unsigned.of_to p) as Hof. by rewrite Hnil in Hof.
Qed.

(** The text of a numeral has no blank at either end. *)
Lemma strip_uint_text d :
  d <> Decimal.Nil ->
  strip (NilEmpty.string_of_uint d)
  = list_ascii_of_string (NilEmpty.string_of_uint d)
  /\ strip (String "-" (NilEmpty.string_of_uint d))
     = "-"%char :: list_ascii_of_string (NilEmpty.string_of_uint d).
Proof.
  intros Hd.
  destruct (take_digits_uint d) as (ds & _ & _ & _ & _ & Hchars).
  destruct (uint_text_cases _ Hd) as (c & cs & Htext & Hcs).
  rewrite <- (string_of_list_ascii_of_string (NilEmpty.string_of_uint d)).
  rewrite Htext in *. rewrite list_ascii_of_string_of_list_ascii.
  assert (Hc : is_space c = false) by (by inversion Hchars as [|? ? [? _]]).
  assert (Hlast : forall cs' c', cs = cs' ++ [c'] -> is_space c' = false).
  { intros cs' c' ->. apply Forall_cons in Hchars as [_ Hchars].
    apply Forall_app in Hchars as [_ Hchars].
    by inversion Hchars as [|? ? [? _]]. }
  change (String "-" (string_of_list_ascii (c :: cs)))
    with (string_of_list_ascii ("-"%char :: c :: cs)).
  destruct Hcs as [->|(cs' & c' & ->)].
  - split; [by apply strip_single|].
    by apply (strip_no_space "-"%char [] c).
  - split; [apply strip_no_space; [done|by eapply Hlast]|].
    apply (strip_no_space "-"%char (c :: cs') c'); [done|by eapply Hlast].
Qed.

Lemma py_str_cases z :
  (z = 0%Z /\ py_str z = "0")
  \/ (exists p, z = Z.pos p
                /\ py_str z = NilEmpty.string_of_uint (Pos.to_uint p))
  \/ (exists p, z = Z.neg p
                /\ py_str z = String "-" (NilEmpty.string_of_uint (Pos.to_uint p))).
Proof.
  unfold py_str. destruct z as [|p|p]; [by left|right; left|right; right];
    exists p; (split; [done|]);
    cbn [Z.to_int NilZero.string_of_int]; unfold NilZero.string_of_uint;
    pose proof (to_uint_not_Nil p); by destruct (Pos.to_uint p).
Qed.

(** [str(n)] has no blank to strip. *)
Lemma py_strip_py_str z : py_strip (py_str z) = py_str z.
Proof.
  unfold py_strip.
  destruct (py_str_cases z) as [[_ ->]|[(p & _ & ->)|(p & _ & ->)]]; [done| |].
  - rewrite (proj1 (strip_uint_text _ (to_uint_not_Nil p))).
    apply string_of_list_ascii_of_string.
  - rewrite (proj2 (strip_uint_text _ (to_uint_not_Nil p))).
    cbn [string_of_list_ascii]. by rewrite string_of_list_ascii_of_string.
Qed.

(** [int] reads back what [str] writes. *)
Lemma int_decimal_py_str z : int_decimal (py_str z) = inr z.
Proof.
  destruct (py_str_cases z) as [[-> ->]|[(p & -> & ->)|(p & -> & ->)]]; [done| |].
  - pose proof (to_uint_not_Nil p) as Hd.
    destruct (take_digits_uint (Pos.to_uint p))
      as (ds & Htake & _ & Hzero & Hnil & Hchars).
    specialize (Hnil Hd). rewrite Unsigned.of_to in Hzero.
    unfold int_decimal. rewrite (proj1 (strip_uint_text _ Hd)).
    destruct (uint_text_cases _ Hd) as (c & cs & Htext & _).
    rewrite Htext in *.
    assert (Hsign : take_sign (c :: cs) = (1%Z, c :: cs)).
    { apply Forall_cons in Hchars as [(_ & Hm & Hp) _]. unfold take_sign.
      destruct (decide (c = "-"%char)) as [->|]; [done|].
      destruct (decide (c = "+"%char)) as [->|]; [done|].
      destruct c as [[] [] [] [] [] [] [] []]; done. }
    rewrite Hsign, Htake. destruct ds; [done|].
    cbn [is_nil negb andb]. unfold number_of. rewrite Hzero. f_equal.
  - pose proof (to_uint_not_Nil p) as Hd.
    destruct (take_digits_uint (Pos.to_uint p))
      as (ds & Htake & _ & Hzero & Hnil & Hchars).
    specialize (Hnil Hd). rewrite Unsigned.of_to in Hzero.
    unfold int_decimal. rewrite (proj2 (strip_uint_text _ Hd)).
    cbn [take_sign]. rewrite Htake. destruct ds; [done|].
    cbn [is_nil negb andb]. unfold number_of. rewrite Hzero. f_equal.
Qed.

(** ** The form: [ui/interval_ui.py] *)

Lemma relabel_intervals_numbers l :
  map IntervalUi.interval_number (IntervalUi.relabel_intervals l)
  = seq 1 (length l).
Proof.
  unfold IntervalUi.relabel_intervals.
  assert (H : forall (n : nat),
             map IntervalUi.interval_number
               (imap (fun idx w =>
                        {| IntervalUi.interval_number := S (n + idx);
                           IntervalUi.start_day := IntervalUi.start_day w;
                           IntervalUi.end_day := IntervalUi.end_day w;
                           IntervalUi.model_var := IntervalUi.model_var w;
                           IntervalUi.param_entries :=
                             IntervalUi.param_entries w |}) l)
             = seq (S n) (length l)).
  { induction l as [|w l IH]; intros n; [done|].
    simpl. rewrite Nat.add_0_r. f_equal.
    rewrite <- (IH (S n)). f_equal. apply imap_ext. intros idx w' _.
    simpl. f_equal. lia. }
  apply (H O).
Qed.

Lemma relabel_intervals_Forall (P : IntervalUi.ModelInterval -> Prop) l :
  (forall w n,
      P w ->
      P {| IntervalUi.interval_number := n;
           IntervalUi.start_day := IntervalUi.start_day w;
           IntervalUi.end_day := IntervalUi.end_day w;
           IntervalUi.model_var := IntervalUi.model_var w;
           IntervalUi.param_entries := IntervalUi.param_entries w |}) ->
  Forall P l -> Forall P (IntervalUi.relabel_intervals l).
Proof.
  intros HP Hl. unfold IntervalUi.relabel_intervals.
  apply Forall_lookup. intros k w Hk.
  rewrite list_lookup_imap in Hk.
  destruct (l !! k) as [w0|] eqn:Hw0; [|done].
  simpl in Hk. injection Hk as <-. apply HP.
  by eapply Forall_lookup_1.
Qed.

Lemma get_configuration_relabel l :
  map IntervalUi.get_configuration (IntervalUi.relabel_intervals l)
  = map IntervalUi.get_configuration l.
Proof.
  unfold IntervalUi.relabel_intervals.
  apply list_eq. intros k.
  rewrite !list_lookup_fmap, list_lookup_imap.
  by destruct (l !! k).
Qed.

Lemma MODEL_PARAMS_models model :
  is_Some (IntervalUi.MODEL_PARAMS !! model) ->
  model = "Geometric Brownian Motion (GBM)"
  \/ model = "Stochastic Volatility Model (Heston)".
Proof.
  intros [x Hx].
  destruct (decide (model = "Geometric Brownian Motion (GBM)")); [by left|].
  destruct (decide (model = "Stochastic Volatility Model (Heston)"));
    [by right|].
  unfold IntervalUi.MODEL_PARAMS in Hx. cbn [list_to_map foldr] in Hx.
  rewrite !lookup_insert_ne in Hx by done. done.
Qed.

Lemma shows_its_model_default model n s e :
  is_Some (IntervalUi.MODEL_PARAMS !! model) ->
  IntervalUi.shows_its_model
    {| IntervalUi.interval_number := n;
       IntervalUi.start_day := s; IntervalUi.end_day := e;
       IntervalUi.model_var := model;
       IntervalUi.param_entries := IntervalUi.create_param_widgets model |}.
Proof. intros Hmodel. by split. Qed.

Section Form.
Context {B : Builtins}.

Lemma init_shows_its_model l n w :
  IntervalUi.init l n = inr w -> IntervalUi.shows_its_model w.
Proof.
  unfold IntervalUi.init. destruct (n =? 1)%nat.
  - intros [= <-]. by apply shows_its_model_default.
  - destruct (IntervalUi.get_last_interval_end l); [done|].
    intros [= <-]. by apply shows_its_model_default.
Qed.

Lemma edit_shows_its_model w w' :
  IntervalUi.edit w w' ->
  IntervalUi.shows_its_model w -> IntervalUi.shows_its_model w'.
Proof.
  intros Hedit [Hmodel Hkeys].
  destruct Hedit as [w text|w text|w key text Hkey|w model Hsel];
    try (by split).
  split; [done|]. cbn [IntervalUi.param_entries IntervalUi.model_var].
  intros key'. rewrite <- Hkeys.
  destruct (decide (key = key')) as [<-|Hne].
  - rewrite lookup_insert_eq. split; [done|by eexists].
  - by rewrite lookup_insert_ne.
Qed.

Lemma edit_interval_number w w' :
  IntervalUi.edit w w' ->
  IntervalUi.interval_number w' = IntervalUi.interval_number w.
Proof. by destruct 1. Qed.

(** On every form the user can reach, each interval shows the
    parameters of its model. *)
Lemma reachable_shows_its_model l :
  IntervalUi.reachable l -> Forall IntervalUi.shows_its_model l.
Proof.
  induction 1 as [|l l' _ IH Hadd|l k _ IH Hk|l k w w' _ IH Hw Hedit].
  - constructor.
  - unfold IntervalUi.add_interval in Hadd.
    destruct (IntervalUi.init l (length l + 1)) as [e|w] eqn:Hinit; [done|].
    injection Hadd as <-.
    apply relabel_intervals_Forall; [by intros w0 n0 [? ?]|].
    apply Forall_app. split; [done|].
    constructor; [|constructor]. by eapply init_shows_its_model.
  - apply relabel_intervals_Forall; [by intros w0 n0 [? ?]|].
    by apply Forall_delete.
  - apply Forall_insert; [done|].
    eapply edit_shows_its_model; [exact Hedit|].
    by eapply Forall_lookup_1.
Qed.

(** X23: whatever the user does (add and remove intervals, type into
    entries, select models), the intervals of the form are numbered
    1, 2, ... in the order of the list, the model of every interval is
    one of [MODEL_PARAMS], and its entries are the parameters of that
    model. *)
Theorem form_invariant l :
  IntervalUi.reachable l ->
  map IntervalUi.interval_number l = seq 1 (length l)
  /\ Forall IntervalUi.shows_its_model l.
Proof.
  intros Hreach. split; [|by apply reachable_shows_its_model].
  induction Hreach as [|l l' _ IH Hadd|l k _ IH Hk|l k w w' _ IH Hw Hedit].
  - done.
  - unfold IntervalUi.add_interval in Hadd.
    destruct (IntervalUi.init l (length l + 1)) as [e|w] eqn:Hinit; [done|].
    injection Hadd as <-. rewrite relabel_intervals_numbers.
    unfold IntervalUi.relabel_intervals. by rewrite length_imap.
  - unfold IntervalUi.remove_interval. rewrite relabel_intervals_numbers.
    unfold IntervalUi.relabel_intervals. by rewrite length_imap.
  - rewrite length_insert, <- IH.
    apply list_eq. intros j. rewrite !list_lookup_fmap.
    destruct (decide (j = k)) as [->|Hne].
    + rewrite list_lookup_insert_eq by (by eapply lookup_lt_Some).
      rewrite Hw. simpl. f_equal. by apply edit_interval_number.
    + by rewrite list_lookup_insert_ne.
Qed.
End Form.

(** ** The form and the run *)

Section FormRuns.
Context {B : Builtins}.

Lemma simulate_intervals_known_models icfgs :
  Forall well_ordered icfgs ->
  Forall (fun c => cfg_model c = "Geometric Brownian Motion (GBM)"
                   \/ cfg_model c = "Stochastic Volatility Model (Heston)")
    icfgs ->
  forall i acc g g' title m,
    simulate_intervals i icfgs acc g = (g', ShowError title m) ->
    title = "Parameter Error".
Proof.
  induction 1 as [|c icfgs Hc _ IH]; intros Hknown i acc g g' title m; simpl;
    [done|].
  apply Forall_cons in Hknown as [Hmodel Hknown].
  destruct (run_interval i c (last_price acc) g)
    as [[title' m'|T path] g1|[] g1] eqn:Hrun; try done.
  - apply run_interval_Abort_inv in Hrun as (_ & _ & Hgbm & Hsvm); [|done].
    by destruct Hmodel.
  - destruct (append_path acc T path g1) as [acc1 g2|e g2]; [|done].
    by apply IH.
  - by intros [= <- <- <-].
Qed.

(** X24: on a form the user can reach, a run shows no other error box
    than "Error" (the validation of the days) and "Parameter Error": the
    menu offers the two known models only, so that the "Model Error" box
    is out of reach. *)
Theorem form_shows_two_error_boxes l g title m :
  IntervalUi.reachable l ->
  snd (run_simulation (map IntervalUi.get_configuration l) g)
  = ShowError title m ->
  title = "Error" \/ title = "Parameter Error".
Proof.
  intros Hform%reachable_shows_its_model.
  assert (Hknown : Forall
            (fun c => cfg_model c = "Geometric Brownian Motion (GBM)"
                      \/ cfg_model c = "Stochastic Volatility Model (Heston)")
            (map IntervalUi.get_configuration l)).
  { apply Forall_fmap. eapply Forall_impl; [exact Hform|].
    intros w [Hmodel _]. by apply MODEL_PARAMS_models. }
  set (cfgs := map IntervalUi.get_configuration l) in *.
  unfold run_simulation.
  destruct (collect_intervals 1 cfgs) as [t m0| |l0] eqn:Hcollect; [|done|].
  { simpl. intros [= <- <-]. left. by eapply collect_ShowError_inv. }
  apply collect_Completed_inv in Hcollect as [-> Hwo].
  destruct (sort_by_start cfgs) as [t m0| |sorted] eqn:Hsort; [|done|].
  { exfalso. unfold sort_by_start in Hsort.
    destruct (decorate cfgs) eqn:Hdec; try done.
    by apply decorate_no_box in Hdec. }
  destruct (simulate_intervals 1 sorted initial_chain g) as [g1 [t m0| |acc]]
    eqn:Hsim; [|done..].
  simpl. intros [= <- <-]. right.
  apply sort_by_start_perm in Hsort.
  eapply simulate_intervals_known_models; [| |exact Hsim].
  - eapply Permutation_Forall; [|exact Hwo]. by symmetry.
  - eapply Permutation_Forall; [|exact Hknown]. by symmetry.
Qed.
End FormRuns.

Lemma default_configuration w :
  IntervalUi.param_entries w
  = IntervalUi.create_param_widgets (IntervalUi.model_var w) ->
  (IntervalUi.model_var w = "Geometric Brownian Motion (GBM)" ->
   IntervalUi.get_configuration w
   = gbm_interval (py_strip (IntervalUi.start_day w))
       (py_strip (IntervalUi.end_day w)) "0.01")
  /\ (IntervalUi.model_var w = "Stochastic Volatility Model (Heston)" ->
      IntervalUi.get_configuration w
      = svm_interval (py_strip (IntervalUi.start_day w))
          (py_strip (IntervalUi.end_day w))).
Proof.
  destruct w as [n s e model entries]. simpl. intros ->.
  split; intros ->; unfold IntervalUi.get_configuration, gbm_interval,
    svm_interval; simpl; f_equal; reflexivity.
Qed.

(** X25: the default parameters of both models are accepted: an interval
    whose entries still hold the defaults of its model, and whose days
    pass step 1, is a valid configuration (on decimal text), so that a
    form of such intervals runs to completion. *)
Theorem default_parameters_are_valid w :
  is_Some (IntervalUi.MODEL_PARAMS !! IntervalUi.model_var w) ->
  IntervalUi.param_entries w
  = IntervalUi.create_param_widgets (IntervalUi.model_var w) ->
  well_ordered (B := decimal_builtins) (IntervalUi.get_configuration w) ->
  valid_config (B := decimal_builtins) (IntervalUi.get_configuration w).
Proof.
  intros Hmodel Hentries Hwo.
  destruct (default_configuration w Hentries) as [Hgbm Hsvm].
  destruct (MODEL_PARAMS_models _ Hmodel) as [Hm|Hm].
  - rewrite (Hgbm Hm) in *. apply gbm_interval_valid; [exact Hwo|].
    fits 1%Z 100%Z.
  - rewrite (Hsvm Hm) in *. by apply svm_interval_valid.
Qed.

(** ** "Add Interval" *)

Lemma added_interval_configuration n e :
  IntervalUi.get_configuration
    {| IntervalUi.interval_number := n;
       IntervalUi.start_day := py_str (e + 1);
       IntervalUi.end_day := "365";
       IntervalUi.model_var := "Geometric Brownian Motion (GBM)";
       IntervalUi.param_entries :=
         IntervalUi.create_param_widgets "Geometric Brownian Motion (GBM)" |}
  = gbm_interval (py_str (e + 1)) "365" "0.01".
Proof.
  unfold IntervalUi.get_configuration, gbm_interval. simpl.
  rewrite py_strip_py_str. f_equal.
Qed.

Section AddInterval.
Context {B : Builtins}.

End AddInterval.

(** ** "Export to CSV" *)

Lemma zip5_lookup ds os cs hs ls k row :
  zip5 ds os cs hs ls !! k = Some row
  <-> exists d o c h l,
        row = (d, o, c, h, l)
        /\ ds !! k = Some d /\ os !! k = Some o /\ cs !! k = Some c
        /\ hs !! k = Some h /\ ls !! k = Some l.
Proof.
  revert os cs hs ls k.
  induction ds as [|d ds IH]; intros os cs hs ls k.
  { simpl. split; [done|]. by intros (? & ? & ? & ? & ? & _ & ? & _). }
  destruct os as [|o os], cs as [|c cs], hs as [|h hs], ls as [|l ls];
    try (simpl; split; [done|];
         intros (? & ? & ? & ? & ? & _ & ? & ? & ? & ? & ?);
         by destruct k).
  destruct k as [|k]; simpl.
  - split.
    + intros [= <-]. by exists d, o, c, h, l.
    + intros (? & ? & ? & ? & ? & -> & [= <-] & [= <-] & [= <-] & [= <-]
              & [= <-]). done.
  - apply IH.
Qed.

Lemma zip5_length ds os cs hs ls n :
  length ds = n -> length os = n -> length cs = n -> length hs = n ->
  length ls = n -> length (zip5 ds os cs hs ls) = n.
Proof.
  revert os cs hs ls n.
  induction ds as [|d ds IH]; intros os cs hs ls n; [by intros <-|].
  destruct os as [|o os], cs as [|c cs], hs as [|h hs], ls as [|l ls];
    simpl; try (intros; lia).
  destruct n as [|n]; [done|].
  intros [= ?] [= ?] [= ?] [= ?] [= ?]. f_equal. by apply IH.
Qed.

Section ExportCsv.
Context {B : Builtins}.

(** X27: after a run that completed, "Export to CSV" with a file that
    can be written writes the header and one row for each simulated
    day, none left out: row [k] (from 0) holds the day number [k + 1]
    and the entries [k] of the four price columns of the result. *)
Theorem export_writes_every_day gui g g' gui' series file_path os_error :
  press_run gui g = (g', gui', Completed series) ->
  file_path <> "" -> os_error file_path = None ->
  exists rows,
    press_export gui' file_path os_error
    = ExportWritten file_path ["Day"; "Open"; "Close"; "High"; "Low"] rows
    /\ length rows
       = Z.to_nat
           (total_days (map IntervalUi.get_configuration (model_intervals gui)))
    /\ forall k row,
         rows !! k = Some row
         <-> exists o c h l,
               row = (Z.of_nat (S k), o, c, h, l)
               /\ Open series !! k = Some o /\ Close series !! k = Some c
               /\ High series !! k = Some h /\ Low series !! k = Some l.
Proof.
  unfold press_run, press_export. intros Hrun Hpath Hos.
  set (cfgs := map IntervalUi.get_configuration (model_intervals gui)) in *.
  destruct (run_simulation cfgs g) as [g1 r] eqn:Hsim.
  injection Hrun as <- <- ->.
  cbn [simulation_results simulation_results_after].
  unfold export_simulation. rewrite decide_False, Hos by done.
  eexists. split; [reflexivity|].
  pose proof (run_simulation_Completed _ _ _ _ Hsim)
    as (sorted & acc & _ & _ & Hwo & Hseries & _ & HDay & Hlen & _).
  apply run_simulation_Completed_inv in Hsim
    as (sorted' & acc' & _ & _ & Hloop & Hseries').
  pose proof (columns_align_loop _ _ _ _ _ _ Hloop columns_align_empty)
    as (HD & HO & HH & HL).
  rewrite <- Hseries' in HD, HO, HH, HL. rewrite <- Hseries in HDay, Hlen.
  split.
  - apply zip5_length; congruence.
  - intros k row. rewrite zip5_lookup.
    assert (Hday : forall d, Day series !! k = Some d -> d = Z.of_nat (S k)).
    { rewrite HDay.
      replace (total_days cfgs)
        with (Z.of_nat (Z.to_nat (total_days cfgs)))
        by (pose proof (total_days_nonneg cfgs Hwo); lia).
      rewrite py_range_from_1. intros d.
      rewrite list_lookup_fmap.
      destruct (seq 1 (Z.to_nat (total_days cfgs)) !! k) as [j|] eqn:Hj;
        [|done].
      apply lookup_seq in Hj as [-> _]. by intros [= <-]. }
    split.
    + intros (d & o & c & h & l & -> & Hd & Ho & Hc & Hh & Hl).
      exists o, c, h, l. by rewrite (Hday d Hd).
    + intros (o & c & h & l & -> & Ho & Hc & Hh & Hl).
      destruct (Day series !! k) as [d|] eqn:Hd.
      * exists d, o, c, h, l. by rewrite (Hday d eq_refl).
      * apply lookup_ge_None in Hd. apply lookup_lt_Some in Hc. lia.
Qed.
End ExportCsv.

(** ** The further properties on sample inputs *)

Lemma path_has_one_bar_a_day_witness :
  exists p g',
    Gbm.generate_gbm_prices 3 1 100 0.05 0.2 4 None zero_rng = Ok p g'
    /\ days p = [1; 2; 3]%Z
    /\ length (close_prices p) = 3%nat.
Proof.
  destruct (gbm_generate_total 3 1 100 0.05 0.2 4 None zero_rng)
    as (p & g' & Hrun); [left; lia|].
  destruct (path_has_one_bar_a_day 3 1 100 0.05 0.2 0.04 3 0.04 0.6 (-0.7)
              no_events 4 None zero_rng) as [Hgbm _].
  destruct (Hgbm p g' Hrun) as (Hdays & _ & Hclose & _).
  exists p, g'. split; [exact Hrun|]. split; [exact Hdays|exact Hclose].
Defined.

Lemma bars_are_built_from_the_cells_witness :
  exists st g',
    Svm.simulate 3 1 100 0.04 3 0.04 0.6 (-0.7) 0.05 sample_events 4 None
      zero_rng = Ok st g'
    /\ Svm.opens st !! 2%nat = Svm.arr_S st !! 8%nat
    /\ Svm.closes st !! 2%nat = Svm.arr_S st !! 12%nat
    /\ Svm.highs st !! 2%nat
       = Some (Rmax_list (day_values (Svm.arr_S st) 4 2)).
Proof.
  pose proof (svm_simulate_ok 3 1 100 0.04 3 0.04 0.6 (-0.7) 0.05
                sample_events 4 None zero_rng ltac:(lia) ltac:(lia)) as Hrun.
  cbv zeta in Hrun.
  destruct (bars_are_built_from_the_cells 3 1 100 0.05 0.2 0.04 3 0.04 0.6
              (-0.7) sample_events 4 None zero_rng) as (_ & Hsvm & _).
  pose proof (Hsvm _ _ Hrun 2%nat ltac:(vm_compute; lia)) as Hbar.
  cbv zeta in Hbar. destruct Hbar as (Ho & Hc & Hh & _).
  eexists _, _. split; [exact Hrun|].
  split; [exact Ho|]. split; [exact Hc|exact Hh].
Defined.



Lemma generators_consume_draws_witness :
  exists p g',
    Svm.generate_svm_prices 2 1 100 0.04 3 0.04 0.6 (-0.7) 0.05 no_events 4
      None zero_rng = Ok p g'
    /\ g' = advance 16 zero_rng.
Proof.
  destruct (svm_generate_total 2 1 100 0.04 3 0.04 0.6 (-0.7) 0.05 no_events
              4 None zero_rng) as (p & g' & Hrun); [left; lia|].
  destruct (generators_consume_draws 2 1 100 0.05 0.2 0.04 3 0.04 0.6 (-0.7)
              no_events 4 None zero_rng) as [_ Hsvm].
  exists p, g'. split; [exact Hrun|]. exact (Hsvm p g' Hrun).
Defined.


Lemma prices_are_never_negative_witness :
  exists p g',
    Svm.generate_svm_prices 20 1 100 0.04 3 0.04 0.6 (-0.7) 0.05 sample_events
      4 None zero_rng = Ok p g'
    /\ Forall (fun x => ~ (x < 0)) (low_prices p).
Proof.
  destruct (svm_generate_total 20 1 100 0.04 3 0.04 0.6 (-0.7) 0.05
              sample_events 4 None zero_rng)
    as (p & g' & Hrun); [left; lia|].
  destruct (prices_are_never_negative 20 1 100 0.05 0.2 0.04 3 0.04 0.6
              (-0.7) sample_events 4 None zero_rng ltac:(lra)) as [_ Hsvm].
  exists p, g'. split; [exact Hrun|].
  apply (Hsvm ltac:(intros cf [= <-]; lra) p g' Hrun).
Defined.

Lemma gbm_without_volatility_witness :
  exists p g1' g2',
    Gbm.generate_gbm_prices 2 1 100 0.05 0 4 None zero_rng = Ok p g1'
    /\ Gbm.generate_gbm_prices 2 1 100 0.05 0 4 None used_rng = Ok p g2'.
Proof.
  destruct (gbm_generate_total 2 1 100 0.05 0 4 None zero_rng)
    as (p1 & g1' & Hrun1); [left; lia|].
  destruct (gbm_generate_total 2 1 100 0.05 0 4 None used_rng)
    as (p2 & g2' & Hrun2); [left; lia|].
  exists p1, g1', g2'. split; [exact Hrun1|].
  rewrite (gbm_without_volatility 2 1 100 0.05 4 None zero_rng used_rng
             p1 g1' p2 g2' ltac:(lra) Hrun1 Hrun2).
  exact Hrun2.
Defined.

Lemma events_outside_the_run_are_ignored_witness :
  exists p g',
    Svm.generate_svm_prices 5 1 100 0.04 3 0.04 0.6 (-0.7) 0.05 sample_events
      4 None zero_rng = Ok p g'
    /\ Svm.generate_svm_prices 5 1 100 0.04 3 0.04 0.6 (-0.7) 0.05 no_events
         4 None zero_rng = Ok p g'.
Proof.
  destruct (svm_generate_total 5 1 100 0.04 3 0.04 0.6 (-0.7) 0.05
              sample_events 4 None zero_rng)
    as (p & g' & Hrun); [left; lia|].
  assert (Hbubble : bubble_misses 5 sample_events).
  { cbv [bubble_misses sample_events Svm.bubble_start Svm.bubble_end]. lia. }
  assert (Hcrash : crash_misses 5 sample_events).
  { cbv [crash_misses sample_events Svm.crash_day]. lia. }
  exists p, g'. split; [exact Hrun|].
  exact (proj1 (events_outside_the_run_are_ignored 5 1 100 0.04 3 0.04 0.6
                  (-0.7) 0.05 sample_events 4 None zero_rng p g' Hbubble
                  Hcrash) Hrun).
Defined.

Lemma crash_leaves_earlier_prices_witness :
  exists st g' st0 g0',
    Svm.simulate 20 1 100 0.04 3 0.04 0.6 (-0.7) 0.05 sample_events 4 None
      zero_rng = Ok st g'
    /\ Svm.simulate 20 1 100 0.04 3 0.04 0.6 (-0.7) 0.05
         (without_crash sample_events) 4 None zero_rng = Ok st0 g0'
    /\ Svm.arr_S st !! 59%nat = Svm.arr_S st0 !! 59%nat
    /\ exists x,
         Svm.arr_S st0 !! 60%nat = Some x
         /\ Svm.arr_S st !! 60%nat = Some (x * 0.7).
Proof.
  pose proof (svm_simulate_ok 20 1 100 0.04 3 0.04 0.6 (-0.7) 0.05
                sample_events 4 None zero_rng ltac:(lia) ltac:(lia)) as Hrun.
  pose proof (svm_simulate_ok 20 1 100 0.04 3 0.04 0.6 (-0.7) 0.05
                (without_crash sample_events) 4 None zero_rng
                ltac:(lia) ltac:(lia)) as Hrun0.
  cbv zeta in Hrun, Hrun0.
  destruct (crash_leaves_earlier_prices 20 1 100 0.04 3 0.04 0.6 (-0.7) 0.05
              sample_events 4 None zero_rng 15 0.7 _ _ _ _ eq_refl eq_refl
              ltac:(lia) Hrun Hrun0) as (_ & _ & Hbefore & Hat & _).
  eexists _, _, _, _. split; [exact Hrun|]. split; [exact Hrun0|].
  split; [exact (Hbefore 59%nat ltac:(vm_compute; lia))|exact Hat].
Defined.


Lemma ex_script_is_the_daily_svm_witness :
  exists S v g' st,
    Ex.script zero_rng = Ok (S, v) g'
    /\ Svm.simulate 265 (1 / 265) 100 0.04 3 0.04 0.6 (-0.7) 0.05
         (ex_events 0.15 250 250 0.7) 1 None zero_rng = Ok st g'
    /\ Svm.arr_S st = S /\ Svm.arr_v st = v.
Proof.
  apply (ex_script_is_the_daily_svm 265 (1 / 265) 100 0.04 0.05 0.15 3 0.04
           0.6 (-0.7) 250 250 0.7 zero_rng).
  lia.
Defined.

Lemma reads_alike_refl b c : reads_alike b c c.
Proof. by repeat split. Qed.

Lemma with_initial_price_alike text c :
  reads_alike false c (with_initial_price text c).
Proof.
  unfold reads_alike, with_initial_price.
  cbn [cfg_start cfg_end cfg_model cfg_params].
  repeat split. intros key Hkey HS0. symmetry. apply lookup_insert_ne.
  intros <-. by specialize (HS0 eq_refl).
Qed.

Lemma decimal_builtins_documented : raise_as_documented decimal_builtins.
Proof.
  repeat split; cbn [py_int py_float py_Fraction decimal_builtins]; intros s e.
  - unfold int_decimal.
    destruct (take_sign _) as [sign cs], (take_digits cs) as [ds rest].
    destruct (negb (is_nil ds) && is_nil rest); [done|].
    intros [= <-]. eauto.
  - unfold float_decimal. destruct (decimal_parts s) as [[mantissa places]|];
      [done|]. intros [= <-]. eauto.
  - unfold Fraction_decimal. destruct (ratio_parts s) as [[n d]|].
    + destruct (d =? 0)%Z; [|done]. intros [= <-]. by left.
    + destruct (decimal_parts s) as [[mantissa places]|]; [done|].
      intros [= <-]. eauto.
Qed.

Lemma two_intervals_run g :
  exists series g',
    run_simulation (B := decimal_builtins)
      [svm_interval "3" "5"; gbm_interval "1" "3" "0.01"] g
    = (g', Completed series).
Proof. apply run_simulation_valid, two_intervals_valid. Qed.

Lemma two_intervals_sorted :
  sort_by_start (B := decimal_builtins)
    [svm_interval "3" "5"; gbm_interval "1" "3" "0.01"]
  = Completed [gbm_interval "1" "3" "0.01"; svm_interval "3" "5"].
Proof. reflexivity. Qed.

Lemma completed_run_has_a_row_a_day_witness :
  exists series g',
    run_simulation (B := decimal_builtins)
      [svm_interval "3" "5"; gbm_interval "1" "3" "0.01"] zero_rng
    = (g', Completed series)
    /\ length (Open series) = 4%nat /\ length (Low series) = 4%nat.
Proof.
  destruct (two_intervals_run zero_rng) as (series & g' & Hrun).
  destruct (completed_run_has_a_row_a_day (B := decimal_builtins) _ _ _ _
              Hrun) as (_ & HO & _ & _ & HL).
  exists series, g'. split; [exact Hrun|]. split; [exact HO|exact HL].
Defined.

Lemma completed_run_is_continuous_witness :
  exists series g',
    run_simulation (B := decimal_builtins)
      [svm_interval "3" "5"; gbm_interval "1" "3" "0.01"] zero_rng
    = (g', Completed series)
    /\ exists x,
         py_float (Builtins := decimal_builtins)
           (py_get (cfg_params (gbm_interval "1" "3" "0.01"))
              "Initial Stock Price (S0)" "100") = inr x
         /\ Open series !! O = Some x.
Proof.
  destruct (two_intervals_run zero_rng) as (series & g' & Hrun).
  destruct (completed_run_is_continuous (B := decimal_builtins) _ _ _ _ Hrun)
    as [_ Hfirst].
  exists series, g'. split; [exact Hrun|].
  exact (Hfirst _ _ two_intervals_sorted).
Defined.

Lemma completed_run_consumes_draws_witness :
  exists series g',
    run_simulation (B := decimal_builtins)
      [svm_interval "3" "5"; gbm_interval "1" "3" "0.01"] zero_rng
    = (g', Completed series)
    /\ g' = advance 24 zero_rng.
Proof.
  destruct (two_intervals_run zero_rng) as (series & g' & Hrun).
  exists series, g'. split; [exact Hrun|].
  exact (completed_run_consumes_draws (B := decimal_builtins) _ _ _ _ Hrun).
Defined.

Lemma later_initial_prices_are_ignored_witness :
  run_simulation (B := decimal_builtins)
    [gbm_interval "1" "3" "0.01"; svm_interval "3" "5"] zero_rng
  = run_simulation (B := decimal_builtins)
      [gbm_interval "1" "3" "0.01";
       with_initial_price "abc" (svm_interval "3" "5")] zero_rng.
Proof.
  apply (later_initial_prices_are_ignored (B := decimal_builtins)).
  - constructor; [apply reads_alike_refl|].
    constructor; [apply with_initial_price_alike|constructor].
  - intros c0 rest c0' rest' Hsort Hsort'.
    assert (H : sort_by_start (B := decimal_builtins)
                  [gbm_interval "1" "3" "0.01"; svm_interval "3" "5"]
                = Completed [gbm_interval "1" "3" "0.01"; svm_interval "3" "5"])
      by reflexivity.
    assert (H' : sort_by_start (B := decimal_builtins)
                   [gbm_interval "1" "3" "0.01";
                    with_initial_price "abc" (svm_interval "3" "5")]
                 = Completed [gbm_interval "1" "3" "0.01";
                              with_initial_price "abc" (svm_interval "3" "5")])
      by reflexivity.
    rewrite H in Hsort. rewrite H' in Hsort'.
    injection Hsort as <- _. injection Hsort' as <- _. reflexivity.
Defined.


Lemma error_boxes_of_a_run_witness :
  ("Error" = "Error"
   /\ fst (run_simulation (B := decimal_builtins)
             [gbm_interval "50" "50" "0.01"] zero_rng) = zero_rng)
  \/ ("Error" = "Parameter Error"
      /\ exists j e, MsgStartBeforeEnd 1 = MsgInterval j e)
  \/ ("Error" = "Model Error"
      /\ exists j model, MsgStartBeforeEnd 1 = MsgUnknownModel j model).
Proof.
  apply (error_boxes_of_a_run (B := decimal_builtins)
           [gbm_interval "50" "50" "0.01"] zero_rng "Error"
           (MsgStartBeforeEnd 1)).
  reflexivity.
Defined.


Lemma run_is_independent_of_the_order_witness :
  run_simulation (B := decimal_builtins)
    [svm_interval "3" "5"; gbm_interval "1" "3" "0.01"] zero_rng
  = run_simulation (B := decimal_builtins)
      [gbm_interval "1" "3" "0.01"; svm_interval "3" "5"] zero_rng.
Proof.
  apply (run_is_independent_of_the_order (B := decimal_builtins)).
  - constructor; [prove_well_ordered|]. constructor; [prove_well_ordered|].
    constructor.
  - apply perm_swap.
  - assert (H : map (start_key (B := decimal_builtins))
                  [svm_interval "3" "5"; gbm_interval "1" "3" "0.01"]
                = [3; 1]%Z) by reflexivity.
    rewrite H. apply NoDup_cons. split; [|apply NoDup_singleton].
    intros Hin. apply list_elem_of_singleton in Hin. discriminate.
Defined.

Lemma sort_is_stable_by_start_day_witness :
  [gbm_interval "1" "3" "0.01"; svm_interval "3" "5"]
  ≡ₚ [svm_interval "3" "5"; gbm_interval "1" "3" "0.01"].
Proof.
  exact (proj1 (sort_is_stable_by_start_day (B := decimal_builtins) _ _
                  two_intervals_sorted)).
Defined.

Lemma first_interval_reachable :
  IntervalUi.reachable (B := decimal_builtins) [first_interval].
Proof. by apply (IntervalUi.reach_add [] [first_interval] IntervalUi.reach_empty). Qed.

Lemma first_interval_configuration :
  IntervalUi.get_configuration first_interval = gbm_interval "1" "100" "0.01".
Proof. reflexivity. Qed.

Lemma first_interval_valid :
  valid_config (B := decimal_builtins) (gbm_interval "1" "100" "0.01").
Proof.
  apply gbm_interval_valid; [prove_well_ordered|].
  fits 1%Z 100%Z.
Qed.

Lemma form_invariant_witness :
  map IntervalUi.interval_number [first_interval] = seq 1 1
  /\ Forall IntervalUi.shows_its_model [first_interval].
Proof.
  exact (form_invariant (B := decimal_builtins) [first_interval]
           first_interval_reachable).
Defined.

Lemma form_shows_two_error_boxes_witness :
  "Error" = "Error" \/ "Error" = "Parameter Error".
Proof.
  apply (form_shows_two_error_boxes (B := decimal_builtins)
           (<[O := {| IntervalUi.interval_number :=
                        IntervalUi.interval_number first_interval;
                      IntervalUi.start_day := IntervalUi.start_day first_interval;
                      IntervalUi.end_day := "0";
                      IntervalUi.model_var := IntervalUi.model_var first_interval;
                      IntervalUi.param_entries :=
                        IntervalUi.param_entries first_interval |}]>
              [first_interval])
           zero_rng "Error" (MsgStartBeforeEnd 1)).
  - apply (IntervalUi.reach_edit [first_interval] O first_interval).
    + exact first_interval_reachable.
    + reflexivity.
    + apply IntervalUi.edit_end.
  - reflexivity.
Defined.

Lemma default_parameters_are_valid_witness :
  valid_config (B := decimal_builtins)
    (IntervalUi.get_configuration first_interval).
Proof.
  apply (default_parameters_are_valid first_interval).
  - by eexists.
  - reflexivity.
  - prove_well_ordered.
Defined.


Lemma export_writes_every_day_witness :
  exists g' gui' series rows,
    press_run (B := decimal_builtins) fresh_window zero_rng
    = (g', gui', Completed series)
    /\ press_export gui' "prices.csv" (fun _ => None)
       = ExportWritten "prices.csv" ["Day"; "Open"; "Close"; "High"; "Low"]
           rows
    /\ length rows = 99%nat.
Proof.
  destruct (run_simulation_valid (B := decimal_builtins)
              [gbm_interval "1" "100" "0.01"] zero_rng)
    as (series & g' & Hrun).
  { constructor; [exact first_interval_valid|constructor]. }
  assert (Hpress : press_run (B := decimal_builtins) fresh_window zero_rng
                   = (g',
                      {| model_intervals := [first_interval];
                         simulation_results := Some series |},
                      Completed series)).
  { unfold press_run, fresh_window. cbn [model_intervals map].
    rewrite first_interval_configuration, Hrun. reflexivity. }
  destruct (export_writes_every_day (B := decimal_builtins) fresh_window
              zero_rng g' _ series "prices.csv" (fun _ => None) Hpress)
    as (rows & Hexport & Hlen & _); [discriminate|reflexivity|].
  eexists g', _, series, rows. split; [exact Hpress|].
  split; [exact Hexport|exact Hlen].
Defined.
